(** * Grade-record service: command handlers, dispatcher and catalog client

    A shallow embedding of the two deployments of the grade service
    ([con_hilos/server.py], threaded, and [sin_hilos/server.py],
    sequential) and of the catalog microservice ([nrcs_server.py]).

    - Python [str] values are lists of Unicode code points.
    - Python dicts that travel as JSON are association lists in insertion
      order ([JObj]).
    - [calificaciones.csv] is the list of its data rows, each with the
      three columns [save_records] writes; [save_records] replaces that
      list and [load_records] reads it back, unless a field is longer
      than the field limit of the [csv] reader, in which case the read
      raises. A handler is a function from the rows before to an outcome
      and the rows after. A missing file and a file holding only the
      header are both [[]].
    - [estudiantes.csv] is read-only and is passed as the list of its rows.
    - A handler takes the outcome of [consultar_nrc] for a code (the
      value it returned or the exception it raised) from the environment
      of the request ([nrc_resp]); how that outcome comes out of the
      socket, and when the call returns at all, is
      [ConHilos.consultar_nrc].
    - The interleavings of two threads of the threaded server are in
      [Threads].

    The definitions come first, the lemmas and the theorems on the claims
    after them. *)

From Stdlib Require Import String Ascii NArith ZArith Lia.
From stdpp Require Import gmap list.

Local Open Scope N_scope.
Set Warnings "-register-all".

(** ** Python strings *)

Definition pystr := list N.

(** Bytes of a source literal. *)
Fixpoint literal_bytes (s : string) : list N :=
  match s with
  | EmptyString => []
  | String a r => N_of_ascii a :: literal_bytes r
  end.

(** UTF-8 decoding of a source literal (one to three byte forms, which is
    all the message texts of the servers use). *)
Fixpoint utf8_points (bs : list N) : pystr :=
  match bs with
  | [] => []
  | b :: r =>
      if b <? 128 then b :: utf8_points r
      else if b <? 224 then
        match r with
        | c :: r1 => ((b - 192) * 64 + (c - 128)) :: utf8_points r1
        | [] => [b]
        end
      else
        match r with
        | c :: d :: r2 =>
            ((b - 224) * 4096 + (c - 128) * 64 + (d - 128)) :: utf8_points r2
        | _ => [b]
        end
  end.

Definition decode_literal (s : string) : pystr := utf8_points (literal_bytes s).

(** [py "text"] is the [str] written ["text"] in the Python source: the
    code points, computed once where the literal is written. *)
Notation "'py' s" :=
  (ltac:(let v := eval vm_compute in (decode_literal s%string) in exact v))
  (at level 10, s at level 9, only parsing).

Fixpoint str_eqb (a b : pystr) : bool :=
  match a, b with
  | [], [] => true
  | x :: a', y :: b' => (x =? y) && str_eqb a' b'
  | _, _ => false
  end.

(** Truth value of a [str]: non-empty. *)
Definition truthy (s : pystr) : bool :=
  match s with [] => false | _ => true end.

(** [str.isspace()] of one code point. *)
Definition is_space (c : N) : bool :=
  ((9 <=? c) && (c <=? 13)) || ((28 <=? c) && (c <=? 32))
  || (c =? 133) || (c =? 160) || (c =? 5760)
  || ((8192 <=? c) && (c <=? 8202))
  || (c =? 8232) || (c =? 8233) || (c =? 8239) || (c =? 8287) || (c =? 12288).

Fixpoint lstrip (s : pystr) : pystr :=
  match s with
  | [] => []
  | c :: r => if is_space c then lstrip r else s
  end.

Definition rstrip (s : pystr) : pystr := rev (lstrip (rev s)).

(** [str.strip()] with no argument. *)
Definition strip (s : pystr) : pystr := lstrip (rstrip s).

(** [str.split(sep)] for a one-character separator. *)
Fixpoint split (sep : N) (s : pystr) : list pystr :=
  match s with
  | [] => [[]]
  | c :: r =>
      if c =? sep then [] :: split sep r
      else match split sep r with
           | h :: t => (c :: h) :: t
           | [] => [[c]]
           end
  end.

Definition PIPE : N := 124.
Definition NEWLINE : N := 10.

(** ** JSON values, as [json.loads] returns them and [json.dumps] takes them *)

Inductive JSON :=
| JNull
| JBool (b : bool)
| JInt (z : Z)
| JFloat (lexeme : pystr)
| JStr (s : pystr)
| JArr (items : list JSON)
| JObj (fields : list (pystr * JSON)).

Definition Dict := list (pystr * JSON).

(** [d.get(k)] *)
Fixpoint dict_get (k : pystr) (d : Dict) : option JSON :=
  match d with
  | [] => None
  | (k', v) :: r => if str_eqb k' k then Some v else dict_get k r
  end.

(** [d[k] = v]: replaces in place, or appends a new key. *)
Fixpoint dict_set (k : pystr) (v : JSON) (d : Dict) : Dict :=
  match d with
  | [] => [(k, v)]
  | (k', v') :: r =>
      if str_eqb k' k then (k', v) :: r else (k', v') :: dict_set k v r
  end.

(** [x == lit] for [x] the result of a [.get] and [lit] a [str]. *)
Definition get_is (o : option JSON) (lit : pystr) : bool :=
  match o with
  | Some (JStr s) => str_eqb s lit
  | _ => false
  end.

(** The ["status"] of a response, when it is a dict that has one. *)
Definition status_of (resp : JSON) : option pystr :=
  match resp with
  | JObj d => match dict_get (py "status") d with
              | Some (JStr s) => Some s
              | _ => None
              end
  | _ => None
  end.

Definition message_of (resp : JSON) : option JSON :=
  match resp with
  | JObj d => dict_get (py "message") d
  | _ => None
  end.

(** The three response shapes every handler builds. *)
Definition resp_error (message : pystr) : JSON :=
  JObj [(py "status", JStr (py "error")); (py "message", JStr message)].

Definition resp_not_found (message : pystr) : JSON :=
  JObj [(py "status", JStr (py "not_found")); (py "message", JStr message)].

Definition resp_ok (data : JSON) : JSON :=
  JObj [(py "status", JStr (py "ok")); (py "data", data)].

Arguments resp_error : simpl never.
Arguments resp_not_found : simpl never.
Arguments resp_ok : simpl never.

(** ** Exceptions and outcomes *)

Record Exn := mkExn { exn_class : pystr; exn_str : pystr }.

Inductive Outcome (A : Type) :=
| Return (a : A)
| Raise (e : Exn).
Arguments Return {A} a.
Arguments Raise {A} e.

(** What [handle_client] (or the accept loop of the sequential server)
    sends for an outcome of the dispatch: an exception becomes an error
    response. *)
Definition reply (o : Outcome JSON) : JSON :=
  match o with
  | Return resp => resp
  | Raise e => resp_error (py "Excepción: " ++ exn_str e)
  end.

(** Python's type name of a decoded JSON value. *)
Definition type_name (j : JSON) : pystr :=
  match j with
  | JNull => py "NoneType"
  | JBool _ => py "bool"
  | JInt _ => py "int"
  | JFloat _ => py "float"
  | JStr _ => py "str"
  | JArr _ => py "list"
  | JObj _ => py "dict"
  end.

(** [x.get] on a value that is not a dict. *)
Definition no_attribute_get (j : JSON) : Exn :=
  mkExn (py "AttributeError")
        (py "'" ++ type_name j ++ py "' object has no attribute 'get'").

(** ** Library functions the servers call

    The Unicode case tables, the JSON decoder, the UTF-8 codec and
    [str()] of numbers and containers are Python's, not the
    repository's. *)

(** What [json.loads] does with a text: it returns a value, raises
    [json.JSONDecodeError], or raises another exception ([RecursionError]
    on a deeply nested text, [ValueError] on an integer literal with too
    many digits). *)
Inductive Loads :=
| Loaded (value : JSON)
| DecodeError
| LoadsRaises (e : Exn).

Class PyRuntime := {
  (** [c.upper()] for a code point outside ASCII. *)
  unicode_upper : N -> pystr;
  (** [json.loads]. *)
  json_loads : pystr -> Loads;
  (** [bytes.decode("utf-8", errors="replace")]. *)
  decode_utf8 : list N -> pystr;
  (** [str(v)] for a number, a list or a dict. *)
  str_other : JSON -> pystr
}.

Section StrOps.
Context `{PyRuntime}.

Definition upper_char (c : N) : pystr :=
  if (97 <=? c) && (c <=? 122) then [c - 32]
  else if c <? 128 then [c]
  else unicode_upper c.

(** [str.upper()] *)
Definition upper (s : pystr) : pystr := flat_map upper_char s.

(** What an f-string writes for [{v}], [v] the result of a [.get]. *)
Definition fstr (o : option JSON) : pystr :=
  match o with
  | None | Some JNull => py "None"
  | Some (JStr s) => s
  | Some (JBool true) => py "True"
  | Some (JBool false) => py "False"
  | Some v => str_other v
  end.
End StrOps.

(** ** Persistent data *)

(** One row of [calificaciones.csv] (FIELDNAMES). *)
Record Row := mkRow {
  ID_Estudiante : pystr;
  Materia : pystr;
  Calificacion : pystr
}.

(** One row of [estudiantes.csv]; a row that stops after the first column
    has no [Nombre] ([csv.DictReader] gives [None]). *)
Record Estudiante := mkEstudiante {
  est_id : pystr;
  est_nombre : option pystr
}.

Definition Store := list Row.

(** [csv.field_size_limit()]: the reader raises when it is to add a
    character to a field that already holds this many. The writer has no
    limit. *)
Definition FIELD_LIMIT : N := 131072.

Definition fits (field : pystr) : bool :=
  N.of_nat (length field) <=? FIELD_LIMIT.

Definition readable_row (r : Row) : bool :=
  fits (ID_Estudiante r) && fits (Materia r) && fits (Calificacion r).

(** The reader gets through every row of the file. *)
Definition readable (file : Store) : bool := forallb readable_row file.

(** The [_csv.Error] of the reader. *)
Definition csv_field_error : Exn :=
  mkExn (py "Error") (py "field larger than field limit (131072)").

(** [load_records]: [list(csv.DictReader(f))]. What the writer wrote
    comes back field by field (quoting carries separators, quotes and
    line breaks; the reader of Python 3.11 and later also takes NUL),
    unless a field is over the limit. *)
Definition load_records (file : Store) : Outcome Store :=
  if readable file then Return file else Raise csv_field_error.

(** [records = load_records()] and the rest of a handler: an exception
    of the read leaves the handler at once, the file as it was. *)
Definition with_records (file : Store)
  (rest : Store -> Outcome JSON * Store) : Outcome JSON * Store :=
  match load_records file with
  | Return records => rest records
  | Raise e => (Raise e, file)
  end.

(** The dict [csv.DictReader] yields for a row, also [dict(new_row)]. *)
Definition row_dict (r : Row) : Dict :=
  [(py "ID_Estudiante", JStr (ID_Estudiante r));
   (py "Materia", JStr (Materia r));
   (py "Calificacion", JStr (Calificacion r))].

(** [x or ''] *)
Definition or_empty (o : option pystr) : pystr :=
  match o with
  | Some s => s
  | None => []
  end.

(** [r["ID_Estudiante"] == student_id and r.get("Materia") == materia] *)
Definition same_key (student_id materia : pystr) (r : Row) : bool :=
  str_eqb (ID_Estudiante r) student_id && str_eqb (Materia r) materia.

(** [r.get("ID_Estudiante") == student_id] *)
Definition has_id (student_id : pystr) (r : Row) : bool :=
  str_eqb (ID_Estudiante r) student_id.

(** Invariant I1: no two rows share (ID_Estudiante, Materia). *)
Definition key_of (r : Row) : pystr * pystr := (ID_Estudiante r, Materia r).
Definition unique_keys (records : Store) : Prop := NoDup (map key_of records).

(** ** Reading [estudiantes.csv] *)

(** First row whose id matches; [None] when there is none. *)
Fixpoint get_estudiante_nombre (rows : list Estudiante) (student_id : pystr)
  : option pystr :=
  match rows with
  | [] => None
  | row :: rest =>
      if str_eqb (est_id row) student_id then Some (or_empty (est_nombre row))
      else get_estudiante_nombre rest student_id
  end.

(** The dict {ID_Estudiante -> Nombre}: rows with an empty id are skipped
    and a later row overwrites an earlier one. *)
Definition load_estudiantes_map (rows : list Estudiante) : gmap pystr pystr :=
  foldl (fun out row =>
           if truthy (est_id row)
           then <[est_id row := or_empty (est_nombre row)]> out
           else out)
        ∅ rows.

(** [if nombre_canon: rr["Nombre"] = nombre_canon] *)
Definition enrich (nombre_canon : option pystr) (rr : Dict) : Dict :=
  match nombre_canon with
  | Some n => if truthy n then dict_set (py "Nombre") (JStr n) rr else rr
  | None => rr
  end.

(** The [for r in records: if ...: r["Calificacion"] = nueva_cal; break]
    loop: the rows afterwards and whether a row was hit. *)
Fixpoint actualizar_loop (student_id materia nueva_cal : pystr)
  (records : Store) : Store * bool :=
  match records with
  | [] => ([], false)
  | r :: rest =>
      if same_key student_id materia r
      then (mkRow (ID_Estudiante r) (Materia r) nueva_cal :: rest, true)
      else let (rest', updated) :=
             actualizar_loop student_id materia nueva_cal rest in
           (r :: rest', updated)
  end.

(** What a request sees besides the grade file: the roster, and what
    [nrc_resp = consultar_nrc(materia)] does for each code while the
    request is served: the value it binds, or the exception that
    [consultar_nrc] lets through. *)
Record Env := mkEnv {
  estudiantes : list Estudiante;
  nrc_resp : pystr -> Outcome JSON
}.

(** * The threaded server, [con_hilos/server.py]

    Handlers are given here as they run when nothing interleaves, the
    [with CSV_LOCK] blocks being plain sequencing; the interleaved runs
    are in [Threads]. *)
Module ConHilos.

(** What one call of [s.recv(1024)] does: hand over some bytes (none when
    the peer has closed) or raise (reset, or the 3 second timeout). *)
Inductive RecvResult :=
| Chunk (chunk : list N)
| RecvRaises (e : Exn).

(** How the catalog end of one connection behaves. *)
Record Peer := mkPeer {
  (** [socket.create_connection] raises (refused, connect timeout). *)
  connect_raises : option Exn;
  (** [s.sendall] raises. *)
  sendall_raises : option Exn;
  (** The result of the k-th call of [s.recv]. *)
  recv : nat -> RecvResult
}.

(** [data.split(b"\n", 1)[0]] *)
Fixpoint first_line (data : list N) : list N :=
  match data with
  | [] => []
  | b :: r => if b =? NEWLINE then [] else b :: first_line r
  end.

Section NrcClient.
Context `{PyRuntime}.

(** The [while True] loop; [None] when it is still reading after [fuel]
    calls of [recv]. [k] counts the calls made so far. *)
Fixpoint recv_loop (fuel : nat) (recv : nat -> RecvResult) (k : nat)
  (data : list N) : option (Outcome (list N)) :=
  match fuel with
  | O => None
  | S fuel' =>
      match recv k with
      | RecvRaises e => Some (Raise e)
      | Chunk [] => Some (Return data)
      | Chunk chunk =>
          let data := data ++ chunk in
          if existsb (N.eqb NEWLINE) chunk then Some (Return data)
          else recv_loop fuel' recv (S k) data
      end
  end.

(** The body of the [try]: connect, send the request line, read. *)
Definition exchange (fuel : nat) (p : Peer) : option (Outcome (list N)) :=
  match connect_raises p with
  | Some e => Some (Raise e)
  | None =>
      match sendall_raises p with
      | Some e => Some (Raise e)
      | None => recv_loop fuel (recv p) 0 []
      end
  end.

Definition consultar_nrc (fuel : nat) (p : Peer) : option (Outcome JSON) :=
  match exchange fuel p with
  | None => None
  | Some (Raise e) =>
      Some (Return (resp_error (py "NRC service error: " ++ exn_str e)))
  | Some (Return []) =>
      Some (Return (resp_error (py "NRC service sin respuesta")))
  | Some (Return data) =>
      let line := decode_utf8 (first_line data) in
      match json_loads line with
      | Loaded value => Some (Return value)
      | DecodeError =>
          Some (Return (resp_error (py "NRC JSON inválido: " ++ line)))
      | LoadsRaises e => Some (Raise e)
      end
  end.
End NrcClient.

Section Handlers.
Context `{PyRuntime}.
Variable env : Env.

Definition handle_agregar (parts : list pystr) (records : Store)
  : Outcome JSON * Store :=
  match parts with
  | [_; student_id; nombre; materia; calificacion] =>
      match nrc_resp env materia with
      | Raise e => (Raise e, records)
      | Return (JObj resp) =>
          if get_is (dict_get (py "status") resp) (py "error") then
            (Return (resp_error (py "Fallo validación NRC: "
                                 ++ fstr (dict_get (py "message") resp))),
             records)
          else if get_is (dict_get (py "status") resp) (py "not_found") then
            (Return (resp_error (py "NRC no encontrado: " ++ materia)), records)
          else
            match get_estudiante_nombre (estudiantes env) student_id with
            | None =>
                (Return (resp_error
                           (py "ID_Estudiante no encontrado en estudiantes.csv")),
                 records)
            | Some nombre_canonico =>
                with_records records (fun records =>
                  if existsb (same_key student_id materia) records then
                    (Return (resp_error
                               (py "La nota para ese ID y Materia ya existe")),
                     records)
                  else
                    let new_row := mkRow student_id materia calificacion in
                    let resp_data :=
                      dict_set (py "Nombre") (JStr nombre_canonico)
                               (row_dict new_row) in
                    (Return (resp_ok (JObj resp_data)), records ++ [new_row]))
            end
      | Return other => (Raise (no_attribute_get other), records)
      end
  | _ => (Return (resp_error (py "Formato inválido para AGREGAR")), records)
  end.

Definition handle_buscar (parts : list pystr) (records : Store)
  : Outcome JSON * Store :=
  match parts with
  | [_; student_id] =>
      with_records records (fun records =>
        let rows := map row_dict (List.filter (has_id student_id) records) in
        match rows with
        | [] => (Return (resp_not_found (py "No existe el ID")), records)
        | _ =>
            let est_map := load_estudiantes_map (estudiantes env) in
            let nombre_canon := est_map !! student_id in
            (Return (resp_ok (JArr (map (fun rr =>
                                           JObj (enrich nombre_canon rr))
                                        rows))),
             records)
        end)
  | _ => (Return (resp_error (py "Formato inválido para BUSCAR")), records)
  end.

Definition handle_actualizar (parts : list pystr) (records : Store)
  : Outcome JSON * Store :=
  match parts with
  | [_; student_id; materia; nueva_cal] =>
      with_records records (fun records =>
        let (records', updated) :=
          actualizar_loop student_id materia nueva_cal records in
        if negb updated then
          (Return (resp_not_found (py "No existe nota para ese ID y Materia")),
           records)
        else
          (Return (resp_ok (JObj [(py "ID_Estudiante", JStr student_id);
                                  (py "Materia", JStr materia);
                                  (py "Calificacion", JStr nueva_cal)])),
           records'))
  | [_; student_id; nueva_cal] =>
      with_records records (fun records =>
        match List.filter (has_id student_id) records with
        | [] => (Return (resp_not_found (py "No existe el ID")), records)
        | [nota] =>
            let materia := Materia nota in
            let (records', _) :=
              actualizar_loop student_id materia nueva_cal records in
            (Return (resp_ok (JObj [(py "ID_Estudiante", JStr student_id);
                                    (py "Materia", JStr materia);
                                    (py "Calificacion", JStr nueva_cal)])),
             records')
        | _ :: _ :: _ =>
            (Return (resp_error
               (py "El ID tiene varias notas; use ACTUALIZAR|ID|Materia|nueva")),
             records)
        end)
  | _ =>
      (Return (resp_error
         (py "Formato inválido para ACTUALIZAR (use ID|nueva o ID|Materia|nueva)")),
       records)
  end.

Definition handle_listar (parts : list pystr) (records : Store)
  : Outcome JSON * Store :=
  match parts with
  | [_] =>
      with_records records (fun records =>
        let est_map := load_estudiantes_map (estudiantes env) in
        let enriched :=
          map (fun r => JObj (enrich (est_map !! ID_Estudiante r)
                                     (row_dict r)))
              records in
        (Return (resp_ok (JArr enriched)), records))
  | _ => (Return (resp_error (py "Formato inválido para LISTAR")), records)
  end.

(** The body of [handle_eliminar] once [student_id] and [materia]
    ([None] in the one-argument form) are bound. *)
Definition eliminar (student_id : pystr) (materia : option pystr)
  (records : Store) : Outcome JSON * Store :=
  with_records records (fun records =>
    match materia with
    | Some ((_ :: _) as materia) =>
        let new_records :=
          List.filter (fun r => negb (same_key student_id materia r))
                      records in
        if (length new_records =? length records)%nat then
          (Return (resp_not_found
                     (py "No existe nota para ese ID y Materia")),
           records)
        else
          (Return (resp_ok (JObj [(py "ID_Estudiante", JStr student_id);
                                  (py "Materia", JStr materia)])),
           new_records)
    | _ =>
        match List.filter (has_id student_id) records with
        | [] => (Return (resp_not_found (py "No existe el ID")), records)
        | [nota] =>
            let unica_materia := Materia nota in
            let new_records :=
              List.filter
                (fun r => negb (same_key student_id unica_materia r))
                records in
            (Return (resp_ok (JObj [(py "ID_Estudiante", JStr student_id);
                                    (py "Materia", JStr unica_materia)])),
             new_records)
        | _ :: _ :: _ =>
            (Return (resp_error
               (py "El ID tiene varias notas; especifique Materia (ELIMINAR|ID|Materia)")),
             records)
        end
    end).

Definition handle_eliminar (parts : list pystr) (records : Store)
  : Outcome JSON * Store :=
  match parts with
  | [_; student_id] => eliminar student_id None records
  | [_; student_id; materia] => eliminar student_id (Some materia) records
  | _ =>
      (Return (resp_error
         (py "Formato inválido para ELIMINAR (use ID o ID|Materia)")),
       records)
  end.

Definition process_command (line : pystr) (records : Store)
  : Outcome JSON * Store :=
  let line := strip line in
  let parts := if truthy line then split PIPE line else [] in
  match parts with
  | [] => (Return (resp_error (py "Comando vacío")), records)
  | p0 :: _ =>
      let cmd := upper p0 in
      if str_eqb cmd (py "AGREGAR") then handle_agregar parts records
      else if str_eqb cmd (py "BUSCAR") then handle_buscar parts records
      else if str_eqb cmd (py "ACTUALIZAR") then handle_actualizar parts records
      else if str_eqb cmd (py "LISTAR") then handle_listar parts records
      else if str_eqb cmd (py "ELIMINAR") then handle_eliminar parts records
      else (Return (resp_error (py "Comando desconocido: " ++ cmd)), records)
  end.

(** The [try ... except Exception as e] around the dispatch in
    [handle_client]: the response written to the peer. *)
Definition respond (line : pystr) (records : Store) : JSON * Store :=
  let (o, records') := process_command line records in
  (reply o, records').
End Handlers.
End ConHilos.

(** * The sequential server, [sin_hilos/server.py] *)
Module SinHilos.
Section Handlers.
Context `{PyRuntime}.
Variable env : Env.

Definition handle_agregar (parts : list pystr) (records : Store)
  : Outcome JSON * Store :=
  match parts with
  | [_; student_id; materia; calificacion] =>
      if negb (truthy student_id) then
        (Return (resp_error (py "ID_Estudiante vacío")), records)
      else
        match get_estudiante_nombre (estudiantes env) student_id with
        | None =>
            (Return (resp_error
                       (py "ID_Estudiante no encontrado en estudiantes.csv")),
             records)
        | Some nombre_canonico =>
            with_records records (fun records =>
              if existsb (same_key student_id materia) records then
                (Return (resp_error
                           (py "La nota para ese ID y Materia ya existe")),
                 records)
              else
                let new_row := mkRow student_id materia calificacion in
                let resp_data :=
                  dict_set (py "Nombre") (JStr nombre_canonico)
                           (row_dict new_row) in
                (Return (resp_ok (JObj resp_data)), records ++ [new_row]))
        end
  | _ =>
      (Return (resp_error
         (py "Formato inválido para AGREGAR. Usa: AGREGAR|ID|Materia|Calificacion")),
       records)
  end.

Definition handle_buscar (parts : list pystr) (records : Store)
  : Outcome JSON * Store :=
  match parts with
  | [_; student_id] =>
      with_records records (fun records =>
        match List.filter (has_id student_id) records with
        | [] => (Return (resp_not_found (py "No existe el ID")), records)
        | rows =>
            let est_map := load_estudiantes_map (estudiantes env) in
            let nombre_canon := est_map !! student_id in
            let enriched :=
              map (fun r => JObj (enrich nombre_canon (row_dict r))) rows in
            (Return (resp_ok (JArr enriched)), records)
        end)
  | _ => (Return (resp_error (py "Formato inválido para BUSCAR")), records)
  end.

Definition handle_actualizar (parts : list pystr) (records : Store)
  : Outcome JSON * Store :=
  match parts with
  | [_; student_id; materia; nueva_cal] =>
      with_records records (fun records =>
        let (records', updated) :=
          actualizar_loop student_id materia nueva_cal records in
        if negb updated then
          (Return (resp_not_found (py "No existe nota para ese ID y Materia")),
           records)
        else
          (Return (resp_ok (JObj [(py "ID_Estudiante", JStr student_id);
                                  (py "Materia", JStr materia);
                                  (py "Calificacion", JStr nueva_cal)])),
           records'))
  | [_; student_id; nueva_cal] =>
      with_records records (fun records =>
        match List.filter (has_id student_id) records with
        | [] => (Return (resp_not_found (py "No existe el ID")), records)
        | [nota] =>
            let materia := Materia nota in
            let (records', _) :=
              actualizar_loop student_id materia nueva_cal records in
            (Return (resp_ok (JObj [(py "ID_Estudiante", JStr student_id);
                                    (py "Materia", JStr materia);
                                    (py "Calificacion", JStr nueva_cal)])),
             records')
        | _ :: _ :: _ =>
            (Return (resp_error
               (py "El ID tiene varias notas; use ACTUALIZAR|ID|Materia|nueva")),
             records)
        end)
  | _ =>
      (Return (resp_error
         (py "Formato inválido para ACTUALIZAR (use ID|nueva o ID|Materia|nueva)")),
       records)
  end.

Definition handle_listar (parts : list pystr) (records : Store)
  : Outcome JSON * Store :=
  match parts with
  | [_] =>
      with_records records (fun records =>
        let est_map := load_estudiantes_map (estudiantes env) in
        let enriched :=
          map (fun r => JObj (enrich (est_map !! ID_Estudiante r)
                                     (row_dict r)))
              records in
        (Return (resp_ok (JArr enriched)), records))
  | _ => (Return (resp_error (py "Formato inválido para LISTAR")), records)
  end.

Definition eliminar (student_id : pystr) (materia : option pystr)
  (records : Store) : Outcome JSON * Store :=
  with_records records (fun records =>
    match materia with
    | Some ((_ :: _) as materia) =>
        let new_records :=
          List.filter (fun r => negb (same_key student_id materia r))
                      records in
        if (length new_records =? length records)%nat then
          (Return (resp_not_found
                     (py "No existe nota para ese ID y Materia")),
           records)
        else
          (Return (resp_ok (JObj [(py "ID_Estudiante", JStr student_id);
                                  (py "Materia", JStr materia)])),
           new_records)
    | _ =>
        match List.filter (has_id student_id) records with
        | [] => (Return (resp_not_found (py "No existe el ID")), records)
        | [nota] =>
            let unica_materia := Materia nota in
            let new_records :=
              List.filter
                (fun r => negb (same_key student_id unica_materia r))
                records in
            (Return (resp_ok (JObj [(py "ID_Estudiante", JStr student_id);
                                    (py "Materia", JStr unica_materia)])),
             new_records)
        | _ :: _ :: _ =>
            (Return (resp_error
               (py "El ID tiene varias notas; especifique Materia (ELIMINAR|ID|Materia)")),
             records)
        end
    end).

Definition handle_eliminar (parts : list pystr) (records : Store)
  : Outcome JSON * Store :=
  match parts with
  | [_; student_id] => eliminar student_id None records
  | [_; student_id; materia] => eliminar student_id (Some materia) records
  | _ =>
      (Return (resp_error
         (py "Formato inválido para ELIMINAR (use ID o ID|Materia)")),
       records)
  end.

Definition process_command (line : pystr) (records : Store)
  : Outcome JSON * Store :=
  let line := strip line in
  let parts := if truthy line then split PIPE line else [] in
  match parts with
  | [] => (Return (resp_error (py "Comando vacío")), records)
  | p0 :: _ =>
      let cmd := upper p0 in
      if str_eqb cmd (py "AGREGAR") then handle_agregar parts records
      else if str_eqb cmd (py "BUSCAR") then handle_buscar parts records
      else if str_eqb cmd (py "ACTUALIZAR") then handle_actualizar parts records
      else if str_eqb cmd (py "LISTAR") then handle_listar parts records
      else if str_eqb cmd (py "ELIMINAR") then handle_eliminar parts records
      else (Return (resp_error (py "Comando desconocido: " ++ cmd)), records)
  end.

(** The [try ... except Exception as e] of the accept loop. *)
Definition respond (line : pystr) (records : Store) : JSON * Store :=
  let (o, records') := process_command line records in
  (reply o, records').
End Handlers.
End SinHilos.

(** * The catalog microservice, [nrcs_server.py] *)
Module NrcsServer.

(** One row of [nrcs.csv]. *)
Record NrcRow := mkNrcRow {
  NRC : pystr;
  nrc_materia : option pystr
}.

Definition nrc_dict (row : NrcRow) : Dict :=
  [(py "NRC", JStr (NRC row));
   (py "Materia", match nrc_materia row with
                  | Some m => JStr m
                  | None => JNull
                  end)].

Definition load_nrc_map (rows : list NrcRow) : gmap pystr Dict :=
  foldl (fun out row =>
           if truthy (NRC row) then <[NRC row := nrc_dict row]> out else out)
        ∅ rows.

Section Process.
Context `{PyRuntime}.
Variable nrcs : list NrcRow.

Definition process (line : pystr) : JSON :=
  let line := strip line in
  let parts := if truthy line then split PIPE line else [] in
  match parts with
  | [] => resp_error (py "Comando vacío")
  | p0 :: _ =>
      let cmd := upper p0 in
      if negb (str_eqb cmd (py "BUSCAR_NRC"))
         || negb (length parts =? 2)%nat
      then resp_error (py "Formato: BUSCAR_NRC|{nrc}")
      else
        match parts with
        | [_; nrc] =>
            match load_nrc_map nrcs !! nrc with
            | Some ((_ :: _) as data) => resp_ok (JObj data)
            | _ => JObj [(py "status", JStr (py "not_found"))]
            end
        | _ => resp_error (py "Formato: BUSCAR_NRC|{nrc}")
        end
  end.
End Process.
End NrcsServer.

(** * Definitions used by the statements *)

(** Splits the read of the grade file and the [match]es and [if]s of a
    handler body. *)
Ltac handler_cases :=
  unfold with_records, load_records;
  repeat first
    [ match goal with
      | |- context [readable ?file] =>
          let E := fresh "Eread" in
          destruct (readable file) eqn:E; cbv beta iota
      end
    | match goal with
      | |- context [match ?x with _ => _ end] =>
          let E := fresh "E" in destruct x eqn:E
      end ].

(** Splits on whether the grade file can be read. *)
Ltac open_records :=
  unfold with_records, load_records;
  match goal with
  | |- context [readable ?file] =>
      let E := fresh "Eread" in destruct (readable file) eqn:E; cbv beta iota
  end.

(** The catalog answer lets the insert go on: it is a dict whose status is
    neither ["error"] nor ["not_found"]. *)
Definition nrc_passes (answer : JSON) : bool :=
  match answer with
  | JObj resp =>
      negb (get_is (dict_get (py "status") resp) (py "error"))
      && negb (get_is (dict_get (py "status") resp) (py "not_found"))
  | _ => false
  end.

(** The same of what [consultar_nrc] did: it returned an answer that
    lets the insert go on. *)
Definition lookup_passes (lookup : Outcome JSON) : bool :=
  match lookup with
  | Return answer => nrc_passes answer
  | Raise _ => false
  end.

(** The status of the answer [consultar_nrc] returned, when it returned
    one. *)
Definition lookup_status (lookup : Outcome JSON) : option pystr :=
  match lookup with
  | Return answer => status_of answer
  | Raise _ => None
  end.

Definition msg_duplicate : pystr := py "La nota para ese ID y Materia ya existe".


Definition msg_read_failed : pystr :=
  py "Excepción: field larger than field limit (131072)".

(** * A runtime for closed examples

    Enough of Python for ASCII lines: code points outside ASCII are their
    own upper case, bytes decode one to one, and the JSON decoder knows the
    line the catalog service answers a lookup of an unknown code with and
    rejects everything else. *)
Definition QUOTE : N := 34.

(** The line [json.dumps] writes for the dict with the one key status and
    the value not_found. *)
Definition not_found_line : pystr :=
  py "{" ++ [QUOTE] ++ py "status" ++ [QUOTE] ++ py ": "
  ++ [QUOTE] ++ py "not_found" ++ [QUOTE] ++ py "}".

Definition example_runtime : PyRuntime := {|
  unicode_upper c := [c];
  json_loads line :=
    if str_eqb line not_found_line
    then Loaded (JObj [(py "status", JStr (py "not_found"))])
    else DecodeError;
  decode_utf8 bytes := bytes;
  str_other _ := py "?"
|}.

Definition msg_nrc_not_found (materia : pystr) : pystr :=
  py "NRC no encontrado: " ++ materia.

(** An environment for closed examples: student 1 is Ana, and the catalog
    knows MAT101 and nothing else. *)
Definition example_env : Env := {|
  estudiantes := [mkEstudiante (py "1") (Some (py "Ana"))];
  nrc_resp code :=
    if str_eqb code (py "MAT101")
    then Return (resp_ok (JObj [(py "NRC", JStr (py "MAT101"));
                                (py "Materia", JStr (py "Matemáticas I"))]))
    else Return (JObj [(py "status", JStr (py "not_found"))])
|}.

(** The fields the dispatcher works on: [line.strip().split("|")], or no
    field at all for an empty line. *)
Definition parts_of (line : pystr) : list pystr :=
  let line := strip line in
  if truthy line then split PIPE line else [].

Definition con_msg_agregar : pystr := py "Formato inválido para AGREGAR".
Definition sin_msg_agregar : pystr :=
  py "Formato inválido para AGREGAR. Usa: AGREGAR|ID|Materia|Calificacion".

(** The data of a successful insert: the stored record and the name. *)
Definition inserted (row : Row) (nombre : pystr) : JSON :=
  resp_ok (JObj [(py "ID_Estudiante", JStr (ID_Estudiante row));
                 (py "Materia", JStr (Materia row));
                 (py "Calificacion", JStr (Calificacion row));
                 (py "Nombre", JStr nombre)]).

(** The numbers of argument fields each command of the threaded server is
    documented to take ([AGREGAR|id|nombre|materia|calificacion], ...);
    [None] for a name that is not a command. *)
Definition con_arg_counts (cmd : pystr) : option (list nat) :=
  if str_eqb cmd (py "AGREGAR") then Some [4%nat]
  else if str_eqb cmd (py "BUSCAR") then Some [1%nat]
  else if str_eqb cmd (py "ACTUALIZAR") then Some [2%nat; 3%nat]
  else if str_eqb cmd (py "LISTAR") then Some [0%nat]
  else if str_eqb cmd (py "ELIMINAR") then Some [1%nat; 2%nat]
  else None.

(** The same for the sequential server ([AGREGAR|id|materia|calificacion]). *)
Definition sin_arg_counts (cmd : pystr) : option (list nat) :=
  if str_eqb cmd (py "AGREGAR") then Some [3%nat]
  else if str_eqb cmd (py "BUSCAR") then Some [1%nat]
  else if str_eqb cmd (py "ACTUALIZAR") then Some [2%nat; 3%nat]
  else if str_eqb cmd (py "LISTAR") then Some [0%nat]
  else if str_eqb cmd (py "ELIMINAR") then Some [1%nat; 2%nat]
  else None.

(** A malformed request: an empty line, an unknown command name, or a
    known command with a number of argument fields it does not take. *)
Definition malformed `{PyRuntime} (arg_counts : pystr -> option (list nat))
  (line : pystr) : bool :=
  match parts_of line with
  | [] => true
  | p0 :: args =>
      match arg_counts (upper p0) with
      | None => true
      | Some counts => negb (existsb (Nat.eqb (length args)) counts)
      end
  end.

(** [v] spells [name] up to the case of its ASCII letters. *)
Definition same_letter (c d : N) : bool :=
  (c =? d) || ((65 <=? d) && (d <=? 90) && (c =? d + 32)).

Fixpoint case_variant (v name : pystr) : bool :=
  match v, name with
  | [], [] => true
  | c :: v', d :: name' => same_letter c d && case_variant v' name'
  | _, _ => false
  end.

Definition command_names : list pystr :=
  [py "AGREGAR"; py "BUSCAR"; py "ACTUALIZAR"; py "LISTAR"; py "ELIMINAR"].

(** The rest of a request line after the command name: nothing, or a
    separator and the argument fields. *)
Definition argument_tail (rest : pystr) : bool :=
  match rest with
  | [] => true
  | c :: _ => c =? PIPE
  end.

(** The argument fields that follow the command name. *)
Definition tail_fields (rest : pystr) : list pystr :=
  match rest with
  | [] => []
  | _ :: r => split PIPE (rstrip r)
  end.


(** The records stored for a student. *)
Definition notas_de (student_id : pystr) (records : Store) : list Row :=
  List.filter (has_id student_id) records.


(** The roster without the rows of a student. *)
Definition sin_estudiante (student_id : pystr) (env : Env) : Env :=
  mkEnv (List.filter (fun row => negb (str_eqb (est_id row) student_id))
                     (estudiantes env))
        (nrc_resp env).

(** Every roster row of the student has an empty (or missing) Nombre. With
    unique roster ids this says that the student's row has one. *)
Definition nombre_vacio (student_id : pystr) (rows : list Estudiante) : Prop :=
  forall row, In row rows -> est_id row = student_id ->
              or_empty (est_nombre row) = [].

Definition msg_sin_estudiante : pystr :=
  py "ID_Estudiante no encontrado en estudiantes.csv".

(** The step of the loop of [load_estudiantes_map]. *)
Definition roster_step (out : gmap pystr pystr) (row : Estudiante)
  : gmap pystr pystr :=
  if truthy (est_id row)
  then <[est_id row := or_empty (est_nombre row)]> out
  else out.



(** A peer that accepts the connection and then sends the byte [x] on
    every [recv], never a line break, never closing. *)
Definition drip_peer : ConHilos.Peer :=
  ConHilos.mkPeer None None (fun _ => ConHilos.Chunk (py "x")).

(** A peer that answers with one line and closes. *)
Definition one_line_peer (line : list N) : ConHilos.Peer :=
  ConHilos.mkPeer None None
    (fun k => match k with
              | O => ConHilos.Chunk (line ++ [NEWLINE])
              | _ => ConHilos.Chunk []
              end).







(** * Two threads of the threaded server, each serving one AGREGAR

    [handle_client] runs in its own thread; the threads share
    [calificaciones.csv] and [CSV_LOCK]. A thread moves in steps, each
    step touching the shared state at most once, and any thread that can
    move may be the next to move. *)
Module Threads.

(** The local variables of [handle_agregar] once the fields are unpacked
    and the roster has been read. *)
Record Locals := mkLocals {
  student_id : pystr;
  materia : pystr;
  calificacion : pystr;
  nombre_canonico : pystr
}.

Definition new_row (l : Locals) : Row :=
  mkRow (student_id l) (materia l) (calificacion l).

(** Where a thread stands in [handle_agregar]. *)
Inductive Pc :=
| AtStart
    (** entering the handler: fields and catalog not checked yet *)
| AtRoster (sid mat cal : pystr)
    (** the catalog let the code through; the roster is read next *)
| AtLock (l : Locals)
    (** at [with CSV_LOCK], waiting to acquire *)
| InLoad (l : Locals)
    (** holds the lock; [load_records] is next *)
| InCheck (l : Locals) (records : Store)
    (** holds the lock and its own copy of the rows; [any(...)] is next *)
| InSave (l : Locals) (records : Store)
    (** holds the lock, the new row appended to its copy; [save_records]
        is next *)
| InExit (out : Outcome JSON)
    (** holds the lock, result computed or exception raised; leaving the
        [with] block *)
| Done (out : Outcome JSON).
    (** returned; the lock is released *)

(** One request: the line's fields and what the thread sees of the roster
    and the catalog while it runs. *)
Record Request := mkRequest {
  req_env : Env;
  req_parts : list pystr
}.

(** The shared state and the two threads, named [true] and [false]. *)
Record Config := mkConfig {
  csv : Store;
  lock : option bool;
  pc : bool -> Pc
}.

Definition set_pc (i : bool) (p : Pc) (pcs : bool -> Pc) : bool -> Pc :=
  fun j => if Bool.eqb i j then p else pcs j.

Section Steps.
Context `{PyRuntime}.

(** One step of thread [me]: its next position, the rows on disk and the
    holder of the lock afterwards; [None] when the thread cannot move (it
    has returned, or it waits for a lock that is held). *)
Definition step_thread (req : Request) (me : bool) (p : Pc) (rows : Store)
  (holder : option bool) : option (Pc * Store * option bool) :=
  match p with
  | AtStart =>
      match req_parts req with
      | [_; sid; nombre; mat; cal] =>
          match nrc_resp (req_env req) mat with
          | Raise e => Some (Done (Raise e), rows, holder)
          | Return (JObj resp) =>
              if get_is (dict_get (py "status") resp) (py "error") then
                Some (Done (Return (resp_error
                                      (py "Fallo validación NRC: "
                                       ++ fstr (dict_get (py "message") resp)))),
                      rows, holder)
              else if get_is (dict_get (py "status") resp) (py "not_found") then
                Some (Done (Return (resp_error (py "NRC no encontrado: " ++ mat))),
                      rows, holder)
              else Some (AtRoster sid mat cal, rows, holder)
          | Return other =>
              Some (Done (Raise (no_attribute_get other)), rows, holder)
          end
      | _ =>
          Some (Done (Return (resp_error (py "Formato inválido para AGREGAR"))),
                rows, holder)
      end
  | AtRoster sid mat cal =>
      match get_estudiante_nombre (estudiantes (req_env req)) sid with
      | None =>
          Some (Done (Return
                        (resp_error
                           (py "ID_Estudiante no encontrado en estudiantes.csv"))),
                rows, holder)
      | Some nombre => Some (AtLock (mkLocals sid mat cal nombre), rows, holder)
      end
  | AtLock l =>
      match holder with
      | None => Some (InLoad l, rows, Some me)
      | Some _ => None
      end
  | InLoad l =>
      match load_records rows with
      | Return records => Some (InCheck l records, rows, holder)
      | Raise e => Some (InExit (Raise e), rows, holder)
      end
  | InCheck l records =>
      if existsb (same_key (student_id l) (materia l)) records then
        Some (InExit (Return (resp_error
                                (py "La nota para ese ID y Materia ya existe"))),
              rows, holder)
      else Some (InSave l (records ++ [new_row l]), rows, holder)
  | InSave l records =>
      let resp_data :=
        dict_set (py "Nombre") (JStr (nombre_canonico l))
                 (row_dict (new_row l)) in
      Some (InExit (Return (resp_ok (JObj resp_data))), records, holder)
  | InExit out => Some (Done out, rows, None)
  | Done _ => None
  end.

Variable reqs : bool -> Request.

(** Thread [i] makes its next step. *)
Definition step (i : bool) (c : Config) : option Config :=
  match step_thread (reqs i) i (pc c i) (csv c) (lock c) with
  | Some (p, rows, holder) => Some (mkConfig rows holder (set_pc i p (pc c)))
  | None => None
  end.

(** The configurations an interleaving of steps leads to. *)
Inductive reach : Config -> Config -> Prop :=
| reach_refl c : reach c c
| reach_step c i c1 c2 : step i c = Some c1 -> reach c1 c2 -> reach c c2.

(** The run a schedule gives; a thread whose turn comes while it cannot
    move is skipped. *)
Fixpoint run (schedule : list bool) (c : Config) : Config :=
  match schedule with
  | [] => c
  | i :: rest =>
      match step i c with
      | Some c1 => run rest c1
      | None => run rest c
      end
  end.
End Steps.

Definition init (rows : Store) : Config := mkConfig rows None (fun _ => AtStart).

(** Steps a thread still has ahead of it, at most. *)
Definition rank (p : Pc) : nat :=
  match p with
  | AtStart => 7
  | AtRoster _ _ _ => 6
  | AtLock _ => 5
  | InLoad _ => 4
  | InCheck _ _ => 3
  | InSave _ _ => 2
  | InExit _ => 1
  | Done _ => 0
  end.

Definition steps_left (c : Config) : nat := rank (pc c true) + rank (pc c false).

(** The thread is inside the [with CSV_LOCK] block. *)
Definition holds (p : Pc) : bool :=
  match p with
  | InLoad _ | InCheck _ _ | InSave _ _ | InExit _ => true
  | _ => false
  end.
End Threads.

(** ** What holds while two inserts of the same pair race *)

(** The answer of the thread that stores its row. *)
Definition won (l : Threads.Locals) : Outcome JSON :=
  Return (inserted (Threads.new_row l) (Threads.nombre_canonico l)).

(** The answer of the thread that finds the pair stored. *)
Definition lost_out : Outcome JSON := Return (resp_error msg_duplicate).

(** The local state of a thread agrees with its request and with the rows
    on disk. *)
Definition wf_pc (l : Threads.Locals) (rows : Store) (p : Threads.Pc) : Prop :=
  match p with
  | Threads.AtStart => True
  | Threads.AtRoster s m c =>
      s = Threads.student_id l /\ m = Threads.materia l
      /\ c = Threads.calificacion l
  | Threads.AtLock l' | Threads.InLoad l' => l' = l
  | Threads.InCheck l' records => l' = l /\ records = rows
  | Threads.InSave l' records =>
      l' = l /\ records = rows ++ [Threads.new_row l]
  | Threads.InExit _ | Threads.Done _ => True
  end.

Definition before_exit (p : Threads.Pc) : Prop :=
  match p with
  | Threads.InExit _ | Threads.Done _ => False
  | _ => True
  end.

Definition is_winner (l : Threads.Locals) (p : Threads.Pc) : Prop :=
  p = Threads.InExit (won l) \/ p = Threads.Done (won l).

Definition is_loser (p : Threads.Pc) : Prop :=
  match p with
  | Threads.InSave _ _ => False
  | Threads.InExit out | Threads.Done out => out = lost_out
  | _ => True
  end.

(** The invariant of the race: local states are consistent, the lock is
    held exactly by the thread inside the [with] block, and either nobody
    has got past the check and the file is as at the start, or one thread
    has stored its row and the other cannot store any more. *)
Definition race_inv (ls : bool -> Threads.Locals) (csv0 : Store)
  (c : Threads.Config) : Prop :=
  (forall i, wf_pc (ls i) (Threads.csv c) (Threads.pc c i))
  /\ (forall i, Threads.lock c = Some i <-> Threads.holds (Threads.pc c i) = true)
  /\ ((Threads.csv c = csv0 /\ forall i, before_exit (Threads.pc c i))
      \/ exists w, Threads.csv c = csv0 ++ [Threads.new_row (ls w)]
                   /\ is_winner (ls w) (Threads.pc c w)
                   /\ is_loser (Threads.pc c (negb w))).

(** The local variables of thread [i] in a race for the pair
    ([sid], [mat]). *)
Definition race_locals (sid mat : pystr) (cal nm : bool -> pystr) (i : bool)
  : Threads.Locals :=
  Threads.mkLocals sid mat (cal i) (nm i).

(** [race_inv] seen from thread [i]: [p] is its position, [q] the
    position of the other thread. *)
Definition race_inv_from (ls : bool -> Threads.Locals) (csv0 : Store)
  (i : bool) (p q : Threads.Pc) (rows : Store) (holder : option bool) : Prop :=
  wf_pc (ls i) rows p
  /\ wf_pc (ls (negb i)) rows q
  /\ (holder = Some i <-> Threads.holds p = true)
  /\ (holder = Some (negb i) <-> Threads.holds q = true)
  /\ ((rows = csv0 /\ before_exit p /\ before_exit q)
      \/ (rows = csv0 ++ [Threads.new_row (ls i)]
          /\ is_winner (ls i) p /\ is_loser q)
      \/ (rows = csv0 ++ [Threads.new_row (ls (negb i))]
          /\ is_winner (ls (negb i)) q /\ is_loser p)).

(** Two requests for the closed examples of the race: the same student
    and subject code, each with its own grade. *)
Definition race_requests (student : pystr) : bool -> Threads.Request :=
  fun i => Threads.mkRequest example_env
             [py "AGREGAR"; student; py "x"; py "MAT101";
              if i then py "9" else py "7"].


(** [consultar_nrc] returns [value] when the catalog end behaves as [p];
    this is the value a handler finds in [nrc_resp]. *)
Definition lookup_returns `{PyRuntime} (p : ConHilos.Peer) (value : JSON)
  : Prop :=
  exists fuel, ConHilos.consultar_nrc fuel p = Some (Return value).

(** * Further definitions: response shapes, the wire, the serving loops
      and the console client *)

(** A response has one of the three shapes of the wire protocol. *)
Definition well_formed_response (resp : JSON) : Prop :=
  (exists data, resp = resp_ok data)
  \/ (exists message, resp = resp_not_found message)
  \/ (exists message, resp = resp_error message).

(** What a handler may return: a response of one of the three shapes, or
    an exception; and a store that differs from the one it got only when
    the response is ok. *)
Definition handler_sound (records : Store) (out : Outcome JSON * Store) : Prop :=
  well_formed_response (reply out.1)
  /\ (status_of (reply out.1) <> Some (py "ok") -> out.2 = records).

(** The command a line names: the first field, upper-cased; none for an
    empty line. *)
Definition command_of `{PyRuntime} (line : pystr) : option pystr :=
  match parts_of line with
  | [] => None
  | p0 :: _ => Some (upper p0)
  end.

(** The Nombre a listing shows for a student: the roster's, when the
    roster map has a non-empty one. *)
Definition nombre_mostrado (env : Env) (student_id : pystr) : option JSON :=
  match load_estudiantes_map (estudiantes env) !! student_id with
  | Some ((_ :: _) as nombre) => Some (JStr nombre)
  | _ => None
  end.

(** The item shows the record: it is a dict with the three stored fields
    of the record, the Nombre of its student when there is one to show,
    and no other field. *)
Definition shows (env : Env) (r : Row) (item : JSON) : Prop :=
  exists d,
    item = JObj d
    /\ dict_get (py "ID_Estudiante") d = Some (JStr (ID_Estudiante r))
    /\ dict_get (py "Materia") d = Some (JStr (Materia r))
    /\ dict_get (py "Calificacion") d = Some (JStr (Calificacion r))
    /\ dict_get (py "Nombre") d = nombre_mostrado env (ID_Estudiante r)
    /\ length d = match nombre_mostrado env (ID_Estudiante r) with
                  | Some _ => 4%nat
                  | None => 3%nat
                  end.

Definition msg_no_id : pystr := py "No existe el ID".
Definition msg_no_nota : pystr := py "No existe nota para ese ID y Materia".

(** The data of a successful ACTUALIZAR and of a successful ELIMINAR. *)
Definition updated (student_id materia nueva_cal : pystr) : JSON :=
  resp_ok (JObj [(py "ID_Estudiante", JStr student_id);
                 (py "Materia", JStr materia);
                 (py "Calificacion", JStr nueva_cal)]).

Definition removed (student_id materia : pystr) : JSON :=
  resp_ok (JObj [(py "ID_Estudiante", JStr student_id);
                 (py "Materia", JStr materia)]).

(** The roster has a row for the student. *)
Definition en_roster (student_id : pystr) (rows : list Estudiante) : Prop :=
  exists row, In row rows /\ est_id row = student_id.

(** ** The catalog service *)

(** The step of the loop of [load_nrc_map]. *)
Definition nrc_step (out : gmap pystr Dict) (row : NrcsServer.NrcRow)
  : gmap pystr Dict :=
  if truthy (NrcsServer.NRC row)
  then <[NrcsServer.NRC row := NrcsServer.nrc_dict row]> out
  else out.

(** The row of [nrcs.csv] a code stands for: the last one with that
    code. *)
Definition catalog_row (nrcs : list NrcsServer.NrcRow) (code : pystr)
  : option NrcsServer.NrcRow :=
  List.find (fun row => str_eqb (NrcsServer.NRC row) code) (rev nrcs).

(** The answer of the catalog service for a code it does not know: a
    status and nothing else. *)
Definition nrc_not_found : JSON := JObj [(py "status", JStr (py "not_found"))].

Definition msg_nrc_formato : pystr := py "Formato: BUSCAR_NRC|{nrc}".

(** The line [consultar_nrc] sends for a code, as [recv_line] of the
    catalog service hands it to [process]: the f-string without its line
    break. *)
Definition nrc_request (nrc : pystr) : pystr := py "BUSCAR_NRC|" ++ nrc.

(** No separator in the field: every field [split] yields is such. *)
Definition pipe_free (s : pystr) : bool :=
  forallb (fun c => negb (c =? PIPE)) s.

(** The answer of the catalog service to a well-formed lookup of a code. *)
Definition nrc_answer (nrcs : list NrcsServer.NrcRow) (code : pystr) : JSON :=
  match (if truthy code then catalog_row nrcs code else None) with
  | Some row => resp_ok (JObj (NrcsServer.nrc_dict row))
  | None => nrc_not_found
  end.

(** * Connections: reading a line, answering, the accept loops

    [recv_line] and the body that serves one accepted connection are the
    same text in the three servers: [handle_client] of the threaded
    server and the body of the [while True] loop of [serve_forever] in
    the sequential server and in the catalog service. *)

(** [json.dumps(resp, ensure_ascii=False)] and [str.encode("utf-8")] are
    Python's. *)
Class PyWire := {
  json_dumps : JSON -> pystr;
  encode_utf8 : pystr -> list N
}.

(** An accepted connection, as the server sees it: the result of the
    k-th call of [conn.recv], and the exception [conn.sendall] raises, if
    it raises. *)
Record Conn := mkConn {
  conn_recv : nat -> ConHilos.RecvResult;
  conn_sendall_raises : option Exn
}.

(** What serving one connection leaves behind: the bytes handed to
    [sendall] (none when the server returns without answering), the
    exception of [sendall] that is logged, and the state (the grade file,
    for the grade servers). *)
Record Served (S : Type) := mkServed {
  sent : option (list N);
  send_error : option Exn;
  state_after : S
}.
Arguments mkServed {S} sent send_error state_after.
Arguments sent {S} s.
Arguments send_error {S} s.
Arguments state_after {S} s.

Section RecvLine.
Context `{PyRuntime}.

(** [recv_line]: [None] when the loop is still reading after [fuel]
    calls of [recv]; the [Optional[str]] of the source inside. *)
Definition recv_line (fuel : nat) (recv : nat -> ConHilos.RecvResult)
  : option (Outcome (option pystr)) :=
  match ConHilos.recv_loop fuel recv 0 [] with
  | None => None
  | Some (Raise e) => Some (Raise e)
  | Some (Return []) => Some (Return None)
  | Some (Return buffer) =>
      Some (Return (Some (decode_utf8 (ConHilos.first_line buffer))))
  end.
End RecvLine.

Section ServeLine.
Context `{PyRuntime} `{PyWire}.
Context {S : Type}.

(** [(payload + "\n").encode("utf-8")] with [payload = json.dumps(resp)]. *)
Definition payload (resp : JSON) : list N :=
  encode_utf8 (json_dumps resp ++ [NEWLINE]).

(** The dispatch of the server with the [except Exception] around it:
    the response for a line and the state afterwards. *)
Variable dispatch : pystr -> S -> JSON * S.

(** One accepted connection, from [recv_line] to [sendall]. *)
Definition serve_line (fuel : nat) (conn : Conn) (st : S)
  : option (Served S) :=
  match recv_line fuel (conn_recv conn) with
  | None => None
  | Some (Return None) => Some (mkServed None None st)
  | Some (Raise e) =>
      Some (mkServed (Some (payload (reply (Raise e))))
                     (conn_sendall_raises conn) st)
  | Some (Return (Some line)) =>
      let (resp, st') := dispatch line st in
      Some (mkServed (Some (payload resp)) (conn_sendall_raises conn) st')
  end.

(** The [while True] loop over the connections it accepts, one after the
    other: what each connection was served, and the state at the end;
    [None] when the loop is still inside [recv_line] of some connection
    after [fuel] calls of its [recv]. *)
Fixpoint serve_loop (fuel : nat) (conns : list Conn) (st : S)
  : option (list (Served S) * S) :=
  match conns with
  | [] => Some ([], st)
  | conn :: rest =>
      match serve_line fuel conn st with
      | None => None
      | Some served =>
          match serve_loop fuel rest (state_after served) with
          | None => None
          | Some (more, final) => Some (served :: more, final)
          end
      end
  end.
End ServeLine.

Module ConHilosLoop.
Section Loop.
Context `{PyRuntime} `{PyWire}.
Variable env : Env.

End Loop.
End ConHilosLoop.

Module SinHilosLoop.
Section Loop.
Context `{PyRuntime} `{PyWire}.
Variable env : Env.

(** [serve_forever] over the connections it accepts. *)
Definition serve_forever (fuel : nat) (conns : list Conn) (records : Store)
  : option (list (Served Store) * Store) :=
  serve_loop (SinHilos.respond env) fuel conns records.
End Loop.
End SinHilosLoop.

Module NrcsLoop.
Section Loop.
Context `{PyRuntime} `{PyWire}.
Variable nrcs : list NrcsServer.NrcRow.

(** [serve_forever] of the catalog service; it keeps no state. *)
Definition serve_forever (fuel : nat) (conns : list Conn)
  : option (list (Served unit) * unit) :=
  serve_loop (fun line st => (NrcsServer.process nrcs line, st))
             fuel conns tt.
End Loop.
End NrcsLoop.

(** * The console client, [sin_hilos/client.py] *)
Module Client.
Section SendCommand.
Context `{PyRuntime}.

(** [send_command]: [None] inside is the [None] the source returns on a
    failure of the exchange, an empty answer and a text that is not
    JSON; an exception of [json.loads] other than [JSONDecodeError] is
    not caught. The outer [None] is a read loop still running. The peer
    is the server end of the connection; connecting, sending and the
    read loop are those of [consultar_nrc]. *)
Definition send_command (fuel : nat) (p : ConHilos.Peer)
  : option (Outcome (option JSON)) :=
  match ConHilos.exchange fuel p with
  | None => None
  | Some (Raise e) => Some (Return None)
  | Some (Return []) => Some (Return None)
  | Some (Return data) =>
      match json_loads (decode_utf8 (ConHilos.first_line data)) with
      | Loaded value => Some (Return (Some value))
      | DecodeError => Some (Return None)
      | LoadsRaises e => Some (Raise e)
      end
  end.
End SendCommand.
End Client.

(** ** Bytes on their way *)

(** A peer that sends the given chunks, one for each [recv], and then
    closes. *)
Definition stream_of (chunks : list (list N)) : nat -> ConHilos.RecvResult :=
  fun k => ConHilos.Chunk (nth k chunks []).

(** The chunks are a way the bytes may arrive: no chunk is empty and
    together they are the bytes. *)
Definition chunking (chunks : list (list N)) (bytes : list N) : Prop :=
  concat chunks = bytes /\ Forall (fun chunk => chunk <> []) chunks.

(** The bytes [sendall] is given for a line of text. *)
Definition line_bytes `{PyWire} (s : pystr) : list N :=
  encode_utf8 (s ++ [NEWLINE]).

(** The codec carries the line: encoded with its line break, cut at the
    first line break and decoded, it is the line again. UTF-8 does so
    for every text without a line break and without lone surrogates. *)
Definition carries `{PyRuntime} `{PyWire} (s : pystr) : Prop :=
  line_bytes s <> []
  /\ decode_utf8 (ConHilos.first_line (line_bytes s)) = s.

(** The line [recv_line] of the receiving end makes of a line of text
    sent with its line break: the bytes are cut at the first line break
    among them and decoded. *)
Definition line_received `{PyRuntime} `{PyWire} (s : pystr) : pystr :=
  decode_utf8 (ConHilos.first_line (line_bytes s)).

(** The environment of a request when the catalog service is up and
    its answer comes back unchanged: [consultar_nrc] returns for a code
    what [process] of the catalog service answers to the request line
    of that code, as [recv_line] of the catalog service receives it. *)
Definition catalog_env `{PyRuntime} `{PyWire} (nrcs : list NrcsServer.NrcRow)
  (roster : list Estudiante) : Env :=
  mkEnv roster
        (fun materia =>
           Return (NrcsServer.process nrcs
                     (line_received (nrc_request materia)))).

(** What the read loop has in its buffer when it stops, for chunks that
    arrive one for each [recv]: the chunks up to the first one with a
    line break in it. *)
Fixpoint received (chunks : list (list N)) : list N :=
  match chunks with
  | [] => []
  | chunk :: rest =>
      if existsb (N.eqb NEWLINE) chunk then chunk else chunk ++ received rest
  end.

(** A connection on which the chunks arrive and answers can be sent. *)
Definition conn_of (chunks : list (list N)) : Conn :=
  mkConn (stream_of chunks) None.

(** The line [recv_line] makes of the bytes of a connection. *)
Definition line_of `{PyRuntime} (bytes : list N) : option pystr :=
  match bytes with
  | [] => None
  | _ => Some (decode_utf8 (ConHilos.first_line bytes))
  end.

(** A runtime and a wire for closed examples that know one JSON text:
    [line] is what [json.dumps] writes and [value] what [json.loads]
    reads from it; bytes and code points are one to one, as they are in
    ASCII. *)
Definition table_runtime (line : pystr) (value : JSON) : PyRuntime := {|
  unicode_upper c := [c];
  json_loads l := if str_eqb l line then Loaded value else DecodeError;
  decode_utf8 bytes := bytes;
  str_other _ := py "?"
|}.

Definition table_wire (line : pystr) : PyWire := {|
  json_dumps _ := line;
  encode_utf8 s := s
|}.

(** The state a connection leaves when the bytes [bytes] arrive on it,
    and the bytes it is answered with. *)
Definition after_bytes `{PyRuntime} {S : Type}
  (dispatch : pystr -> S -> JSON * S) (st : S) (bytes : list N) : S :=
  match line_of bytes with
  | None => st
  | Some line => (dispatch line st).2
  end.

Definition answer_to `{PyRuntime} `{PyWire} {S : Type}
  (dispatch : pystr -> S -> JSON * S) (st : S) (bytes : list N)
  : option (list N) :=
  match line_of bytes with
  | None => None
  | Some line => Some (payload (dispatch line st).1)
  end.

(** A connection whose peer sends one byte for every [recv], never a
    line break, and never closes. *)
Definition drip_conn : Conn := mkConn (ConHilos.recv drip_peer) None.

(** What a connection was answered is the payload of a response of one
    of the three shapes, or nothing. *)
Definition answered_well `{PyWire} {S : Type} (served : Served S) : Prop :=
  match sent served with
  | None => True
  | Some bytes => exists resp, well_formed_response resp /\ bytes = payload resp
  end.

(** * Any two AGREGAR requests in the threaded server *)

(** The lock is held exactly by the thread that is inside the
    [with CSV_LOCK] block. *)
Definition lock_inv (c : Threads.Config) : Prop :=
  forall i, Threads.lock c = Some i <-> Threads.holds (Threads.pc c i) = true.

(** Both threads have returned. *)
Definition finished (c : Threads.Config) : Prop :=
  forall i, exists out, Threads.pc c i = Threads.Done out.

(** The schedule that gives the threads their turns one after the
    other, [n] times. *)
Fixpoint round_robin (n : nat) : list bool :=
  match n with
  | O => []
  | S n' => true :: false :: round_robin n'
  end.

Section Serial.
Context `{PyRuntime}.

(** The handler of a request, run with nothing between its steps. *)
Definition alone (req : Threads.Request) (rows : Store)
  : Outcome JSON * Store :=
  ConHilos.handle_agregar (Threads.req_env req) (Threads.req_parts req) rows.

(** The rest of the [with] block from the check on, for the rows
    [records] the thread has loaded and the rows [rows] on disk. *)
Definition in_lock (l : Threads.Locals) (records rows : Store)
  : Outcome JSON * Store :=
  if existsb (same_key (Threads.student_id l) (Threads.materia l)) records
  then (Return (resp_error (py "La nota para ese ID y Materia ya existe")),
        rows)
  else (Return (resp_ok (JObj (dict_set (py "Nombre")
                                 (JStr (Threads.nombre_canonico l))
                                 (row_dict (Threads.new_row l))))),
        records ++ [Threads.new_row l]).

(** The [with] block from its start: the read and the rest. *)
Definition from_lock (l : Threads.Locals) (rows : Store)
  : Outcome JSON * Store :=
  with_records rows (fun records => in_lock l records records).

(** What a thread at position [p] returns, and the rows it leaves on
    disk, when it makes all its remaining steps with the rows [rows] on
    disk and nothing in between. *)
Definition finish (req : Threads.Request) (p : Threads.Pc) (rows : Store)
  : Outcome JSON * Store :=
  match p with
  | Threads.AtStart => alone req rows
  | Threads.AtRoster sid mat cal =>
      match get_estudiante_nombre (estudiantes (Threads.req_env req)) sid with
      | None =>
          (Return (resp_error
                     (py "ID_Estudiante no encontrado en estudiantes.csv")),
           rows)
      | Some nombre => from_lock (Threads.mkLocals sid mat cal nombre) rows
      end
  | Threads.AtLock l | Threads.InLoad l => from_lock l rows
  | Threads.InCheck l records => in_lock l records rows
  | Threads.InSave l records =>
      (Return (resp_ok (JObj (dict_set (py "Nombre")
                                (JStr (Threads.nombre_canonico l))
                                (row_dict (Threads.new_row l))))),
       records)
  | Threads.InExit out | Threads.Done out => (out, rows)
  end.

(** The thread has not been inside the [with] block: it is outside, and
    whatever the rows on disk, finishing from where it stands is
    serving its request from the start. *)
Definition early_at (req : Threads.Request) (p : Threads.Pc) : Prop :=
  Threads.holds p = false
  /\ forall rows, finish req p rows = alone req rows.

(** The thread has entered the [with] block when the rows on disk were
    [base]: it is inside, and finishing from where it stands gives what
    its request gives on [base]; or it has returned, with what its
    request gives on [base], the rows on disk being those it left. *)
Definition lin_at (req : Threads.Request) (base : Store) (p : Threads.Pc)
  (rows : Store) : Prop :=
  (Threads.holds p = true /\ finish req p rows = alone req base)
  \/ (exists out, p = Threads.Done out /\ alone req base = (out, rows)).

(** The thread has returned with what its request gives on [base],
    leaving the rows [after]. *)
Definition first_at (req : Threads.Request) (base : Store) (p : Threads.Pc)
  (after : Store) : Prop :=
  exists out, p = Threads.Done out /\ alone req base = (out, after).

(** The invariant of serial equivalence, seen from thread [i]: [p] is
    its position and [q] the position of the other thread. *)
Definition ser_from (reqs : bool -> Threads.Request) (rows0 : Store)
  (i : bool) (p q : Threads.Pc) (rows : Store) (holder : option bool) : Prop :=
  (holder = Some i <-> Threads.holds p = true)
  /\ (holder = Some (negb i) <-> Threads.holds q = true)
  /\ ((early_at (reqs i) p /\ early_at (reqs (negb i)) q /\ rows = rows0)
      \/ (lin_at (reqs i) rows0 p rows /\ early_at (reqs (negb i)) q)
      \/ (lin_at (reqs (negb i)) rows0 q rows /\ early_at (reqs i) p)
      \/ (exists r1, first_at (reqs i) rows0 p r1
                     /\ lin_at (reqs (negb i)) r1 q rows)
      \/ (exists r1, first_at (reqs (negb i)) rows0 q r1
                     /\ lin_at (reqs i) r1 p rows)).

(** The invariant: the lock is held by the thread inside the block, and
    the threads stand where they would stand had the requests that have
    entered the block been served one after the other, in the order in
    which they entered. *)
Definition serial_inv (reqs : bool -> Threads.Request) (rows0 : Store)
  (c : Threads.Config) : Prop :=
  ser_from reqs rows0 true (Threads.pc c true) (Threads.pc c false)
           (Threads.csv c) (Threads.lock c).

(** The outcomes and the final rows are those of serving the request of
    thread [i] first and the other request after it. *)
Definition serial_order (reqs : bool -> Threads.Request) (rows0 : Store)
  (i : bool) (outs : bool -> Outcome JSON) (final : Store) : Prop :=
  exists r1,
    alone (reqs i) rows0 = (outs i, r1)
    /\ alone (reqs (negb i)) r1 = (outs (negb i), final).
End Serial.

(** Two requests for closed examples: different students, the same
    subject code. *)
Definition two_requests : bool -> Threads.Request :=
  fun i => Threads.mkRequest
             (mkEnv [mkEstudiante (py "1") (Some (py "Ana"));
                     mkEstudiante (py "2") (Some (py "Luis"))]
                    (nrc_resp example_env))
             [py "AGREGAR"; if i then py "1" else py "2"; py "x";
              py "MAT101"; py "9"].

(** * Remaining functions of the sequential server and of its client *)

(** [find_by_id] of [sin_hilos/server.py]: the first record of the
    student among the rows [load_records] returns. *)
Definition find_by_id (student_id : pystr) (records : Store)
  : Outcome (option Row) :=
  match load_records records with
  | Return rows => Return (List.find (has_id student_id) rows)
  | Raise e => Raise e
  end.

Definition COMMA : N := 44.

(** [s.split(sep, 1)] when it has two parts: the text before the first
    separator and the text after it. *)
Fixpoint split_once (sep : N) (s : pystr) : option (pystr * pystr) :=
  match s with
  | [] => None
  | c :: r =>
      if c =? sep then Some ([], r)
      else match split_once sep r with
           | Some (a, b) => Some (c :: a, b)
           | None => None
           end
  end.

Module ClientMenu.

(** The body of the loop of the client's [load_estudiantes_map] for one
    line of [estudiantes.csv] after the header. *)
Definition mapping_step (mapping : gmap pystr pystr) (line : pystr)
  : gmap pystr pystr :=
  let line := strip line in
  if negb (truthy line) then mapping
  else
    match split_once COMMA line with
    | Some (a, b) =>
        let sid := strip a in
        let nombre := strip b in
        if truthy sid && negb (str_eqb sid (py "ID_Estudiante"))
        then <[sid := nombre]> mapping
        else mapping
    | None => mapping
    end.

(** The client's [load_estudiantes_map]; the file is given by its lines,
    [None] when it does not exist. The first line is the header. *)
Definition load_estudiantes_map (file : option (list pystr))
  : gmap pystr pystr :=
  match file with
  | Some (header :: lines) => foldl mapping_step ∅ lines
  | _ => ∅
  end.

(** What the user chose in the menu, with the texts typed at the
    prompts. *)
Inductive Choice :=
| OpAgregar (student_id materia calificacion : pystr)
| OpBuscar (student_id : pystr)
| OpActualizar (student_id materia nueva_cal : pystr)
| OpListar
| OpEliminar (student_id materia : pystr).

(** One turn of [menu] for a choice 1 to 5: the command handed to
    [send_command], or [None] when the turn ends without sending (the
    student is not in the client's map, or has an empty name there). *)
Definition menu (file : option (list pystr)) (choice : Choice)
  : option pystr :=
  match choice with
  | OpAgregar student_id materia calificacion =>
      let student_id := strip student_id in
      let est_map := load_estudiantes_map file in
      match est_map !! student_id with
      | Some (_ :: _) =>
          let materia := strip materia in
          let calificacion := strip calificacion in
          Some (py "AGREGAR|" ++ student_id ++ py "|" ++ materia ++ py "|"
                ++ calificacion)
      | _ => None
      end
  | OpBuscar student_id => Some (py "BUSCAR|" ++ strip student_id)
  | OpActualizar student_id materia nueva_cal =>
      let student_id := strip student_id in
      let materia := strip materia in
      let nueva_cal := strip nueva_cal in
      if truthy materia
      then Some (py "ACTUALIZAR|" ++ student_id ++ py "|" ++ materia
                 ++ py "|" ++ nueva_cal)
      else Some (py "ACTUALIZAR|" ++ student_id ++ py "|" ++ nueva_cal)
  | OpListar => Some (py "LISTAR")
  | OpEliminar student_id materia =>
      let student_id := strip student_id in
      let materia := strip materia in
      if truthy materia
      then Some (py "ELIMINAR|" ++ student_id ++ py "|" ++ materia)
      else Some (py "ELIMINAR|" ++ student_id)
  end.

(** The command name and the fields the turn puts on the line. *)
Definition fields_of (choice : Choice) : pystr * list pystr :=
  match choice with
  | OpAgregar student_id materia calificacion =>
      (py "AGREGAR", [strip student_id; strip materia; strip calificacion])
  | OpBuscar student_id => (py "BUSCAR", [strip student_id])
  | OpActualizar student_id materia nueva_cal =>
      (py "ACTUALIZAR",
       if truthy (strip materia)
       then [strip student_id; strip materia; strip nueva_cal]
       else [strip student_id; strip nueva_cal])
  | OpListar => (py "LISTAR", [])
  | OpEliminar student_id materia =>
      (py "ELIMINAR",
       if truthy (strip materia)
       then [strip student_id; strip materia]
       else [strip student_id])
  end.

(** The texts typed at the prompts of the turn. *)
Definition inputs (choice : Choice) : list pystr :=
  match choice with
  | OpAgregar student_id materia calificacion =>
      [student_id; materia; calificacion]
  | OpBuscar student_id => [student_id]
  | OpActualizar student_id materia nueva_cal =>
      [student_id; materia; nueva_cal]
  | OpListar => []
  | OpEliminar student_id materia => [student_id; materia]
  end.
End ClientMenu.

(** The fields of a line, joined by the separator. *)
Fixpoint join (fields : list pystr) : pystr :=
  match fields with
  | [] => []
  | [f] => f
  | f :: rest => f ++ PIPE :: join rest
  end.

(** A plain line of [estudiantes.csv]: the ID, a comma, the name and the
    line break; the ID alone when the row has no second column. *)
Definition plain_line (row : Estudiante) : pystr :=
  match est_nombre row with
  | Some nombre => est_id row ++ [COMMA] ++ nombre ++ [NEWLINE]
  | None => est_id row ++ [NEWLINE]
  end.

(** A field that can be written plainly: no comma, no quote and no line
    break in it, and no whitespace around it. *)
Definition plain_field (s : pystr) : bool :=
  forallb (fun c => negb (c =? COMMA) && negb (c =? QUOTE)
                    && negb (c =? NEWLINE) && negb (c =? 13)) s
  && str_eqb (strip s) s.

(** A row with two plain columns whose ID is not the header's. *)
Definition plain_row (row : Estudiante) : bool :=
  plain_field (est_id row)
  && negb (str_eqb (est_id row) (py "ID_Estudiante"))
  && match est_nombre row with
     | Some nombre => plain_field nombre
     | None => false
     end.

(** The name a map shows for a student: the one it holds, when that is
    non-empty. *)
Definition shown (m : gmap pystr pystr) (student_id : pystr) : option pystr :=
  match m !! student_id with
  | Some ((_ :: _) as nombre) => Some nombre
  | _ => None
  end.

(** A command name followed by its fields, each after a separator. *)
Definition line_of_fields (name : pystr) (fields : list pystr) : pystr :=
  name ++ match fields with
          | [] => []
          | _ => PIPE :: join fields
          end.

(** * What a command can do to the grade file *)

(** The ways the rows [new] can differ from the rows [old]: not at
    all; by one row added at the end whose pair was not stored; by the
    grade of one row; by the rows of one pair taken out. *)
Definition same_store (old new : Store) : Prop := new = old.

Definition one_added (old new : Store) : Prop :=
  exists row, new = old ++ [row] /\ key_of row ∉ map key_of old.

Definition one_regraded (old new : Store) : Prop :=
  exists l1 r l2 nueva_cal,
    old = l1 ++ r :: l2
    /\ new = l1 ++ mkRow (ID_Estudiante r) (Materia r) nueva_cal :: l2.

Definition pair_removed (old new : Store) : Prop :=
  exists student_id materia,
    new = List.filter (fun r => negb (same_key student_id materia r)) old
    /\ (length new < length old)%nat.


(** * Basic facts *)

Lemma str_eqb_eq (a b : pystr) : str_eqb a b = true <-> a = b.
Proof.
  revert b. induction a as [|x a IH]; intros [|y b]; simpl; try easy.
  rewrite andb_true_iff, N.eqb_eq, IH. split.
  - by intros [-> ->].
  - intros [= -> ->]. done.
Qed.

Lemma str_eqb_refl (a : pystr) : str_eqb a a = true.
Proof. by apply str_eqb_eq. Qed.

Lemma str_eqb_neq (a b : pystr) : str_eqb a b = false <-> a <> b.
Proof.
  rewrite <- str_eqb_eq. by destruct (str_eqb a b).
Qed.

Lemma same_key_true (student_id materia : pystr) (r : Row) :
  same_key student_id materia r = true <-> key_of r = (student_id, materia).
Proof.
  unfold same_key, key_of. rewrite andb_true_iff, !str_eqb_eq. split.
  - by intros [-> ->].
  - by intros [= -> ->].
Qed.

Lemma has_id_true (student_id : pystr) (r : Row) :
  has_id student_id r = true <-> ID_Estudiante r = student_id.
Proof. apply str_eqb_eq. Qed.

Lemma existsb_same_key (student_id materia : pystr) (records : Store) :
  existsb (same_key student_id materia) records = true
  <-> (student_id, materia) ∈ map key_of records.
Proof.
  rewrite existsb_exists, list_elem_of_fmap. split.
  - intros (r & Hin & Hk). exists r. apply same_key_true in Hk.
    split; [done | by apply list_elem_of_In].
  - intros (r & Hk & Hin). exists r. split; [by apply list_elem_of_In |].
    by apply same_key_true.
Qed.

Lemma existsb_same_key_false (student_id materia : pystr) (records : Store) :
  existsb (same_key student_id materia) records = false
  <-> (student_id, materia) ∉ map key_of records.
Proof.
  rewrite <- existsb_same_key.
  by destruct (existsb _ _).
Qed.

Lemma keys_actualizar_loop (student_id materia nueva_cal : pystr)
  (records : Store) :
  map key_of (actualizar_loop student_id materia nueva_cal records).1
  = map key_of records.
Proof.
  induction records as [|r rest IH]; simpl; [done |].
  destruct (same_key student_id materia r); [done |].
  destruct (actualizar_loop _ _ _ rest) as [rest' u]; simpl in *.
  by rewrite IH.
Qed.

Lemma unique_keys_filter (p : Row -> bool) (records : Store) :
  unique_keys records -> unique_keys (List.filter p records).
Proof.
  unfold unique_keys. induction records as [|r rest IH]; simpl; [done |].
  rewrite NoDup_cons. intros [Hnot Hnd].
  destruct (p r); simpl; [| by apply IH].
  apply NoDup_cons. split; [| by apply IH].
  intros Hin. apply Hnot.
  apply list_elem_of_fmap in Hin as (r' & Hk & Hr').
  apply list_elem_of_fmap. exists r'. split; [done |].
  apply list_elem_of_In in Hr'. apply filter_In in Hr' as [Hr' _].
  by apply list_elem_of_In.
Qed.

Lemma unique_keys_snoc (records : Store) (new_row : Row) :
  unique_keys records ->
  key_of new_row ∉ map key_of records ->
  unique_keys (records ++ [new_row]).
Proof.
  unfold unique_keys. intros Hnd Hnot. rewrite map_app. simpl.
  apply NoDup_app. split; [done |]. split; [| apply NoDup_singleton].
  intros k Hk Hk'. apply list_elem_of_singleton in Hk'. by subst.
Qed.

(** * Reading the grade file *)

Lemma with_records_readable (file : Store)
  (rest : Store -> Outcome JSON * Store) :
  readable file = true -> with_records file rest = rest file.
Proof. unfold with_records, load_records. by intros ->. Qed.

Lemma with_records_unreadable (file : Store)
  (rest : Store -> Outcome JSON * Store) :
  readable file = false ->
  with_records file rest = (Raise csv_field_error, file).
Proof. unfold with_records, load_records. by intros ->. Qed.

Lemma load_records_return (file records : Store) :
  load_records file = Return records ->
  records = file /\ readable file = true.
Proof.
  unfold load_records. destruct (readable file); [| done].
  by intros [= <-].
Qed.

Lemma load_records_raise (file : Store) (e : Exn) :
  load_records file = Raise e ->
  e = csv_field_error /\ readable file = false.
Proof.
  unfold load_records. destruct (readable file); [done |].
  by intros [= <-].
Qed.

Lemma readable_app (l1 l2 : Store) :
  readable (l1 ++ l2) = readable l1 && readable l2.
Proof. apply forallb_app. Qed.

Lemma readable_snoc (records : Store) (row : Row) :
  readable records = true -> readable_row row = true ->
  readable (records ++ [row]) = true.
Proof.
  intros Hr Hrow. rewrite readable_app, Hr. simpl. by rewrite Hrow.
Qed.

Lemma readable_filter (p : Row -> bool) (records : Store) :
  readable records = true -> readable (List.filter p records) = true.
Proof.
  unfold readable. rewrite !forallb_forall.
  intros Hall r [Hin _]%filter_In. by apply Hall.
Qed.


Lemma readable_actualizar_loop (student_id materia nueva_cal : pystr)
  (records : Store) :
  readable records = true -> fits nueva_cal = true ->
  readable (actualizar_loop student_id materia nueva_cal records).1 = true.
Proof.
  intros Hr Hf. induction records as [|r rest IH]; simpl; [done |].
  simpl in Hr. apply andb_true_iff in Hr as [Hrow Hrest].
  destruct (same_key student_id materia r); simpl.
  - rewrite Hrest, andb_true_r. unfold readable_row in *. simpl.
    apply andb_true_iff in Hrow as [Hrow _]. by rewrite Hrow, Hf.
  - destruct (actualizar_loop _ _ _ rest) as [rest' u]. simpl in *.
    by rewrite Hrow, (IH Hrest).
Qed.

(** The text of the exception the connection handler reports when the
    read fails. *)
Lemma reply_csv_field_error :
  reply (Raise csv_field_error) = resp_error msg_read_failed.
Proof. reflexivity. Qed.

(** * The model on sample lines *)

Example py_accent : py "vacío" = [118; 97; 99; 237; 111].
Proof. reflexivity. Qed.

Example strip_example : strip (py "  listar	 ") = py "listar".
Proof. reflexivity. Qed.

Example split_example :
  split PIPE (py "AGREGAR|1||9") = [py "AGREGAR"; py "1"; []; py "9"].
Proof. reflexivity. Qed.

Example split_no_separator : split PIPE (py "LISTAR") = [py "LISTAR"].
Proof. reflexivity. Qed.

Example upper_example :
  upper (H := example_runtime) (py "Buscar_nrc1") = py "BUSCAR_NRC1".
Proof. reflexivity. Qed.

Example listar_example :
  ConHilos.respond (H := example_runtime) example_env (py "listar")
    [mkRow (py "1") (py "MAT101") (py "9"); mkRow (py "2") (py "MAT101") (py "7")]
  = (resp_ok (JArr [JObj [(py "ID_Estudiante", JStr (py "1"));
                          (py "Materia", JStr (py "MAT101"));
                          (py "Calificacion", JStr (py "9"));
                          (py "Nombre", JStr (py "Ana"))];
                    JObj [(py "ID_Estudiante", JStr (py "2"));
                          (py "Materia", JStr (py "MAT101"));
                          (py "Calificacion", JStr (py "7"))]]),
     [mkRow (py "1") (py "MAT101") (py "9");
      mkRow (py "2") (py "MAT101") (py "7")]).
Proof. reflexivity. Qed.

(** An explicit ELIMINAR whose Materia field is empty takes the
    one-argument path ([if materia:]). *)
Example eliminar_empty_materia :
  ConHilos.respond (H := example_runtime) example_env (py "ELIMINAR|1|")
    [mkRow (py "1") (py "MAT101") (py "9"); mkRow (py "2") (py "MAT101") (py "7")]
  = (resp_ok (JObj [(py "ID_Estudiante", JStr (py "1"));
                    (py "Materia", JStr (py "MAT101"))]),
     [mkRow (py "2") (py "MAT101") (py "7")]).
Proof. reflexivity. Qed.

Example actualizar_example :
  SinHilos.respond (H := example_runtime) example_env
    (py "actualizar|2|MAT101|10")
    [mkRow (py "1") (py "MAT101") (py "9"); mkRow (py "2") (py "MAT101") (py "7")]
  = (resp_ok (JObj [(py "ID_Estudiante", JStr (py "2"));
                    (py "Materia", JStr (py "MAT101"));
                    (py "Calificacion", JStr (py "10"))]),
     [mkRow (py "1") (py "MAT101") (py "9");
      mkRow (py "2") (py "MAT101") (py "10")]).
Proof. reflexivity. Qed.

(** A catalog answer that is not a dict makes the handler raise; the
    connection handler reports it. *)
Example agregar_answer_not_a_dict :
  ConHilos.respond (H := example_runtime)
    (mkEnv (estudiantes example_env) (fun _ => Return (JArr [])))
    (py "AGREGAR|1|Ana|MAT101|9") []
  = (resp_error (py "Excepción: 'list' object has no attribute 'get'"), []).
Proof. reflexivity. Qed.

(** * Invariant I1 is kept by every handler *)

Section UniqueKeys.
Context `{PyRuntime}.
Variable env : Env.

Lemma agregar_row_unique (student_id materia calificacion : pystr)
  (records : Store) :
  unique_keys records ->
  existsb (same_key student_id materia) records = false ->
  unique_keys (records ++ [mkRow student_id materia calificacion]).
Proof.
  intros Hu Hno. apply unique_keys_snoc; [done |].
  by apply existsb_same_key_false.
Qed.

Lemma actualizar_loop_unique (student_id materia nueva_cal : pystr)
  (records : Store) :
  unique_keys records ->
  unique_keys (actualizar_loop student_id materia nueva_cal records).1.
Proof. unfold unique_keys. by rewrite keys_actualizar_loop. Qed.


Lemma sin_agregar_unique (parts : list pystr) (records : Store) :
  unique_keys records ->
  unique_keys (SinHilos.handle_agregar env parts records).2.
Proof.
  intros Hu. unfold SinHilos.handle_agregar.
  handler_cases; simpl; auto using agregar_row_unique.
Qed.

Lemma actualizar_loop_fst_unique (student_id materia nueva_cal : pystr)
  (records records' : Store) (updated : bool) :
  unique_keys records ->
  actualizar_loop student_id materia nueva_cal records = (records', updated) ->
  unique_keys records'.
Proof.
  intros Hu E. replace records' with
    (actualizar_loop student_id materia nueva_cal records).1 by (by rewrite E).
  by apply actualizar_loop_unique.
Qed.

Lemma con_actualizar_unique (parts : list pystr) (records : Store) :
  unique_keys records ->
  unique_keys (ConHilos.handle_actualizar parts records).2.
Proof.
  intros Hu. unfold ConHilos.handle_actualizar.
  handler_cases; simpl; eauto using actualizar_loop_fst_unique.
Qed.

Lemma sin_actualizar_unique (parts : list pystr) (records : Store) :
  unique_keys records ->
  unique_keys (SinHilos.handle_actualizar parts records).2.
Proof. apply con_actualizar_unique. Qed.

Lemma con_eliminar_unique (parts : list pystr) (records : Store) :
  unique_keys records ->
  unique_keys (ConHilos.handle_eliminar parts records).2.
Proof.
  intros Hu. unfold ConHilos.handle_eliminar, ConHilos.eliminar.
  handler_cases; simpl; auto using unique_keys_filter.
Qed.

Lemma sin_eliminar_unique (parts : list pystr) (records : Store) :
  unique_keys records ->
  unique_keys (SinHilos.handle_eliminar parts records).2.
Proof. apply con_eliminar_unique. Qed.

Lemma con_buscar_store (parts : list pystr) (records : Store) :
  (ConHilos.handle_buscar env parts records).2 = records.
Proof. unfold ConHilos.handle_buscar. by handler_cases. Qed.

Lemma sin_buscar_store (parts : list pystr) (records : Store) :
  (SinHilos.handle_buscar env parts records).2 = records.
Proof. unfold SinHilos.handle_buscar. by handler_cases. Qed.

Lemma con_listar_store (parts : list pystr) (records : Store) :
  (ConHilos.handle_listar env parts records).2 = records.
Proof. unfold ConHilos.handle_listar. by handler_cases. Qed.

Lemma sin_listar_store (parts : list pystr) (records : Store) :
  (SinHilos.handle_listar env parts records).2 = records.
Proof. apply con_listar_store. Qed.


Lemma sin_process_unique (line : pystr) (records : Store) :
  unique_keys records ->
  unique_keys (SinHilos.process_command env line records).2.
Proof.
  intros Hu. unfold SinHilos.process_command.
  destruct (if truthy (strip line) then _ else _) as [|p0 rest]; [done |].
  destruct (str_eqb _ (py "AGREGAR")); [by apply sin_agregar_unique |].
  destruct (str_eqb _ (py "BUSCAR")); [by rewrite sin_buscar_store |].
  destruct (str_eqb _ (py "ACTUALIZAR")); [by apply sin_actualizar_unique |].
  destruct (str_eqb _ (py "LISTAR")); [by rewrite sin_listar_store |].
  destruct (str_eqb _ (py "ELIMINAR")); [by apply sin_eliminar_unique |].
  done.
Qed.
End UniqueKeys.

(** * Responses *)


Lemma status_resp_not_found (message : pystr) :
  status_of (resp_not_found message) = Some (py "not_found").
Proof. reflexivity. Qed.

Lemma status_resp_ok (data : JSON) :
  status_of (resp_ok data) = Some (py "ok").
Proof. reflexivity. Qed.

Lemma status_reply_raise (e : Exn) :
  status_of (reply (Raise e)) = Some (py "error").
Proof. reflexivity. Qed.

Section Duplicate.
Context `{PyRuntime}.
Variable env : Env.



End Duplicate.




(** * The catalog gate of AGREGAR *)

Lemma status_of_get_is (resp : Dict) (lit s : pystr) :
  status_of (JObj resp) = Some s ->
  get_is (dict_get (py "status") resp) lit = str_eqb s lit.
Proof.
  unfold status_of, get_is.
  destruct (dict_get _ resp) as [[]|]; try discriminate. by intros [= ->].
Qed.

Section CatalogGate.
Context `{PyRuntime}.

Lemma con_agregar_not_found (env : Env)
  (p0 student_id nombre materia calificacion : pystr) (records : Store) :
  lookup_status (nrc_resp env materia) = Some (py "not_found") ->
  ConHilos.handle_agregar env
    [p0; student_id; nombre; materia; calificacion] records
  = (Return (resp_error (msg_nrc_not_found materia)), records).
Proof.
  intros Hs. unfold ConHilos.handle_agregar.
  destruct (nrc_resp env materia) as [[| | | | | |resp]|e]; try discriminate.
  simpl in Hs. by rewrite !(status_of_get_is _ _ _ Hs).
Qed.

Lemma con_agregar_service_error (env : Env)
  (p0 student_id nombre materia calificacion : pystr) (records : Store) :
  lookup_status (nrc_resp env materia) = Some (py "error") ->
  exists answer,
    nrc_resp env materia = Return answer
    /\ ConHilos.handle_agregar env
         [p0; student_id; nombre; materia; calificacion] records
       = (Return (resp_error (py "Fallo validación NRC: "
                              ++ fstr (message_of answer))),
          records).
Proof.
  intros Hs. unfold ConHilos.handle_agregar.
  destruct (nrc_resp env materia) as [[| | | | | |resp]|e]; try discriminate.
  simpl in Hs. eexists. split; [reflexivity |].
  by rewrite !(status_of_get_is _ _ _ Hs).
Qed.

Lemma con_agregar_reads_answer (env env' : Env) (parts : list pystr)
  (records : Store) :
  estudiantes env = estudiantes env' ->
  (forall p0 student_id nombre materia calificacion,
      parts = [p0; student_id; nombre; materia; calificacion] ->
      nrc_resp env materia = nrc_resp env' materia) ->
  ConHilos.handle_agregar env parts records
  = ConHilos.handle_agregar env' parts records.
Proof.
  intros He Ha. unfold ConHilos.handle_agregar.
  destruct parts as [|p0 [|a [|b [|c [|d [|]]]]]]; try done.
  by rewrite He, (Ha p0 a b c d eq_refl).
Qed.

Lemma sin_agregar_ignores_catalog (env env' : Env) (parts : list pystr)
  (records : Store) :
  estudiantes env = estudiantes env' ->
  SinHilos.handle_agregar env parts records
  = SinHilos.handle_agregar env' parts records.
Proof. intros He. unfold SinHilos.handle_agregar. by rewrite He. Qed.
End CatalogGate.

(** C3, as stated, fails for the sequential server: the catalog reports
    XYZ999 not found, yet [AGREGAR|1|XYZ999|10] is answered ok and the
    record is stored. *)
Lemma catalog_gate_sequential_counterexample :
  lookup_status (nrc_resp example_env (py "XYZ999")) = Some (py "not_found")
  /\ SinHilos.respond (H := example_runtime) example_env
       (py "AGREGAR|1|XYZ999|10") []
     = (resp_ok (JObj [(py "ID_Estudiante", JStr (py "1"));
                       (py "Materia", JStr (py "XYZ999"));
                       (py "Calificacion", JStr (py "10"));
                       (py "Nombre", JStr (py "Ana"))]),
        [mkRow (py "1") (py "XYZ999") (py "10")]).
Proof. split; reflexivity. Qed.

(** C3, amended. In the threaded server every AGREGAR with the four
    argument fields looks its subject code up in the answer the catalog
    gives during that request: the outcome depends on the catalog through
    that answer only, whatever earlier requests saw or stored. When the
    answer is not_found the insert is answered with the error
    [NRC no encontrado: code] and the store is unchanged; when the answer
    is a service error the insert is answered with a different error text
    and the store is unchanged. The sequential server never consults the
    catalog. *)
Theorem catalog_gate `{PyRuntime} (env : Env)
  (p0 student_id nombre materia calificacion : pystr) (records : Store) :
  let parts := [p0; student_id; nombre; materia; calificacion] in
  (lookup_status (nrc_resp env materia) = Some (py "not_found") ->
   ConHilos.handle_agregar env parts records
   = (Return (resp_error (msg_nrc_not_found materia)), records)
   /\ forall (env0 : Env) (line0 : pystr) (records0 : Store),
       let stored := (ConHilos.process_command env0 line0 records0).2 in
       ConHilos.handle_agregar env parts stored
       = (Return (resp_error (msg_nrc_not_found materia)), stored))
  /\ (lookup_status (nrc_resp env materia) = Some (py "error") ->
      exists text : pystr,
        ConHilos.handle_agregar env parts records
        = (Return (resp_error (py "Fallo validación NRC: " ++ text)), records)
        /\ py "Fallo validación NRC: " ++ text <> msg_nrc_not_found materia)
  /\ (forall env' : Env,
         estudiantes env = estudiantes env' ->
         nrc_resp env materia = nrc_resp env' materia ->
         ConHilos.handle_agregar env parts records
         = ConHilos.handle_agregar env' parts records)
  /\ (forall (env' : Env) (parts' : list pystr),
         estudiantes env = estudiantes env' ->
         SinHilos.handle_agregar env parts' records
         = SinHilos.handle_agregar env' parts' records).
Proof.
  cbv zeta. split_and!.
  - intros Hs. split; [by apply con_agregar_not_found |].
    intros. by apply con_agregar_not_found.
  - intros Hs.
    destruct (con_agregar_service_error env p0 student_id nombre materia
                calificacion records Hs) as (answer & _ & Hout).
    eexists. split; [exact Hout |].
    unfold msg_nrc_not_found. simpl. discriminate.
  - intros env' He Ha. apply con_agregar_reads_answer; [done |].
    by intros ? ? ? ? ? [= _ _ _ <- _].
  - intros. by apply sin_agregar_ignores_catalog.
Qed.

Lemma catalog_gate_witness :
  lookup_status (nrc_resp example_env (py "XYZ999")) = Some (py "not_found")
  /\ ConHilos.handle_agregar (H := example_runtime) example_env
       [py "AGREGAR"; py "1"; py "Ana"; py "XYZ999"; py "10"] []
     = (Return (resp_error (msg_nrc_not_found (py "XYZ999"))), []).
Proof.
  split; [reflexivity |].
  apply (catalog_gate (H := example_runtime) example_env
           (py "AGREGAR") (py "1") (py "Ana") (py "XYZ999") (py "10") []).
  reflexivity.
Defined.

(** * The argument fields of AGREGAR *)

Section Signature.
Context `{PyRuntime}.
Variable env : Env.

Lemma con_dispatch_agregar (line : pystr) (records : Store) (p0 : pystr)
  (rest : list pystr) :
  parts_of line = p0 :: rest ->
  upper p0 = py "AGREGAR" ->
  ConHilos.process_command env line records
  = ConHilos.handle_agregar env (p0 :: rest) records.
Proof.
  unfold ConHilos.process_command, parts_of. intros -> ->. done.
Qed.

Lemma sin_dispatch_agregar (line : pystr) (records : Store) (p0 : pystr)
  (rest : list pystr) :
  parts_of line = p0 :: rest ->
  upper p0 = py "AGREGAR" ->
  SinHilos.process_command env line records
  = SinHilos.handle_agregar env (p0 :: rest) records.
Proof.
  unfold SinHilos.process_command, parts_of. intros -> ->. done.
Qed.

Lemma sin_agregar_arity (parts : list pystr) (records : Store) :
  length parts <> 4%nat ->
  SinHilos.handle_agregar env parts records
  = (Return (resp_error sin_msg_agregar), records).
Proof.
  intros Hlen. destruct parts as [|p0 [|a [|b [|c [|d ?]]]]]; try done.
Qed.

Lemma con_agregar_arity (parts : list pystr) (records : Store) :
  length parts <> 5%nat ->
  ConHilos.handle_agregar env parts records
  = (Return (resp_error con_msg_agregar), records).
Proof.
  intros Hlen. destruct parts as [|p0 [|a [|b [|c [|d [|e ?]]]]]]; try done.
Qed.

Lemma sin_agregar_proceeds (p0 student_id materia calificacion : pystr)
  (records : Store) :
  let out := SinHilos.handle_agregar env
               [p0; student_id; materia; calificacion] records in
  out.1 <> Return (resp_error sin_msg_agregar)
  /\ (status_of (reply out.1) = Some (py "ok") ->
      exists nombre,
        get_estudiante_nombre (estudiantes env) student_id = Some nombre
        /\ out = (Return (inserted (mkRow student_id materia calificacion)
                                   nombre),
                  records ++ [mkRow student_id materia calificacion])).
Proof.
  simpl. destruct (truthy student_id); simpl; [| by split].
  destruct (get_estudiante_nombre _ _) as [nombre|]; simpl; [| by split].
  open_records; [| by split].
  destruct (existsb _ records); simpl; [by split |].
  split; [done |]. intros _. by exists nombre.
Qed.

Lemma con_agregar_proceeds (p0 student_id nombre materia calificacion : pystr)
  (records : Store) :
  let out := ConHilos.handle_agregar env
               [p0; student_id; nombre; materia; calificacion] records in
  out.1 <> Return (resp_error con_msg_agregar)
  /\ (status_of (reply out.1) = Some (py "ok") ->
      exists nombre_canonico,
        get_estudiante_nombre (estudiantes env) student_id
        = Some nombre_canonico
        /\ out = (Return (inserted (mkRow student_id materia calificacion)
                                   nombre_canonico),
                  records ++ [mkRow student_id materia calificacion])).
Proof.
  simpl. destruct (nrc_resp env materia) as [[| | | | | |resp]|e]; simpl;
    try by split.
  destruct (get_is _ _); simpl; [by split |].
  destruct (get_is _ _); simpl; [by split |].
  destruct (get_estudiante_nombre _ _) as [nombre_canonico|]; simpl;
    [| by split].
  open_records; [| by split].
  destruct (existsb _ records); simpl; [by split |].
  split; [done |]. intros _. by exists nombre_canonico.
Qed.
End Signature.

(** C4, as stated, fails for the threaded server: a line with the three
    argument fields student_id, subject_code, grade is answered with the
    format error and nothing is stored, although student 1 is on the
    roster and the catalog knows MAT101. *)
Lemma insert_signature_threaded_counterexample :
  parts_of (py "AGREGAR|1|MAT101|9")
  = [py "AGREGAR"; py "1"; py "MAT101"; py "9"]
  /\ ConHilos.respond (H := example_runtime) example_env
       (py "AGREGAR|1|MAT101|9") []
     = (resp_error (py "Formato inválido para AGREGAR"), []).
Proof. split; reflexivity. Qed.

(** C4, amended. The sequential server's AGREGAR takes exactly the three
    argument fields student_id, subject_code, grade: a line dispatched to
    AGREGAR with those three fields is not answered with the format error,
    and when it is answered ok the response carries the stored record and
    the roster name, the record being appended to the store; any other
    number of fields is answered with the format error and the store is
    unchanged. The threaded server's AGREGAR takes exactly four argument
    fields, student_id, nombre, subject_code, grade, with the same
    guarantees; the nombre field is not used. *)
Theorem insert_signature `{PyRuntime} (env : Env) (records : Store) :
  (forall (line p0 student_id materia calificacion : pystr),
      parts_of line = [p0; student_id; materia; calificacion] ->
      upper p0 = py "AGREGAR" ->
      let out := SinHilos.process_command env line records in
      out = SinHilos.handle_agregar env
              [p0; student_id; materia; calificacion] records
      /\ out.1 <> Return (resp_error sin_msg_agregar)
      /\ (status_of (reply out.1) = Some (py "ok") ->
          exists nombre,
            get_estudiante_nombre (estudiantes env) student_id = Some nombre
            /\ out = (Return (inserted (mkRow student_id materia calificacion)
                                       nombre),
                      records ++ [mkRow student_id materia calificacion])))
  /\ (forall (line p0 : pystr) (rest : list pystr),
         parts_of line = p0 :: rest ->
         upper p0 = py "AGREGAR" ->
         length rest <> 3%nat ->
         SinHilos.process_command env line records
         = (Return (resp_error sin_msg_agregar), records))
  /\ (forall (line p0 student_id nombre materia calificacion : pystr),
         parts_of line = [p0; student_id; nombre; materia; calificacion] ->
         upper p0 = py "AGREGAR" ->
         let out := ConHilos.process_command env line records in
         out = ConHilos.handle_agregar env
                 [p0; student_id; nombre; materia; calificacion] records
         /\ out.1 <> Return (resp_error con_msg_agregar)
         /\ (status_of (reply out.1) = Some (py "ok") ->
             exists nombre_canonico,
               get_estudiante_nombre (estudiantes env) student_id
               = Some nombre_canonico
               /\ out = (Return (inserted
                                   (mkRow student_id materia calificacion)
                                   nombre_canonico),
                         records ++ [mkRow student_id materia calificacion])))
  /\ (forall (line p0 : pystr) (rest : list pystr),
         parts_of line = p0 :: rest ->
         upper p0 = py "AGREGAR" ->
         length rest <> 4%nat ->
         ConHilos.process_command env line records
         = (Return (resp_error con_msg_agregar), records)).
Proof.
  split_and!.
  - intros line p0 student_id materia calificacion Hparts Hcmd. cbv zeta.
    rewrite (sin_dispatch_agregar env line records p0 _ Hparts Hcmd).
    split; [done |]. apply sin_agregar_proceeds.
  - intros line p0 rest Hparts Hcmd Hlen.
    rewrite (sin_dispatch_agregar env line records p0 rest Hparts Hcmd).
    apply sin_agregar_arity. simpl. lia.
  - intros line p0 student_id nombre materia calificacion Hparts Hcmd.
    cbv zeta.
    rewrite (con_dispatch_agregar env line records p0 _ Hparts Hcmd).
    split; [done |]. apply con_agregar_proceeds.
  - intros line p0 rest Hparts Hcmd Hlen.
    rewrite (con_dispatch_agregar env line records p0 rest Hparts Hcmd).
    apply con_agregar_arity. simpl. lia.
Qed.

Lemma insert_signature_witness :
  parts_of (py "agregar|1|MAT101|9")
  = [py "agregar"; py "1"; py "MAT101"; py "9"]
  /\ upper (H := example_runtime) (py "agregar") = py "AGREGAR"
  /\ SinHilos.process_command (H := example_runtime) example_env
       (py "agregar|1|MAT101|9") []
     = SinHilos.handle_agregar example_env
         [py "agregar"; py "1"; py "MAT101"; py "9"] [].
Proof.
  split; [reflexivity |]. split; [reflexivity |].
  apply (proj1 (insert_signature (H := example_runtime) example_env [])
           (py "agregar|1|MAT101|9") (py "agregar") (py "1") (py "MAT101")
           (py "9")); reflexivity.
Defined.

(** * The dispatcher *)

Section Dispatch.
Context `{PyRuntime}.
Variable env : Env.

Lemma con_agregar_head (p q : pystr) (args : list pystr) (records : Store) :
  ConHilos.handle_agregar env (p :: args) records
  = ConHilos.handle_agregar env (q :: args) records.
Proof. done. Qed.

Lemma con_buscar_head (p q : pystr) (args : list pystr) (records : Store) :
  ConHilos.handle_buscar env (p :: args) records
  = ConHilos.handle_buscar env (q :: args) records.
Proof. done. Qed.

Lemma con_actualizar_head (p q : pystr) (args : list pystr) (records : Store) :
  ConHilos.handle_actualizar (p :: args) records
  = ConHilos.handle_actualizar (q :: args) records.
Proof. done. Qed.

Lemma con_listar_head (p q : pystr) (args : list pystr) (records : Store) :
  ConHilos.handle_listar env (p :: args) records
  = ConHilos.handle_listar env (q :: args) records.
Proof. done. Qed.

Lemma con_eliminar_head (p q : pystr) (args : list pystr) (records : Store) :
  ConHilos.handle_eliminar (p :: args) records
  = ConHilos.handle_eliminar (q :: args) records.
Proof. done. Qed.

Lemma sin_agregar_head (p q : pystr) (args : list pystr) (records : Store) :
  SinHilos.handle_agregar env (p :: args) records
  = SinHilos.handle_agregar env (q :: args) records.
Proof. done. Qed.

Lemma sin_buscar_head (p q : pystr) (args : list pystr) (records : Store) :
  SinHilos.handle_buscar env (p :: args) records
  = SinHilos.handle_buscar env (q :: args) records.
Proof. done. Qed.

(** Two lines with the same argument fields and command names that agree
    once upper-cased are served alike. *)
Lemma con_process_same_fields (line1 line2 p q : pystr) (args : list pystr)
  (records : Store) :
  parts_of line1 = p :: args ->
  parts_of line2 = q :: args ->
  upper p = upper q ->
  ConHilos.process_command env line1 records
  = ConHilos.process_command env line2 records.
Proof.
  unfold ConHilos.process_command, parts_of. intros -> -> ->.
  rewrite (con_agregar_head p q), (con_buscar_head p q),
    (con_actualizar_head p q), (con_listar_head p q),
    (con_eliminar_head p q).
  done.
Qed.

Lemma sin_process_same_fields (line1 line2 p q : pystr) (args : list pystr)
  (records : Store) :
  parts_of line1 = p :: args ->
  parts_of line2 = q :: args ->
  upper p = upper q ->
  SinHilos.process_command env line1 records
  = SinHilos.process_command env line2 records.
Proof.
  unfold SinHilos.process_command, parts_of. intros -> -> ->.
  rewrite (sin_agregar_head p q), (sin_buscar_head p q).
  change (SinHilos.handle_actualizar (p :: args) records)
    with (SinHilos.handle_actualizar (q :: args) records).
  change (SinHilos.handle_listar env (p :: args) records)
    with (SinHilos.handle_listar env (q :: args) records).
  change (SinHilos.handle_eliminar (p :: args) records)
    with (SinHilos.handle_eliminar (q :: args) records).
  done.
Qed.
End Dispatch.

(** * Malformed requests *)

Section Malformed.
Context `{PyRuntime}.

Lemma con_malformed_response (line : pystr) :
  malformed con_arg_counts line = true ->
  exists message : pystr,
    forall (env : Env) (records : Store),
      ConHilos.process_command env line records
      = (Return (resp_error message), records).
Proof.
  unfold malformed, con_arg_counts, ConHilos.process_command, parts_of.
  destruct (if truthy (strip line) then _ else _) as [|p0 args];
    [by eexists |].
  destruct (str_eqb (upper p0) (py "AGREGAR")).
  { destruct args as [|a [|b [|c [|d [|e ?]]]]]; try discriminate;
      intros _; by eexists. }
  destruct (str_eqb (upper p0) (py "BUSCAR")).
  { destruct args as [|a [|b ?]]; try discriminate; intros _; by eexists. }
  destruct (str_eqb (upper p0) (py "ACTUALIZAR")).
  { destruct args as [|a [|b [|c [|d ?]]]]; try discriminate;
      intros _; by eexists. }
  destruct (str_eqb (upper p0) (py "LISTAR")).
  { destruct args as [|a ?]; try discriminate; intros _; by eexists. }
  destruct (str_eqb (upper p0) (py "ELIMINAR")).
  { destruct args as [|a [|b [|c ?]]]; try discriminate;
      intros _; by eexists. }
  intros _. by eexists.
Qed.

Lemma sin_malformed_response (line : pystr) :
  malformed sin_arg_counts line = true ->
  exists message : pystr,
    forall (env : Env) (records : Store),
      SinHilos.process_command env line records
      = (Return (resp_error message), records).
Proof.
  unfold malformed, sin_arg_counts, SinHilos.process_command, parts_of.
  destruct (if truthy (strip line) then _ else _) as [|p0 args];
    [by eexists |].
  destruct (str_eqb (upper p0) (py "AGREGAR")).
  { destruct args as [|a [|b [|c [|d ?]]]]; try discriminate;
      intros _; by eexists. }
  destruct (str_eqb (upper p0) (py "BUSCAR")).
  { destruct args as [|a [|b ?]]; try discriminate; intros _; by eexists. }
  destruct (str_eqb (upper p0) (py "ACTUALIZAR")).
  { destruct args as [|a [|b [|c [|d ?]]]]; try discriminate;
      intros _; by eexists. }
  destruct (str_eqb (upper p0) (py "LISTAR")).
  { destruct args as [|a ?]; try discriminate; intros _; by eexists. }
  destruct (str_eqb (upper p0) (py "ELIMINAR")).
  { destruct args as [|a [|b [|c ?]]]; try discriminate;
      intros _; by eexists. }
  intros _. by eexists.
Qed.
End Malformed.

(** C6. Malformed requests never touch the store. For a line that is
    empty (or only whitespace), names an unknown command, or gives a known
    command a number of argument fields it does not take, [process_command]
    of either server returns a status-error response and the store after
    the dispatch is the store before; the response is the same whatever
    the store, the roster and the catalog hold, so none of them is read
    for the decision. *)
Theorem malformed_requests_leave_store `{PyRuntime} (line : pystr)
  (env : Env) (records : Store) :
  (malformed con_arg_counts line = true ->
   let out := ConHilos.process_command env line records in
   (exists message, out.1 = Return (resp_error message))
   /\ status_of (reply out.1) = Some (py "error")
   /\ out.2 = records
   /\ forall (env' : Env) (records' : Store),
       (ConHilos.process_command env' line records').1 = out.1)
  /\ (malformed sin_arg_counts line = true ->
      let out := SinHilos.process_command env line records in
      (exists message, out.1 = Return (resp_error message))
      /\ status_of (reply out.1) = Some (py "error")
      /\ out.2 = records
      /\ forall (env' : Env) (records' : Store),
          (SinHilos.process_command env' line records').1 = out.1).
Proof.
  split; intros Hm; cbv zeta.
  - destruct (con_malformed_response line Hm) as [message Hr].
    rewrite (Hr env records). simpl.
    split_and!; [by exists message | done | done |].
    intros env' records'. by rewrite (Hr env' records').
  - destruct (sin_malformed_response line Hm) as [message Hr].
    rewrite (Hr env records). simpl.
    split_and!; [by exists message | done | done |].
    intros env' records'. by rewrite (Hr env' records').
Qed.

Lemma malformed_requests_leave_store_witness :
  malformed (H := example_runtime) con_arg_counts (py "borrar|1") = true
  /\ (ConHilos.process_command (H := example_runtime) example_env
        (py "borrar|1") [mkRow (py "1") (py "MAT101") (py "9")]).2
     = [mkRow (py "1") (py "MAT101") (py "9")].
Proof.
  split; [reflexivity |].
  apply (proj1 (malformed_requests_leave_store (H := example_runtime)
                  (py "borrar|1") example_env
                  [mkRow (py "1") (py "MAT101") (py "9")])
           eq_refl).
Defined.

(** * Stripping, splitting and upper-casing a request line *)

Lemma lstrip_spaces (ws s : pystr) :
  forallb is_space ws = true -> lstrip (ws ++ s) = lstrip s.
Proof.
  induction ws as [|c ws IH]; simpl; [done |].
  intros [Hc Hws]%andb_true_iff. rewrite Hc. by apply IH.
Qed.

Lemma lstrip_app_nonempty (x y : pystr) :
  lstrip x <> [] -> lstrip (x ++ y) = lstrip x ++ y.
Proof.
  induction x as [|c x IH]; simpl; [done |].
  destruct (is_space c); [apply IH | done].
Qed.

Lemma lstrip_app_empty (x y : pystr) :
  lstrip x = [] -> lstrip (x ++ y) = lstrip y.
Proof.
  induction x as [|c x IH]; simpl; [done |].
  destruct (is_space c); [apply IH | done].
Qed.

Lemma forallb_rev {A} (f : A -> bool) (l : list A) :
  forallb f (rev l) = forallb f l.
Proof.
  induction l as [|a l IH]; simpl; [done |].
  rewrite forallb_app, IH. simpl. rewrite andb_true_r. apply andb_comm.
Qed.

Lemma rstrip_spaces (s ws : pystr) :
  forallb is_space ws = true -> rstrip (s ++ ws) = rstrip s.
Proof.
  intros Hws. unfold rstrip. rewrite rev_app_distr.
  rewrite lstrip_spaces; [done |]. by rewrite forallb_rev.
Qed.

Lemma rstrip_app_keep (a y : pystr) :
  rstrip y <> [] -> rstrip (a ++ y) = a ++ rstrip y.
Proof.
  unfold rstrip. intros Hy. rewrite rev_app_distr.
  rewrite lstrip_app_nonempty.
  - by rewrite rev_app_distr, rev_involutive.
  - intros E. apply Hy. by rewrite E.
Qed.

Lemma rstrip_cons (c : N) (r : pystr) :
  is_space c = false -> rstrip (c :: r) = c :: rstrip r.
Proof.
  intros Hc. unfold rstrip. simpl rev.
  destruct (lstrip (rev r)) as [|d t] eqn:E.
  - rewrite lstrip_app_empty by done. simpl. by rewrite Hc.
  - rewrite lstrip_app_nonempty by (by rewrite E).
    rewrite E. by rewrite rev_app_distr.
Qed.

Lemma rstrip_app_nonspace (v s : pystr) :
  forallb (fun c => negb (is_space c)) v = true ->
  rstrip (v ++ s) = v ++ rstrip s.
Proof.
  induction v as [|c v IH]; simpl; [done |].
  intros [Hc Hv]%andb_true_iff. apply negb_true_iff in Hc.
  rewrite rstrip_cons by done. by rewrite IH.
Qed.

Lemma split_plain (v : pystr) :
  forallb (fun c => negb (c =? PIPE)) v = true -> split PIPE v = [v].
Proof.
  induction v as [|c v IH]; simpl; [done |].
  intros [Hc Hv]%andb_true_iff. apply negb_true_iff in Hc.
  by rewrite Hc, (IH Hv).
Qed.

Lemma split_app_sep (v r : pystr) :
  forallb (fun c => negb (c =? PIPE)) v = true ->
  split PIPE (v ++ PIPE :: r) = v :: split PIPE r.
Proof.
  induction v as [|c v IH]; simpl; [done |].
  intros [Hc Hv]%andb_true_iff. apply negb_true_iff in Hc.
  by rewrite Hc, (IH Hv).
Qed.

Lemma parts_of_command (ws1 v rest ws2 : pystr) :
  v <> [] ->
  forallb (fun c => negb (is_space c)) v = true ->
  forallb (fun c => negb (c =? PIPE)) v = true ->
  forallb is_space ws1 = true ->
  forallb is_space ws2 = true ->
  argument_tail rest = true ->
  parts_of (ws1 ++ v ++ rest ++ ws2) = v :: tail_fields rest.
Proof.
  intros Hne Hsp Hpipe Hws1 Hws2 Hrest.
  assert (Hstrip : strip (ws1 ++ v ++ rest ++ ws2) = v ++ rstrip rest).
  { unfold strip.
    replace (ws1 ++ v ++ rest ++ ws2) with ((ws1 ++ v ++ rest) ++ ws2)
      by (by rewrite <- !app_assoc).
    rewrite rstrip_spaces by done.
    rewrite rstrip_app_keep.
    - rewrite rstrip_app_nonspace by done.
      rewrite lstrip_spaces by done.
      destruct v as [|c v]; [done |]. simpl in *.
      apply andb_true_iff in Hsp as [Hc _]. apply negb_true_iff in Hc.
      by rewrite Hc.
    - rewrite rstrip_app_nonspace by done. by destruct v. }
  unfold parts_of. rewrite Hstrip.
  destruct v as [|c v]; [done |]. simpl truthy. cbv iota.
  destruct rest as [|d r]; simpl tail_fields.
  - change (rstrip []) with (@nil N). rewrite app_nil_r. by apply split_plain.
  - simpl in Hrest. apply N.eqb_eq in Hrest. subst d.
    rewrite rstrip_cons by done. by apply split_app_sep.
Qed.

(** Rewrites the comparisons of a code point known to lie in a range. *)
Ltac settle_comparisons :=
  repeat match goal with
         | |- context [(?a <=? ?b)%N] =>
             first [ rewrite (proj2 (N.leb_gt a b)) by lia
                   | rewrite (proj2 (N.leb_le a b)) by lia ]
         | |- context [(?a <? ?b)%N] =>
             first [ rewrite (proj2 (N.ltb_lt a b)) by lia
                   | rewrite (proj2 (N.ltb_ge a b)) by lia ]
         | |- context [(?a =? ?b)%N] =>
             rewrite (proj2 (N.eqb_neq a b)) by lia
         end.

Section CaseVariants.
Context `{PyRuntime}.

Lemma same_letter_upper (c d : N) :
  same_letter c d = true -> 65 <= d <= 90 ->
  upper_char c = [d] /\ is_space c = false /\ (c =? PIPE) = false.
Proof.
  unfold same_letter. intros Hl Hd.
  assert (Hc : c = d \/ c = d + 32).
  { apply orb_true_iff in Hl as [Hl | Hl].
    - left. by apply N.eqb_eq.
    - right. apply andb_true_iff in Hl as [_ Hl]. by apply N.eqb_eq. }
  unfold upper_char, is_space, PIPE.
  destruct Hc as [-> | ->].
  - settle_comparisons. done.
  - settle_comparisons. simpl. split_and!; try done. f_equal. lia.
Qed.

Lemma case_variant_upper (v name : pystr) :
  case_variant v name = true ->
  forallb (fun d => (65 <=? d) && (d <=? 90)) name = true ->
  upper v = name
  /\ forallb (fun c => negb (is_space c)) v = true
  /\ forallb (fun c => negb (c =? PIPE)) v = true.
Proof.
  revert name. induction v as [|c v IH]; intros [|d name]; simpl;
    try done.
  intros [Hl Hv]%andb_true_iff [Hd Hname]%andb_true_iff.
  apply andb_true_iff in Hd as [Hd1 Hd2].
  apply N.leb_le in Hd1. apply N.leb_le in Hd2.
  destruct (same_letter_upper c d Hl (conj Hd1 Hd2)) as (Hu & Hs & Hp).
  destruct (IH name Hv Hname) as (IHu & IHs & IHp).
  unfold upper in *. rewrite Hu, Hs, Hp, IHu, IHs, IHp. done.
Qed.

Lemma command_names_upper (name : pystr) :
  name ∈ command_names ->
  name <> []
  /\ forallb (fun d => (65 <=? d) && (d <=? 90)) name = true
  /\ case_variant name name = true.
Proof.
  unfold command_names. rewrite !elem_of_cons, elem_of_nil.
  intros [-> | [-> | [-> | [-> | [-> | []]]]]]; by vm_compute.
Qed.

Lemma case_variant_nonempty (v name : pystr) :
  case_variant v name = true -> name <> [] -> v <> [].
Proof. by destruct v, name. Qed.
End CaseVariants.

(** C10. Case-insensitive, whitespace-tolerant dispatch. A line made of
    whitespace, any case variant of AGREGAR, BUSCAR, ACTUALIZAR, LISTAR or
    ELIMINAR, the argument fields, and whitespace again gets from
    [process_command] of either server exactly the response and the store
    that the upper-case spelling followed by the same argument fields
    gets. *)
Theorem case_insensitive_dispatch `{PyRuntime} (env : Env) (records : Store)
  (name v ws1 rest ws2 : pystr) :
  name ∈ command_names ->
  case_variant v name = true ->
  forallb is_space ws1 = true ->
  forallb is_space ws2 = true ->
  argument_tail rest = true ->
  ConHilos.process_command env (ws1 ++ v ++ rest ++ ws2) records
  = ConHilos.process_command env (name ++ rest) records
  /\ SinHilos.process_command env (ws1 ++ v ++ rest ++ ws2) records
     = SinHilos.process_command env (name ++ rest) records.
Proof.
  intros Hname Hv Hws1 Hws2 Hrest.
  destruct (command_names_upper name Hname) as (Hne & Hcaps & Hself).
  destruct (case_variant_upper v name Hv Hcaps) as (Hup & Hsp & Hpipe).
  destruct (case_variant_upper name name Hself Hcaps) as (Hup' & Hsp' & Hpipe').
  pose proof (case_variant_nonempty v name Hv Hne) as Hvne.
  pose proof (parts_of_command ws1 v rest ws2 Hvne Hsp Hpipe Hws1 Hws2 Hrest)
    as Hparts.
  pose proof (parts_of_command [] name rest [] Hne Hsp' Hpipe' eq_refl eq_refl
                Hrest) as Hparts'.
  simpl in Hparts'. rewrite app_nil_r in Hparts'.
  split.
  - apply (con_process_same_fields env _ _ v name (tail_fields rest));
      [done | done | by rewrite Hup, Hup'].
  - apply (sin_process_same_fields env _ _ v name (tail_fields rest));
      [done | done | by rewrite Hup, Hup'].
Qed.

Lemma case_insensitive_dispatch_witness :
  ConHilos.process_command (H := example_runtime) example_env
    (py "  " ++ py "bUsCaR" ++ py "|1" ++ py " ")
    [mkRow (py "1") (py "MAT101") (py "9")]
  = ConHilos.process_command (H := example_runtime) example_env
      (py "BUSCAR" ++ py "|1") [mkRow (py "1") (py "MAT101") (py "9")].
Proof.
  apply (case_insensitive_dispatch (H := example_runtime) example_env
           [mkRow (py "1") (py "MAT101") (py "9")]
           (py "BUSCAR") (py "bUsCaR") (py "  ") (py "|1") (py " "));
    [ | reflexivity | reflexivity | reflexivity | reflexivity ].
  unfold command_names. apply list_elem_of_further, list_elem_of_here.
Defined.

(** * One-argument ACTUALIZAR and ELIMINAR *)

Lemma actualizar_loop_updated (student_id materia nueva_cal : pystr)
  (records : Store) :
  (actualizar_loop student_id materia nueva_cal records).2
  = existsb (same_key student_id materia) records.
Proof.
  induction records as [|r rest IH]; simpl; [done |].
  destruct (same_key student_id materia r); [done |].
  destruct (actualizar_loop _ _ _ rest) as [rest' u]. simpl in *. done.
Qed.

Lemma filter_length_le {A} (p : A -> bool) (l : list A) :
  (length (List.filter p l) <= length l)%nat.
Proof.
  induction l as [|a l IH]; simpl; [done |].
  destruct (p a); simpl; lia.
Qed.

Lemma filter_out_shorter {A} (p : A -> bool) (l : list A) :
  existsb p l = true ->
  (length (List.filter (fun a => negb (p a)) l) < length l)%nat.
Proof.
  induction l as [|a l IH]; simpl; [done |].
  destruct (p a); simpl.
  - intros _. pose proof (filter_length_le (fun a => negb (p a)) l). lia.
  - intros Hl. specialize (IH Hl). lia.
Qed.

Lemma sole_nota_stored (student_id : pystr) (records : Store) (nota : Row) :
  notas_de student_id records = [nota] ->
  existsb (same_key student_id (Materia nota)) records = true.
Proof.
  intros Hf. apply existsb_exists. exists nota.
  assert (Hin : In nota (notas_de student_id records)) by (rewrite Hf; by left).
  apply filter_In in Hin as [Hin Hid]. split; [done |].
  unfold same_key. unfold has_id in Hid. by rewrite Hid, str_eqb_refl.
Qed.








(** * Insert, update, delete, each followed by a search *)








Section ReadAfterWrite.
Context `{PyRuntime}.
Variable env : Env.




End ReadAfterWrite.




(** * A roster row with an empty name *)

Lemma get_estudiante_nombre_vacio (student_id : pystr)
  (rows : list Estudiante) :
  (exists row, In row rows /\ est_id row = student_id) ->
  nombre_vacio student_id rows ->
  get_estudiante_nombre rows student_id = Some [].
Proof.
  unfold nombre_vacio. induction rows as [|row rest IH]; simpl.
  - by intros (? & [] & _).
  - intros (row' & Hin & Hid) Hall.
    destruct (str_eqb (est_id row) student_id) eqn:E.
    + apply str_eqb_eq in E. by rewrite (Hall row (or_introl eq_refl) E).
    + apply IH; [| by intros r Hr; apply Hall; right].
      destruct Hin as [-> | Hin]; [| by exists row'].
      apply str_eqb_neq in E. done.
Qed.

Lemma get_estudiante_nombre_absent (student_id : pystr)
  (rows : list Estudiante) :
  get_estudiante_nombre
    (List.filter (fun row => negb (str_eqb (est_id row) student_id)) rows)
    student_id = None.
Proof.
  induction rows as [|row rest IH]; simpl; [done |].
  destruct (str_eqb (est_id row) student_id) eqn:E; simpl; [done |].
  by rewrite E.
Qed.

Lemma roster_fold_vacio (student_id : pystr) (rows : list Estudiante)
  (out : gmap pystr pystr) :
  nombre_vacio student_id rows ->
  out !! student_id = None \/ out !! student_id = Some [] ->
  foldl roster_step out rows !! student_id = None
  \/ foldl roster_step out rows !! student_id = Some [].
Proof.
  unfold nombre_vacio. revert out.
  induction rows as [|row rest IH]; intros out Hall Hout; simpl; [done |].
  apply IH; [by intros r Hr; apply Hall; right |].
  unfold roster_step. destruct (truthy (est_id row)); [| done].
  destruct (decide (est_id row = student_id)) as [E | E].
  - right. rewrite E, lookup_insert_eq.
    by rewrite (Hall row (or_introl eq_refl) E).
  - by rewrite !lookup_insert_ne.
Qed.

Lemma roster_fold_other (student_id k : pystr) (rows : list Estudiante)
  (out1 out2 : gmap pystr pystr) :
  k <> student_id ->
  out1 !! k = out2 !! k ->
  foldl roster_step out1 rows !! k
  = foldl roster_step out2
      (List.filter (fun row => negb (str_eqb (est_id row) student_id)) rows)
    !! k.
Proof.
  intros Hk. revert out1 out2.
  induction rows as [|row rest IH]; intros out1 out2 Hout; simpl; [done |].
  destruct (str_eqb (est_id row) student_id) eqn:E; simpl.
  - apply IH. apply str_eqb_eq in E. unfold roster_step.
    destruct (truthy (est_id row)); [| done].
    rewrite lookup_insert_ne; [done |]. by rewrite E.
  - apply IH. unfold roster_step.
    destruct (truthy (est_id row)); [| done].
    destruct (decide (est_id row = k)) as [<- | Hne].
    + by rewrite !lookup_insert_eq.
    + by rewrite !lookup_insert_ne.
Qed.

Lemma roster_fold_absent (student_id : pystr) (rows : list Estudiante)
  (out : gmap pystr pystr) :
  out !! student_id = None ->
  foldl roster_step out
    (List.filter (fun row => negb (str_eqb (est_id row) student_id)) rows)
  !! student_id = None.
Proof.
  revert out. induction rows as [|row rest IH]; intros out Hout; simpl;
    [done |].
  destruct (str_eqb (est_id row) student_id) eqn:E; simpl; [by apply IH |].
  apply IH. unfold roster_step. destruct (truthy (est_id row)); [| done].
  rewrite lookup_insert_ne; [done |]. by apply str_eqb_neq.
Qed.

Lemma enrich_vacio (nombre_canon : option pystr) (rr : Dict) :
  nombre_canon = None \/ nombre_canon = Some [] ->
  enrich nombre_canon rr = rr.
Proof. by intros [-> | ->]. Qed.

Lemma nombre_row_dict (r : Row) : dict_get (py "Nombre") (row_dict r) = None.
Proof. reflexivity. Qed.

Lemma enrich_same_as_absent (student_id : pystr) (env : Env) (k : pystr)
  (rr : Dict) :
  nombre_vacio student_id (estudiantes env) ->
  enrich (load_estudiantes_map (estudiantes env) !! k) rr
  = enrich (load_estudiantes_map
              (estudiantes (sin_estudiante student_id env)) !! k) rr.
Proof.
  intros Hv. unfold load_estudiantes_map. simpl.
  change (fun out row => if truthy (est_id row)
                         then <[est_id row := or_empty (est_nombre row)]> out
                         else out) with roster_step.
  destruct (decide (k = student_id)) as [-> | Hk].
  - rewrite (enrich_vacio _ rr (roster_fold_vacio student_id _ ∅ Hv
                                  (or_introl (lookup_empty _)))).
    by rewrite roster_fold_absent.
  - by rewrite (roster_fold_other student_id k _ ∅ ∅ Hk eq_refl).
Qed.

Lemma id_enriched (nombre_canon : option pystr) (r : Row) :
  dict_get (py "ID_Estudiante") (enrich nombre_canon (row_dict r))
  = Some (JStr (ID_Estudiante r)).
Proof. unfold enrich. destruct nombre_canon as [[|c n]|]; reflexivity. Qed.

Section EmptyName.
Context `{PyRuntime}.
Variable env : Env.
Variable student_id : pystr.
Hypothesis Hentry : exists row, In row (estudiantes env) /\ est_id row = student_id.
Hypothesis Hvacio : nombre_vacio student_id (estudiantes env).

Lemma est_map_vacio :
  load_estudiantes_map (estudiantes env) !! student_id = None
  \/ load_estudiantes_map (estudiantes env) !! student_id = Some [].
Proof.
  apply (roster_fold_vacio student_id (estudiantes env) ∅ Hvacio).
  left. apply lookup_empty.
Qed.

Lemma con_agregar_vacio (p0 nombre materia calificacion : pystr)
  (records : Store) :
  let out := ConHilos.handle_agregar env
               [p0; student_id; nombre; materia; calificacion] records in
  out.1 <> Return (resp_error msg_sin_estudiante)
  /\ (status_of (reply out.1) = Some (py "ok") ->
      out.1 = Return (inserted (mkRow student_id materia calificacion) [])).
Proof.
  simpl. rewrite (get_estudiante_nombre_vacio _ _ Hentry Hvacio).
  destruct (nrc_resp env materia) as [answer|e]; simpl; [| by split].
  destruct answer; simpl; try by split.
  destruct (get_is _ _); simpl; [by split |].
  destruct (get_is _ _); simpl; [by split |].
  open_records; simpl; [| by split].
  destruct (existsb _ records); simpl; by split.
Qed.

Lemma con_buscar_vacio (p0 : pystr) (records : Store) (items : list JSON) :
  (ConHilos.handle_buscar env [p0; student_id] records).1
  = Return (resp_ok (JArr items)) ->
  forall d, In (JObj d) items -> dict_get (py "Nombre") d = None.
Proof.
  unfold ConHilos.handle_buscar.
  open_records; [| discriminate].
  destruct (map row_dict (List.filter _ records)) as [|rr rows] eqn:E;
    [discriminate |].
  intros [= <-] d Hd.
  apply (in_map_iff
           (fun rr => JObj (enrich (load_estudiantes_map (estudiantes env)
                                      !! student_id) rr))
           (rr :: rows)) in Hd as (rr' & [= <-] & Hin).
  rewrite (enrich_vacio _ _ est_map_vacio).
  rewrite <- E in Hin. apply in_map_iff in Hin as (r & <- & _).
  apply nombre_row_dict.
Qed.

Lemma con_listar_vacio (parts : list pystr) (records : Store)
  (items : list JSON) :
  (ConHilos.handle_listar env parts records).1
  = Return (resp_ok (JArr items)) ->
  forall d, In (JObj d) items ->
            dict_get (py "ID_Estudiante") d = Some (JStr student_id) ->
            dict_get (py "Nombre") d = None.
Proof.
  unfold ConHilos.handle_listar.
  destruct parts as [|p0 [|? ?]]; try discriminate.
  open_records; [| discriminate].
  intros [= <-] d Hd. apply in_map_iff in Hd as (r & [= <-] & Hin).
  rewrite id_enriched. intros [= ->].
  rewrite (enrich_vacio _ _ est_map_vacio). apply nombre_row_dict.
Qed.

Lemma con_buscar_as_absent (parts : list pystr) (records : Store) :
  ConHilos.handle_buscar env parts records
  = ConHilos.handle_buscar (sin_estudiante student_id env) parts records.
Proof.
  unfold ConHilos.handle_buscar.
  destruct parts as [|p0 [|sid [|? ?]]]; try done.
  open_records; [| done].
  destruct (map row_dict _) as [|rr rows]; [done |].
  do 4 f_equal. apply map_ext. intros d.
  by rewrite (enrich_same_as_absent student_id env sid d Hvacio).
Qed.

Lemma con_listar_as_absent (parts : list pystr) (records : Store) :
  ConHilos.handle_listar env parts records
  = ConHilos.handle_listar (sin_estudiante student_id env) parts records.
Proof.
  unfold ConHilos.handle_listar.
  destruct parts as [|p0 [|? ?]]; try done.
  open_records; [| done].
  do 4 f_equal. apply map_ext. intros r.
  by rewrite (enrich_same_as_absent student_id env _ _ Hvacio).
Qed.
End EmptyName.

(** C9. A roster row with an empty name. When the roster has a row for
    student_id and the Nombre of it is the empty string (every row of that
    id, should the file repeat one), AGREGAR treats the student as
    present: the insert is never answered with the missing-roster error,
    and an ok response carries Nombre equal to the empty string. BUSCAR
    and LISTAR return the student's records without any Nombre field, and
    answer exactly as they do when the roster has no row for the
    student. *)
Theorem empty_roster_name `{PyRuntime} (env : Env) (student_id : pystr) :
  (exists row, In row (estudiantes env) /\ est_id row = student_id) ->
  nombre_vacio student_id (estudiantes env) ->
  get_estudiante_nombre (estudiantes env) student_id = Some []
  /\ (forall (p0 nombre materia calificacion : pystr) (records : Store),
         let out := ConHilos.handle_agregar env
                      [p0; student_id; nombre; materia; calificacion]
                      records in
         out.1 <> Return (resp_error msg_sin_estudiante)
         /\ (status_of (reply out.1) = Some (py "ok") ->
             out.1 = Return (inserted (mkRow student_id materia calificacion)
                                      [])))
  /\ (forall (p0 : pystr) (records : Store) (items : list JSON),
         (ConHilos.handle_buscar env [p0; student_id] records).1
         = Return (resp_ok (JArr items)) ->
         forall d, In (JObj d) items -> dict_get (py "Nombre") d = None)
  /\ (forall (parts : list pystr) (records : Store) (items : list JSON),
         (ConHilos.handle_listar env parts records).1
         = Return (resp_ok (JArr items)) ->
         forall d, In (JObj d) items ->
                   dict_get (py "ID_Estudiante") d = Some (JStr student_id) ->
                   dict_get (py "Nombre") d = None)
  /\ (forall (parts : list pystr) (records : Store),
         ConHilos.handle_buscar env parts records
         = ConHilos.handle_buscar (sin_estudiante student_id env) parts records
         /\ ConHilos.handle_listar env parts records
            = ConHilos.handle_listar (sin_estudiante student_id env) parts
                records)
  /\ get_estudiante_nombre (estudiantes (sin_estudiante student_id env))
       student_id = None.
Proof.
  intros Hentry Hvacio. split_and!.
  - by apply get_estudiante_nombre_vacio.
  - intros. by apply con_agregar_vacio.
  - intros p0 records items. by apply con_buscar_vacio.
  - intros parts records items. by apply con_listar_vacio.
  - intros parts records.
    split; [by apply con_buscar_as_absent | by apply con_listar_as_absent].
  - apply get_estudiante_nombre_absent.
Qed.

Lemma empty_roster_name_witness :
  let env := mkEnv [mkEstudiante (py "1") (Some (py "Ana"));
                    mkEstudiante (py "3") (Some [])]
                   (nrc_resp example_env) in
  (exists row, In row (estudiantes env) /\ est_id row = py "3")
  /\ (ConHilos.handle_agregar (H := example_runtime) env
        [py "AGREGAR"; py "3"; py "x"; py "MAT101"; py "8"] []).1
     = Return (inserted (mkRow (py "3") (py "MAT101") (py "8")) []).
Proof.
  cbv zeta.
  assert (Hentry : exists row,
             In row [mkEstudiante (py "1") (Some (py "Ana"));
                     mkEstudiante (py "3") (Some [])]
             /\ est_id row = py "3").
  { exists (mkEstudiante (py "3") (Some [])). split; [right; by left | done]. }
  assert (Hvacio : nombre_vacio (py "3")
                     [mkEstudiante (py "1") (Some (py "Ana"));
                      mkEstudiante (py "3") (Some [])]).
  { intros row [<- | [<- | []]]; [discriminate | done]. }
  split; [exact Hentry |].
  apply (proj1 (proj2 (empty_roster_name (H := example_runtime)
                         (mkEnv [mkEstudiante (py "1") (Some (py "Ana"));
                                 mkEstudiante (py "3") (Some [])]
                                (nrc_resp example_env))
                         (py "3") Hentry Hvacio))
           (py "AGREGAR") (py "x") (py "MAT101") (py "8") []).
  reflexivity.
Defined.

(** * The catalog client *)

Section NrcClientFacts.
Context `{PyRuntime}.

Lemma recv_loop_step (recv : nat -> ConHilos.RecvResult) (fuel k : nat)
  (data : list N) :
  ConHilos.recv_loop (S fuel) recv k data
  = match recv k with
    | ConHilos.RecvRaises e => Some (Raise e)
    | ConHilos.Chunk [] => Some (Return data)
    | ConHilos.Chunk chunk =>
        if existsb (N.eqb NEWLINE) chunk then Some (Return (data ++ chunk))
        else ConHilos.recv_loop fuel recv (S k) (data ++ chunk)
    end.
Proof. reflexivity. Qed.

Lemma recv_loop_more_fuel (recv : nat -> ConHilos.RecvResult)
  (fuel fuel' k : nat) (data : list N) (out : Outcome (list N)) :
  ConHilos.recv_loop fuel recv k data = Some out ->
  (fuel <= fuel')%nat ->
  ConHilos.recv_loop fuel' recv k data = Some out.
Proof.
  revert fuel' k data. induction fuel as [|fuel IH]; intros fuel' k data;
    [done |].
  intros Hr Hle. destruct fuel' as [|fuel']; [lia |].
  rewrite recv_loop_step in *.
  destruct (recv k) as [[|b chunk]|e]; try done.
  destruct (existsb _ _); [done |]. apply IH; [done | lia].
Qed.


Lemma recv_loop_drip (fuel k : nat) (data : list N) :
  ConHilos.recv_loop fuel (ConHilos.recv drip_peer) k data = None.
Proof.
  revert k data. induction fuel as [|fuel IH]; intros k data; simpl; [done |].
  apply IH.
Qed.


Lemma consultar_nrc_more_fuel (fuel fuel' : nat) (p : ConHilos.Peer)
  (out : Outcome JSON) :
  ConHilos.consultar_nrc fuel p = Some out ->
  (fuel <= fuel')%nat ->
  ConHilos.consultar_nrc fuel' p = Some out.
Proof.
  unfold ConHilos.consultar_nrc, ConHilos.exchange. intros Hr Hle.
  destruct (ConHilos.connect_raises p); [done |].
  destruct (ConHilos.sendall_raises p); [done |].
  destruct (ConHilos.recv_loop fuel _ 0 []) as [res|] eqn:E; [| done].
  by rewrite (recv_loop_more_fuel _ _ _ _ _ _ E Hle).
Qed.

Lemma lookup_returns_unique (p : ConHilos.Peer) (v1 v2 : JSON) :
  lookup_returns p v1 -> lookup_returns p v2 -> v1 = v2.
Proof.
  intros [f1 H1] [f2 H2].
  pose proof (consultar_nrc_more_fuel f1 (max f1 f2) p _ H1
                (Nat.le_max_l f1 f2)) as E1.
  pose proof (consultar_nrc_more_fuel f2 (max f1 f2) p _ H2
                (Nat.le_max_r f1 f2)) as E2.
  rewrite E1 in E2. by injection E2.
Qed.








End NrcClientFacts.


Example consultar_nrc_one_line :
  ConHilos.consultar_nrc (H := example_runtime) 1 (one_line_peer not_found_line)
  = Some (Return (JObj [(py "status", JStr (py "not_found"))])).
Proof. reflexivity. Qed.

Example consultar_nrc_garbage :
  ConHilos.consultar_nrc (H := example_runtime) 1 (one_line_peer (py "<html>"))
  = Some (Return (resp_error (py "NRC JSON inválido: <html>"))).
Proof. reflexivity. Qed.



(** * Two inserts of the same pair under interleaving *)

Lemma forall_bool (P : bool -> Prop) (i : bool) :
  (forall j, P j) <-> P i /\ P (negb i).
Proof.
  split; [by intros HP; split |].
  intros [Hi Hn] j. destruct i, j; done.
Qed.

Lemma set_pc_same (i : bool) (p : Threads.Pc) (pcs : bool -> Threads.Pc) :
  Threads.set_pc i p pcs i = p.
Proof. unfold Threads.set_pc. by destruct i. Qed.

Lemma set_pc_other (i : bool) (p : Threads.Pc) (pcs : bool -> Threads.Pc) :
  Threads.set_pc i p pcs (negb i) = pcs (negb i).
Proof. unfold Threads.set_pc. by destruct i. Qed.

(** Runs the steps of a schedule, using the equations at hand for the
    tests the steps make. *)
Ltac thread_run :=
  cbn [Threads.run repeat];
  unfold Threads.step, Threads.step_thread;
  repeat (cbn [Threads.run repeat Threads.pc Threads.csv Threads.lock
               Threads.init Threads.set_pc Threads.req_parts
               Threads.req_env Bool.eqb Threads.student_id Threads.materia
               Threads.calificacion Threads.nombre_canonico Threads.new_row
               fst snd];
          try match goal with
              | E : ?x = _ |- context [?x] => rewrite E
              end).

(** A thread that runs with nobody else around does what
    [ConHilos.handle_agregar] does. *)
Lemma thread_alone `{PyRuntime} (env : Env) (parts : list pystr)
  (rows : Store) :
  let reqs := fun _ : bool => Threads.mkRequest env parts in
  let c := Threads.run reqs (repeat true 7) (Threads.init rows) in
  Threads.pc c true
  = Threads.Done (ConHilos.handle_agregar env parts rows).1
  /\ Threads.csv c = (ConHilos.handle_agregar env parts rows).2
  /\ Threads.lock c = None.
Proof.
  cbv zeta. unfold ConHilos.handle_agregar.
  destruct parts as [|p0 [|a [|b [|m [|g [|? ?]]]]]]; try done.
  destruct (nrc_resp env m) as [answer|e] eqn:En; [| by thread_run].
  destruct answer; try (by thread_run).
  destruct (get_is _ (py "error")) eqn:Ee; [by thread_run |].
  destruct (get_is _ (py "not_found")) eqn:Ef; [by thread_run |].
  destruct (get_estudiante_nombre _ _) eqn:Er; [| by thread_run].
  unfold with_records.
  destruct (load_records rows) as [records|e] eqn:El; [| by thread_run].
  destruct (load_records_return _ _ El) as [-> _].
  destruct (existsb _ rows) eqn:Ex; by thread_run.
Qed.

Lemma exists_bool (P : bool -> Prop) (i : bool) :
  (exists w, P w) <-> P i \/ P (negb i).
Proof.
  split.
  - intros [w Hw]. destruct i, w; auto.
  - intros [Hi | Hn]; eauto.
Qed.

Lemma race_inv_seen_from (ls : bool -> Threads.Locals) (csv0 : Store)
  (c : Threads.Config) (i : bool) :
  race_inv ls csv0 c
  <-> race_inv_from ls csv0 i (Threads.pc c i) (Threads.pc c (negb i))
        (Threads.csv c) (Threads.lock c).
Proof.
  unfold race_inv, race_inv_from.
  rewrite !(forall_bool _ i), (exists_bool _ i), negb_involutive.
  tauto.
Qed.

Lemma step_fewer_left `{PyRuntime} (reqs : bool -> Threads.Request) (i : bool)
  (c c' : Threads.Config) :
  Threads.step reqs i c = Some c' ->
  (Threads.steps_left c' < Threads.steps_left c)%nat.
Proof.
  unfold Threads.step, Threads.steps_left.
  destruct (Threads.step_thread _ _ _ _ _) as [[[p' rows'] holder']|] eqn:E;
    [| discriminate].
  intros [= <-]. simpl.
  assert (Hrank : (Threads.rank p' < Threads.rank (Threads.pc c i))%nat).
  { unfold Threads.step_thread in E.
    destruct (Threads.pc c i); simpl;
      repeat match type of E with
             | match ?x with _ => _ end = _ => destruct x
             | (if ?x then _ else _) = _ => destruct x
             end;
      try discriminate; injection E as <- _ _; simpl; lia. }
  unfold Threads.set_pc. destruct i; simpl; lia.
Qed.

Lemma run_reach `{PyRuntime} (reqs : bool -> Threads.Request)
  (schedule : list bool) (c : Threads.Config) :
  Threads.reach reqs c (Threads.run reqs schedule c).
Proof.
  revert c. induction schedule as [|i rest IH]; intros c; simpl.
  - apply Threads.reach_refl.
  - destruct (Threads.step reqs i c) as [c1|] eqn:E; [| apply IH].
    by apply (Threads.reach_step reqs c i c1).
Qed.

Section Race.
Context `{PyRuntime}.
Variable reqs : bool -> Threads.Request.
Variables sid mat : pystr.
Variables cal nm : bool -> pystr.
Variable csv0 : Store.
Hypothesis Hparts : forall i, exists p0 nombre,
  Threads.req_parts (reqs i) = [p0; sid; nombre; mat; cal i].
Hypothesis Hcat : forall i,
  lookup_passes (nrc_resp (Threads.req_env (reqs i)) mat) = true.
Hypothesis Hros : forall i,
  get_estudiante_nombre (estudiantes (Threads.req_env (reqs i))) sid
  = Some (nm i).
Hypothesis Hfresh : existsb (same_key sid mat) csv0 = false.
Hypothesis Hread : readable csv0 = true.
Hypothesis Hfits : forall i, readable_row (mkRow sid mat (cal i)) = true.

Lemma step_start (i : bool) (rows : Store) (holder : option bool) :
  Threads.step_thread (reqs i) i Threads.AtStart rows holder
  = Some (Threads.AtRoster sid mat (cal i), rows, holder).
Proof.
  destruct (Hparts i) as (p0 & nombre & Hp). specialize (Hcat i).
  unfold Threads.step_thread. rewrite Hp.
  unfold lookup_passes, nrc_passes in Hcat.
  destruct (nrc_resp _ mat) as [answer|e]; [| discriminate].
  destruct answer; try discriminate.
  apply andb_true_iff in Hcat as [He Hn].
  apply negb_true_iff in He. apply negb_true_iff in Hn.
  by rewrite He, Hn.
Qed.

Lemma step_roster (i : bool) (rows : Store) (holder : option bool) :
  Threads.step_thread (reqs i) i (Threads.AtRoster sid mat (cal i)) rows holder
  = Some (Threads.AtLock (race_locals sid mat cal nm i), rows, holder).
Proof. unfold Threads.step_thread. by rewrite Hros. Qed.

Lemma race_row_stored (i : bool) :
  existsb (same_key sid mat)
    (csv0 ++ [Threads.new_row (race_locals sid mat cal nm i)]) = true.
Proof.
  rewrite existsb_app. apply orb_true_iff. right. simpl.
  unfold same_key. simpl. by rewrite !str_eqb_refl.
Qed.

Lemma race_rows_readable (rows : Store) :
  rows = csv0
  \/ (exists w, rows
                = csv0 ++ [Threads.new_row (race_locals sid mat cal nm w)]) ->
  readable rows = true.
Proof.
  intros [-> | [w ->]]; [done |]. apply readable_snoc; [done | apply Hfits].
Qed.

Lemma step_load (i : bool) (l : Threads.Locals) (rows : Store)
  (holder : option bool) :
  readable rows = true ->
  Threads.step_thread (reqs i) i (Threads.InLoad l) rows holder
  = Some (Threads.InCheck l rows, rows, holder).
Proof.
  intros Hr. unfold Threads.step_thread, load_records. by rewrite Hr.
Qed.

Lemma other_not_holding (i : bool) (p q : Threads.Pc) (holder : option bool) :
  (holder = Some i <-> Threads.holds p = true) ->
  (holder = Some (negb i) <-> Threads.holds q = true) ->
  Threads.holds p = true ->
  Threads.holds q = false.
Proof.
  intros Hli Hlj Hp. apply Hli in Hp. subst holder.
  destruct (Threads.holds q); [| done].
  destruct Hlj as [_ Hlj]. specialize (Hlj eq_refl).
  injection Hlj as E. by destruct i.
Qed.

Lemma race_step_from (i : bool) (p q p' : Threads.Pc) (rows rows' : Store)
  (holder holder' : option bool) :
  race_inv_from (race_locals sid mat cal nm) csv0 i p q rows holder ->
  Threads.step_thread (reqs i) i p rows holder = Some (p', rows', holder') ->
  race_inv_from (race_locals sid mat cal nm) csv0 i p' q rows' holder'.
Proof.
  unfold race_inv_from.
  intros (Hp & Hq & Hli & Hlj & Hst) Hstep.
  destruct p as [|s m c|l|l|l recs|l recs|out|out].
  - rewrite step_start in Hstep. injection Hstep as <- <- <-.
    simpl in *. split_and!; try done.
    destruct Hst as [(? & _ & ?) | [(_ & [? | ?] & _) | (? & ? & _)]];
      try discriminate; auto.
  - simpl in Hp. destruct Hp as (-> & -> & ->).
    rewrite step_roster in Hstep. injection Hstep as <- <- <-.
    simpl in *. split_and!; try done.
    destruct Hst as [(? & _ & ?) | [(_ & [? | ?] & _) | (? & ? & _)]];
      try discriminate; auto.
  - simpl in Hp. subst l. simpl in Hstep.
    destruct holder as [k|]; [discriminate |].
    injection Hstep as <- <- <-. simpl in *. split_and!; try done.
    + split; [intros [= E]; by destruct i |].
      intros E. apply Hlj in E. discriminate.
    + destruct Hst as [(? & _ & ?) | [(_ & [? | ?] & _) | (? & ? & _)]];
        try discriminate; auto.
  - simpl in Hp. subst l.
    rewrite step_load in Hstep.
    2:{ apply race_rows_readable.
        destruct Hst as [(? & _) | [(? & _) | (? & _)]];
          [by left | right; by eexists | right; by eexists]. }
    injection Hstep as <- <- <-. simpl in *. split_and!; try done.
    destruct Hst as [(? & _ & ?) | [(_ & [? | ?] & _) | (? & ? & _)]];
      try discriminate; auto.
  - simpl in Hp. destruct Hp as [-> ->]. simpl in Hstep.
    destruct Hst as [(-> & _ & Hbq) | [(_ & [? | ?] & _) | (-> & Hw & _)]];
      try discriminate.
    + rewrite Hfresh in Hstep. injection Hstep as <- <- <-.
      simpl. split_and!; try done. by left.
    + rewrite race_row_stored in Hstep. injection Hstep as <- <- <-.
      simpl. split_and!; try done. right. right. by split_and!.
  - simpl in Hp. destruct Hp as [-> ->]. simpl in Hstep.
    injection Hstep as <- <- <-.
    pose proof (other_not_holding i _ q holder Hli Hlj eq_refl) as Hnq.
    destruct Hst as [(-> & _ & Hbq) | [(_ & [? | ?] & _) | (_ & _ & [])]];
      try discriminate.
    split_and!; try done.
    + destruct q; try done; discriminate.
    + right. left. split_and!; [done | by left |].
      destruct q; try done; discriminate.
  - simpl in Hstep. injection Hstep as <- <- <-.
    pose proof (other_not_holding i _ q holder Hli Hlj eq_refl) as Hnq.
    simpl. split_and!; try done.
    + rewrite Hnq. by split.
    + destruct Hst as [(_ & [] & _) | [(? & [[= ->] | ?] & ?) | (? & ? & ?)]];
        try discriminate.
      * right. left. split_and!; [done | by right | done].
      * right. right. by split_and!.
  - discriminate.
Qed.

Lemma race_inv_init :
  race_inv (race_locals sid mat cal nm) csv0 (Threads.init csv0).
Proof.
  unfold race_inv, Threads.init. simpl. split_and!; try done.
  by left.
Qed.

Lemma race_inv_step (i : bool) (c c' : Threads.Config) :
  race_inv (race_locals sid mat cal nm) csv0 c ->
  Threads.step reqs i c = Some c' ->
  race_inv (race_locals sid mat cal nm) csv0 c'.
Proof.
  intros Hinv Hstep. unfold Threads.step in Hstep.
  destruct (Threads.step_thread _ _ _ _ _) as [[[p' rows'] holder']|] eqn:E;
    [| discriminate].
  injection Hstep as <-.
  apply (race_inv_seen_from _ _ _ i). simpl.
  rewrite set_pc_same, set_pc_other.
  apply (race_step_from i (Threads.pc c i) _ _ (Threads.csv c) _
           (Threads.lock c)); [| done].
  by apply race_inv_seen_from.
Qed.

Lemma race_inv_reach (c c' : Threads.Config) :
  Threads.reach reqs c c' ->
  race_inv (race_locals sid mat cal nm) csv0 c ->
  race_inv (race_locals sid mat cal nm) csv0 c'.
Proof.
  induction 1 as [c | c i c1 c2 Hstep _ IH]; [done |].
  intros Hinv. apply IH. by apply (race_inv_step i c).
Qed.

Lemma race_one_record (w : bool) :
  List.filter (same_key sid mat)
    (csv0 ++ [Threads.new_row (race_locals sid mat cal nm w)])
  = [Threads.new_row (race_locals sid mat cal nm w)].
Proof.
  rewrite List.filter_app.
  assert (Hnone : List.filter (same_key sid mat) csv0 = []).
  { clear -Hfresh. induction csv0 as [|r rest IH]; simpl in *; [done |].
    apply orb_false_iff in Hfresh as [-> Hrest]. by apply IH. }
  rewrite Hnone. simpl. unfold same_key. simpl. by rewrite !str_eqb_refl.
Qed.

Lemma race_outcome (c : Threads.Config) (o1 o2 : Outcome JSON) :
  race_inv (race_locals sid mat cal nm) csv0 c ->
  Threads.pc c true = Threads.Done o1 ->
  Threads.pc c false = Threads.Done o2 ->
  exists w : bool,
    (if w then o1 else o2) = won (race_locals sid mat cal nm w)
    /\ (if w then o2 else o1) = lost_out
    /\ Threads.csv c
       = csv0 ++ [Threads.new_row (race_locals sid mat cal nm w)].
Proof.
  intros (_ & _ & Hst) H1 H2.
  destruct Hst as [(_ & Hb) | (w & Hcsv & Hw & Hl)].
  - specialize (Hb true). by rewrite H1 in Hb.
  - exists w. destruct w; simpl in *; rewrite ?H1, ?H2 in *; simpl in *;
      destruct Hw as [? | [= ->]]; try discriminate; by split_and!.
Qed.

Lemma race_at_most_one (c : Threads.Config) :
  race_inv (race_locals sid mat cal nm) csv0 c ->
  (length (List.filter (same_key sid mat) (Threads.csv c)) <= 1)%nat.
Proof.
  intros (_ & _ & [(-> & _) | (w & -> & _)]).
  - assert (Hnone : List.filter (same_key sid mat) csv0 = []).
    { clear -Hfresh. induction csv0 as [|r rest IH]; simpl in *; [done |].
      apply orb_false_iff in Hfresh as [-> Hrest]. by apply IH. }
    rewrite Hnone. simpl. lia.
  - by rewrite race_one_record.
Qed.

Lemma race_progress (c : Threads.Config) :
  race_inv (race_locals sid mat cal nm) csv0 c ->
  (exists o1 o2, Threads.pc c true = Threads.Done o1
                 /\ Threads.pc c false = Threads.Done o2)
  \/ exists i c', Threads.step reqs i c = Some c'.
Proof.
  intros (Hwf & Hlock & _).
  assert (Hmove : forall i,
             (exists o, Threads.pc c i = Threads.Done o)
             \/ (exists l, Threads.pc c i = Threads.AtLock l)
             \/ exists c', Threads.step reqs i c = Some c').
  { intros i. unfold Threads.step.
    destruct (Threads.pc c i) eqn:E; try (right; right; by eexists).
    - right. right. rewrite step_start. by eexists.
    - right. right. specialize (Hwf i). rewrite E in Hwf. simpl in Hwf.
      destruct Hwf as (-> & -> & ->). rewrite step_roster. by eexists.
    - right. left. by eexists.
    - right. right. unfold Threads.step_thread.
      destruct (load_records _); by eexists.
    - right. right. unfold Threads.step_thread.
      destruct (existsb _ records); by eexists.
    - left. by eexists. }
  assert (Hfree : Threads.lock c = None ->
            forall i l, Threads.pc c i = Threads.AtLock l ->
                        exists c', Threads.step reqs i c = Some c').
  { intros Hnone i l E. unfold Threads.step. rewrite E, Hnone. simpl.
    by eexists. }
  destruct (Threads.lock c) as [k|] eqn:Ek.
  - right. exists k. pose proof (proj1 (Hlock k) eq_refl) as Hk.
    destruct (Hmove k) as [[o E] | [[l E] | Hs]]; [| | done];
      rewrite E in Hk; discriminate.
  - destruct (Hmove true) as [[o1 E1] | [[l E] | Hs]];
      [| right; exists true; by apply (Hfree eq_refl true l)
       | right; by exists true].
    destruct (Hmove false) as [[o2 E2] | [[l E] | Hs]];
      [| right; exists false; by apply (Hfree eq_refl false l)
       | right; by exists false].
    left. by exists o1, o2.
Qed.

Lemma race_completes (c : Threads.Config) :
  race_inv (race_locals sid mat cal nm) csv0 c ->
  exists c' o1 o2,
    Threads.reach reqs c c'
    /\ Threads.pc c' true = Threads.Done o1
    /\ Threads.pc c' false = Threads.Done o2.
Proof.
  remember (Threads.steps_left c) as n eqn:Hn. revert c Hn.
  induction n as [n IH] using lt_wf_ind. intros c -> Hinv.
  destruct (race_progress c Hinv) as [(o1 & o2 & H1 & H2) | (i & c1 & Hstep)].
  - exists c, o1, o2. split_and!; [apply Threads.reach_refl | done | done].
  - pose proof (step_fewer_left reqs i c c1 Hstep) as Hlt.
    destruct (IH _ Hlt c1 eq_refl (race_inv_step i c c1 Hinv Hstep))
      as (c' & o1 & o2 & Hreach & H1 & H2).
    exists c', o1, o2. split_and!; [| done | done].
    by apply (Threads.reach_step reqs c i c1).
Qed.
End Race.

(** C2, as stated, fails: two concurrent inserts of the same pair for a
    student who is not on the roster, on a store without the pair, are
    both answered with an error, and the store holds no record for the
    pair afterwards. *)
Lemma first_committer_counterexample :
  let reqs := race_requests (py "5") in
  let c := Threads.run (H := example_runtime) reqs
             [true; false; true; false] (Threads.init []) in
  Threads.reach (H := example_runtime) reqs (Threads.init []) c
  /\ Threads.pc c true = Threads.Done (Return (resp_error msg_sin_estudiante))
  /\ Threads.pc c false = Threads.Done (Return (resp_error msg_sin_estudiante))
  /\ List.filter (same_key (py "5") (py "MAT101")) (Threads.csv c) = [].
Proof.
  cbv zeta. split; [apply run_reach |]. by vm_compute.
Qed.

(** C2, amended. First committer wins. Two concurrently served AGREGAR
    requests with the four argument fields and the same
    (student_id, subject_code), both of which get past the catalog and the
    roster checks, start from a store without that pair that can be read;
    the fields they store are no longer than the field limit of the
    reader. Whatever the interleaving of their steps: when both have
    returned, one of them has returned status ok and the other the
    duplicate error, and the store holds exactly one record for the pair;
    at no moment does the store hold two; and the run never gets stuck,
    each step bringing the two threads closer to their returns. *)
Theorem first_committer_wins `{PyRuntime} (reqs : bool -> Threads.Request)
  (sid mat : pystr) (cal nm : bool -> pystr) (csv0 : Store) :
  (forall i, exists p0 nombre,
      Threads.req_parts (reqs i) = [p0; sid; nombre; mat; cal i]) ->
  (forall i, lookup_passes (nrc_resp (Threads.req_env (reqs i)) mat) = true) ->
  (forall i, get_estudiante_nombre (estudiantes (Threads.req_env (reqs i))) sid
             = Some (nm i)) ->
  existsb (same_key sid mat) csv0 = false ->
  readable csv0 = true ->
  (forall i, readable_row (mkRow sid mat (cal i)) = true) ->
  forall c : Threads.Config,
    Threads.reach reqs (Threads.init csv0) c ->
    (forall o1 o2 : Outcome JSON,
        Threads.pc c true = Threads.Done o1 ->
        Threads.pc c false = Threads.Done o2 ->
        exists w : bool,
          let row := mkRow sid mat (cal w) in
          (if w then o1 else o2) = Return (inserted row (nm w))
          /\ (if w then o2 else o1) = Return (resp_error msg_duplicate)
          /\ status_of (reply (if w then o1 else o2)) = Some (py "ok")
          /\ status_of (reply (if w then o2 else o1)) = Some (py "error")
          /\ Threads.csv c = csv0 ++ [row]
          /\ List.filter (same_key sid mat) (Threads.csv c) = [row])
    /\ (length (List.filter (same_key sid mat) (Threads.csv c)) <= 1)%nat
    /\ (exists c' o1 o2,
           Threads.reach reqs c c'
           /\ Threads.pc c' true = Threads.Done o1
           /\ Threads.pc c' false = Threads.Done o2)
    /\ (forall i c', Threads.step reqs i c = Some c' ->
                     (Threads.steps_left c' < Threads.steps_left c)%nat).
Proof.
  intros Hparts Hcat Hros Hfresh Hread Hfits c Hreach.
  pose proof (race_inv_reach reqs sid mat cal nm csv0 Hparts Hcat Hros Hfresh
                Hread Hfits _ _ Hreach (race_inv_init sid mat cal nm csv0))
    as Hinv.
  split_and!.
  - intros o1 o2 H1 H2.
    destruct (race_outcome sid mat cal nm csv0 c o1 o2 Hinv H1 H2)
      as (w & Hw & Hl & Hcsv).
    exists w. cbv zeta. rewrite Hw, Hl, Hcsv.
    split_and!; try done.
    by apply (race_one_record sid mat cal nm csv0 Hfresh w).
  - by apply (race_at_most_one sid mat cal nm csv0 Hfresh).
  - by apply (race_completes reqs sid mat cal nm csv0 Hparts Hcat Hros Hfresh
                Hread Hfits).
  - intros i c'. apply step_fewer_left.
Qed.

Lemma first_committer_wins_witness :
  let reqs := race_requests (py "1") in
  let cal := fun i : bool => if i then py "9" else py "7" in
  let c := Threads.run (H := example_runtime) reqs
             [true; false; false; true; false; true; false; false; false;
              true; true; true; true; false; false; true; true; true; true]
             (Threads.init []) in
  existsb (same_key (py "1") (py "MAT101")) [] = false
  /\ readable [] = true
  /\ Threads.pc c true
     = Threads.Done (Return (resp_error msg_duplicate))
  /\ (length (List.filter (same_key (py "1") (py "MAT101")) (Threads.csv c))
      <= 1)%nat.
Proof.
  cbv zeta. split; [reflexivity |]. split; [reflexivity |].
  split; [by vm_compute |].
  refine (proj1 (proj2 (first_committer_wins (H := example_runtime)
            (race_requests (py "1")) (py "1") (py "MAT101")
            (fun i : bool => if i then py "9" else py "7")
            (fun _ => py "Ana") [] _ _ _ eq_refl eq_refl _ _
            (run_reach _ _ _)))).
  - intros i. exists (py "AGREGAR"), (py "x"). by destruct i.
  - intros i. by destruct i.
  - intros i. by destruct i.
  - intros i. by destruct i.
Defined.

(** * Every response has a status, and only ok responses change the store *)

Ltac sound_case :=
  split;
  [ first [ left; eexists; reflexivity
          | right; left; eexists; reflexivity
          | right; right; eexists; reflexivity ]
  | first [ reflexivity | intros Hne; exfalso; apply Hne; reflexivity ] ].

Section HandlerSound.
Context `{PyRuntime}.
Variable env : Env.

Lemma con_agregar_sound (parts : list pystr) (records : Store) :
  handler_sound records (ConHilos.handle_agregar env parts records).
Proof.
  unfold handler_sound, ConHilos.handle_agregar.
  handler_cases; cbn [fst snd reply]; sound_case.
Qed.

Lemma sin_agregar_sound (parts : list pystr) (records : Store) :
  handler_sound records (SinHilos.handle_agregar env parts records).
Proof.
  unfold handler_sound, SinHilos.handle_agregar.
  handler_cases; cbn [fst snd reply]; sound_case.
Qed.

Lemma con_buscar_sound (parts : list pystr) (records : Store) :
  handler_sound records (ConHilos.handle_buscar env parts records).
Proof.
  unfold handler_sound, ConHilos.handle_buscar.
  handler_cases; cbn [fst snd reply]; sound_case.
Qed.

Lemma sin_buscar_sound (parts : list pystr) (records : Store) :
  handler_sound records (SinHilos.handle_buscar env parts records).
Proof.
  unfold handler_sound, SinHilos.handle_buscar.
  handler_cases; cbn [fst snd reply]; sound_case.
Qed.

Lemma con_actualizar_sound (parts : list pystr) (records : Store) :
  handler_sound records (ConHilos.handle_actualizar parts records).
Proof.
  unfold handler_sound, ConHilos.handle_actualizar.
  handler_cases; cbn [fst snd reply negb]; sound_case.
Qed.

Lemma con_listar_sound (parts : list pystr) (records : Store) :
  handler_sound records (ConHilos.handle_listar env parts records).
Proof.
  unfold handler_sound, ConHilos.handle_listar.
  handler_cases; cbn [fst snd reply]; sound_case.
Qed.

Lemma con_eliminar_sound (parts : list pystr) (records : Store) :
  handler_sound records (ConHilos.handle_eliminar parts records).
Proof.
  unfold handler_sound, ConHilos.handle_eliminar, ConHilos.eliminar.
  handler_cases; cbn [fst snd reply]; sound_case.
Qed.

Lemma con_process_sound (line : pystr) (records : Store) :
  handler_sound records (ConHilos.process_command env line records).
Proof.
  unfold ConHilos.process_command.
  destruct (if truthy (strip line) then _ else _) as [|p0 rest];
    [unfold handler_sound; cbn [fst snd reply]; sound_case |].
  destruct (str_eqb _ (py "AGREGAR")); [apply con_agregar_sound |].
  destruct (str_eqb _ (py "BUSCAR")); [apply con_buscar_sound |].
  destruct (str_eqb _ (py "ACTUALIZAR")); [apply con_actualizar_sound |].
  destruct (str_eqb _ (py "LISTAR")); [apply con_listar_sound |].
  destruct (str_eqb _ (py "ELIMINAR")); [apply con_eliminar_sound |].
  unfold handler_sound; cbn [fst snd reply]; sound_case.
Qed.

Lemma sin_process_sound (line : pystr) (records : Store) :
  handler_sound records (SinHilos.process_command env line records).
Proof.
  unfold SinHilos.process_command.
  destruct (if truthy (strip line) then _ else _) as [|p0 rest];
    [unfold handler_sound; cbn [fst snd reply]; sound_case |].
  destruct (str_eqb _ (py "AGREGAR")); [apply sin_agregar_sound |].
  destruct (str_eqb _ (py "BUSCAR")); [apply sin_buscar_sound |].
  destruct (str_eqb _ (py "ACTUALIZAR")); [apply con_actualizar_sound |].
  destruct (str_eqb _ (py "LISTAR")); [apply con_listar_sound |].
  destruct (str_eqb _ (py "ELIMINAR")); [apply con_eliminar_sound |].
  unfold handler_sound; cbn [fst snd reply]; sound_case.
Qed.
End HandlerSound.

Lemma well_formed_status (resp : JSON) :
  well_formed_response resp ->
  status_of resp = Some (py "ok") \/ status_of resp = Some (py "not_found")
  \/ status_of resp = Some (py "error").
Proof.
  intros [[d ->] | [[m ->] | [m ->]]]; auto.
Qed.


Lemma sin_respond_well_formed `{PyRuntime} (env : Env) (line : pystr)
  (records : Store) :
  well_formed_response (SinHilos.respond env line records).1.
Proof.
  unfold SinHilos.respond.
  pose proof (sin_process_sound env line records) as [Hs _].
  by destruct (SinHilos.process_command env line records).
Qed.

(** X1. Whatever line arrives, and whatever the store, the roster and the
    catalog hold, the response either server sends is a dict of one of
    three shapes: status ok with a data field, status not_found with a
    message, or status error with a message (an exception raised while
    dispatching is reported as the last). *)
Theorem every_response_has_status `{PyRuntime} (env : Env) (line : pystr)
  (records : Store) :
  let con := (ConHilos.respond env line records).1 in
  let sin := (SinHilos.respond env line records).1 in
  well_formed_response con
  /\ well_formed_response sin
  /\ (status_of con = Some (py "ok") \/ status_of con = Some (py "not_found")
      \/ status_of con = Some (py "error"))
  /\ (status_of sin = Some (py "ok") \/ status_of sin = Some (py "not_found")
      \/ status_of sin = Some (py "error")).
Proof.
  cbv zeta. unfold ConHilos.respond, SinHilos.respond.
  pose proof (con_process_sound env line records) as [Hc _].
  pose proof (sin_process_sound env line records) as [Hs _].
  destruct (ConHilos.process_command env line records) as [oc rc].
  destruct (SinHilos.process_command env line records) as [os rs].
  simpl in *. auto using well_formed_status.
Qed.

Lemma con_dispatch_read_only `{PyRuntime} (env : Env) (line p0 : pystr)
  (args : list pystr) (records : Store) :
  parts_of line = p0 :: args ->
  upper p0 = py "BUSCAR" \/ upper p0 = py "LISTAR" ->
  (ConHilos.process_command env line records).2 = records.
Proof.
  unfold ConHilos.process_command, parts_of. intros -> [-> | ->].
  - exact (con_buscar_store env (p0 :: args) records).
  - exact (con_listar_store env (p0 :: args) records).
Qed.

Lemma sin_dispatch_read_only `{PyRuntime} (env : Env) (line p0 : pystr)
  (args : list pystr) (records : Store) :
  parts_of line = p0 :: args ->
  upper p0 = py "BUSCAR" \/ upper p0 = py "LISTAR" ->
  (SinHilos.process_command env line records).2 = records.
Proof.
  unfold SinHilos.process_command, parts_of. intros -> [-> | ->].
  - exact (sin_buscar_store env (p0 :: args) records).
  - exact (sin_listar_store env (p0 :: args) records).
Qed.

(** X2. The store changes only together with an ok response: when the
    response of either server is not_found or error (an exception
    included), the store after the request is the store before it. And a
    BUSCAR or a LISTAR never changes the store, whatever it answers. *)
Theorem store_changes_only_with_ok `{PyRuntime} (env : Env) (line : pystr)
  (records : Store) :
  (status_of (ConHilos.respond env line records).1 <> Some (py "ok") ->
   (ConHilos.respond env line records).2 = records)
  /\ (status_of (SinHilos.respond env line records).1 <> Some (py "ok") ->
      (SinHilos.respond env line records).2 = records)
  /\ (forall (p0 : pystr) (args : list pystr),
         parts_of line = p0 :: args ->
         upper p0 = py "BUSCAR" \/ upper p0 = py "LISTAR" ->
         (ConHilos.respond env line records).2 = records
         /\ (SinHilos.respond env line records).2 = records).
Proof.
  unfold ConHilos.respond, SinHilos.respond. split_and!.
  - pose proof (con_process_sound env line records) as [_ Hc].
    destruct (ConHilos.process_command env line records) as [oc rc].
    simpl in *. done.
  - pose proof (sin_process_sound env line records) as [_ Hs].
    destruct (SinHilos.process_command env line records) as [os rs].
    simpl in *. done.
  - intros p0 args Hparts Hcmd.
    pose proof (con_dispatch_read_only env line p0 args records Hparts Hcmd).
    pose proof (sin_dispatch_read_only env line p0 args records Hparts Hcmd).
    destruct (ConHilos.process_command env line records) as [oc rc].
    destruct (SinHilos.process_command env line records) as [os rs].
    simpl in *. done.
Qed.

Lemma store_changes_only_with_ok_witness :
  status_of (ConHilos.respond (H := example_runtime) example_env
               (py "ELIMINAR|7|MAT101")
               [mkRow (py "1") (py "MAT101") (py "9")]).1
  <> Some (py "ok")
  /\ (ConHilos.respond (H := example_runtime) example_env
        (py "ELIMINAR|7|MAT101") [mkRow (py "1") (py "MAT101") (py "9")]).2
     = [mkRow (py "1") (py "MAT101") (py "9")].
Proof.
  assert (Hne : status_of (ConHilos.respond (H := example_runtime) example_env
                             (py "ELIMINAR|7|MAT101")
                             [mkRow (py "1") (py "MAT101") (py "9")]).1
                <> Some (py "ok")) by (vm_compute; discriminate).
  split; [exact Hne |].
  exact (proj1 (store_changes_only_with_ok (H := example_runtime) example_env
                  (py "ELIMINAR|7|MAT101")
                  [mkRow (py "1") (py "MAT101") (py "9")]) Hne).
Defined.

(** * The two deployments side by side *)

Lemma buscar_same `{PyRuntime} (env : Env) (parts : list pystr)
  (records : Store) :
  ConHilos.handle_buscar env parts records
  = SinHilos.handle_buscar env parts records.
Proof.
  unfold ConHilos.handle_buscar, SinHilos.handle_buscar.
  destruct parts as [|p0 [|sid [|? ?]]]; try done.
  open_records; [| done].
  destruct (List.filter (has_id sid) records) as [|r rows]; [done |].
  cbn [map]. by rewrite map_map.
Qed.

(** X3. Apart from AGREGAR the two deployments are the same service: a
    line whose command is not AGREGAR (an empty line and an unknown
    command included) gets the same outcome and leaves the same store in
    the threaded server as in the sequential one. *)
Theorem deployments_agree_off_agregar `{PyRuntime} (env : Env) (line : pystr)
  (records : Store) :
  command_of line <> Some (py "AGREGAR") ->
  ConHilos.process_command env line records
  = SinHilos.process_command env line records.
Proof.
  unfold command_of, parts_of, ConHilos.process_command,
    SinHilos.process_command.
  destruct (if truthy (strip line) then _ else _) as [|p0 rest]; [done |].
  intros Hcmd.
  destruct (str_eqb (upper p0) (py "AGREGAR")) eqn:E.
  { apply str_eqb_eq in E. by rewrite E in Hcmd. }
  by rewrite buscar_same.
Qed.

Lemma deployments_agree_off_agregar_witness :
  command_of (H := example_runtime) (py " eliminar|1 ") <> Some (py "AGREGAR")
  /\ ConHilos.process_command (H := example_runtime) example_env
       (py " eliminar|1 ") [mkRow (py "1") (py "MAT101") (py "9")]
     = SinHilos.process_command (H := example_runtime) example_env
         (py " eliminar|1 ") [mkRow (py "1") (py "MAT101") (py "9")].
Proof.
  assert (Hcmd : command_of (H := example_runtime) (py " eliminar|1 ")
                 <> Some (py "AGREGAR")) by (vm_compute; discriminate).
  split; [exact Hcmd |].
  exact (deployments_agree_off_agregar (H := example_runtime) example_env
           (py " eliminar|1 ") [mkRow (py "1") (py "MAT101") (py "9")] Hcmd).
Defined.

(** * What LISTAR and BUSCAR show *)

Lemma enrich_shows (env : Env) (r : Row) :
  shows env r
    (JObj (enrich (load_estudiantes_map (estudiantes env) !! ID_Estudiante r)
                  (row_dict r))).
Proof.
  unfold shows, nombre_mostrado. eexists. split; [reflexivity |].
  destruct (load_estudiantes_map _ !! _) as [[|c n]|]; by split_and!.
Qed.

(** X4. LISTAR shows the store. On a grade file that can be read (no
    stored field longer than the field limit of the reader) its answer
    is ok and its data has one item for every stored record, in the
    order of the store, each item carrying the three stored fields of
    its record, the Nombre of the roster map when that is non-empty, and
    nothing else. On a grade file that cannot be read the reader's
    exception leaves the handler, to be reported as an error by the
    connection handler, and the store is untouched. The same holds for
    both deployments. *)
Theorem listar_shows_store (env : Env) (p0 : pystr) (records : Store) :
  let out := ConHilos.handle_listar env [p0] records in
  SinHilos.handle_listar env [p0] records = out
  /\ (readable records = true ->
      exists items,
        out = (Return (resp_ok (JArr items)), records)
        /\ Forall2 (shows env) records items)
  /\ (readable records = false ->
      out = (Raise csv_field_error, records)
      /\ reply out.1 = resp_error msg_read_failed).
Proof.
  cbv zeta. split; [reflexivity |].
  unfold ConHilos.handle_listar. split; intros Hr.
  - rewrite with_records_readable by done.
    eexists. split; [reflexivity |].
    clear Hr. induction records as [|r rest IH]; simpl; constructor;
      [| exact IH].
    apply enrich_shows.
  - by rewrite with_records_unreadable by done.
Qed.

Lemma listar_shows_store_witness :
  readable [mkRow (py "1") (py "MAT101") (py "9")] = true
  /\ exists items,
       ConHilos.handle_listar example_env [py "LISTAR"]
         [mkRow (py "1") (py "MAT101") (py "9")]
       = (Return (resp_ok (JArr items)),
          [mkRow (py "1") (py "MAT101") (py "9")])
       /\ Forall2 (shows example_env)
            [mkRow (py "1") (py "MAT101") (py "9")] items.
Proof.
  split; [reflexivity |].
  apply (proj1 (proj2 (listar_shows_store example_env (py "LISTAR")
                         [mkRow (py "1") (py "MAT101") (py "9")]))).
  reflexivity.
Defined.

Lemma notas_de_id (student_id : pystr) (records : Store) (r : Row) :
  In r (notas_de student_id records) -> ID_Estudiante r = student_id.
Proof.
  unfold notas_de. intros [_ Hid]%filter_In. by apply has_id_true.
Qed.

Lemma listar_items_of_student (env : Env) (student_id : pystr) (rows : Store) :
  (forall r, In r rows -> ID_Estudiante r = student_id) ->
  map (fun r => JObj (enrich (load_estudiantes_map (estudiantes env)
                                !! student_id) (row_dict r))) rows
  = map (fun r => JObj (enrich (load_estudiantes_map (estudiantes env)
                                  !! ID_Estudiante r) (row_dict r))) rows.
Proof.
  intros Hid. apply map_ext_in. intros r Hr. by rewrite (Hid r Hr).
Qed.

(** X5. BUSCAR shows the records of one student. On a grade file that
    can be read: when the store has no record of the student the answer
    is not_found; otherwise it is ok and its data is what LISTAR would
    show of the student's records alone, one item per record of the
    student, in the order of the store. On a grade file that cannot be
    read the reader's exception leaves the handler and the store is
    untouched. Both deployments answer alike. *)
Theorem buscar_shows_notas `{PyRuntime} (env : Env) (p0 student_id : pystr)
  (records : Store) :
  let out := ConHilos.handle_buscar env [p0; student_id] records in
  SinHilos.handle_buscar env [p0; student_id] records = out
  /\ (readable records = true ->
      (notas_de student_id records = []
       /\ out = (Return (resp_not_found msg_no_id), records))
      \/ (notas_de student_id records <> []
          /\ exists items,
               out = (Return (resp_ok (JArr items)), records)
               /\ (ConHilos.handle_listar env [p0]
                     (notas_de student_id records)).1
                  = Return (resp_ok (JArr items))
               /\ Forall2 (shows env) (notas_de student_id records) items))
  /\ (readable records = false ->
      out = (Raise csv_field_error, records)
      /\ reply out.1 = resp_error msg_read_failed).
Proof.
  cbv zeta. split; [by rewrite buscar_same |].
  rewrite buscar_same. unfold SinHilos.handle_buscar, ConHilos.handle_listar.
  split; intros Hr; [| by rewrite with_records_unreadable by done].
  rewrite with_records_readable by done.
  rewrite (with_records_readable (notas_de student_id records))
    by (by apply readable_filter).
  fold (notas_de student_id records).
  pose proof (notas_de_id student_id records) as Hid.
  destruct (notas_de student_id records) as [|r rows] eqn:E; [by left |].
  right. split; [done |]. eexists. split; [reflexivity |].
  rewrite (listar_items_of_student env student_id (r :: rows) Hid).
  split; [reflexivity |].
  clear E Hid. generalize (r :: rows). intros l.
  induction l as [|a l IH]; simpl; constructor; [| exact IH].
  apply enrich_shows.
Qed.

Lemma buscar_shows_notas_witness :
  readable [mkRow (py "1") (py "MAT101") (py "9")] = true
  /\ ConHilos.handle_buscar example_env [py "BUSCAR"; py "2"]
       [mkRow (py "1") (py "MAT101") (py "9")]
     = (Return (resp_not_found msg_no_id),
        [mkRow (py "1") (py "MAT101") (py "9")]).
Proof.
  split; [reflexivity |].
  destruct (proj1 (proj2 (buscar_shows_notas (H := example_runtime)
                            example_env (py "BUSCAR") (py "2")
                            [mkRow (py "1") (py "MAT101") (py "9")]))
              eq_refl) as [[_ Hout] | [Hne _]].
  - exact Hout.
  - exfalso. apply Hne. reflexivity.
Defined.

(** * What ACTUALIZAR and ELIMINAR change *)

Lemma existsb_same_key_none (student_id materia : pystr) (records : Store) :
  existsb (same_key student_id materia) records = false <->
  forall r, In r records -> key_of r <> (student_id, materia).
Proof.
  split.
  - intros Hex r Hin Hk. apply same_key_true in Hk.
    assert (existsb (same_key student_id materia) records = true)
      by (apply existsb_exists; eauto).
    congruence.
  - intros Hall. destruct (existsb _ records) eqn:E; [| done].
    apply existsb_exists in E as (r & Hin & Hk).
    apply same_key_true in Hk. by destruct (Hall r Hin).
Qed.

Lemma actualizar_loop_first (student_id materia nueva_cal : pystr)
  (records : Store) :
  existsb (same_key student_id materia) records = true ->
  exists l1 r l2,
    records = l1 ++ r :: l2
    /\ existsb (same_key student_id materia) l1 = false
    /\ key_of r = (student_id, materia)
    /\ actualizar_loop student_id materia nueva_cal records
       = (l1 ++ mkRow student_id materia nueva_cal :: l2, true).
Proof.
  induction records as [|a rest IH]; simpl; [done |].
  destruct (same_key student_id materia a) eqn:Ea; simpl.
  - intros _. exists [], a, rest. apply same_key_true in Ea.
    split_and!; try done. simpl. by injection Ea as -> ->.
  - intros Hex. destruct (IH Hex) as (l1 & r & l2 & -> & Hl1 & Hr & Hloop).
    exists (a :: l1), r, l2. simpl. rewrite Ea, Hl1, Hloop. by split_and!.
Qed.

(** X6. ACTUALIZAR with a subject code changes one grade and nothing
    else. On a grade file that can be read: when no record has the pair
    (ID, Materia) the answer is not_found and the store is untouched;
    otherwise the answer is ok and echoes the three fields, and the
    store afterwards is the store before with the grade of the first
    record of that pair replaced: every record keeps its place, no
    record is added or dropped, and a second record of the same pair,
    should the file hold one, keeps its old grade. On a grade file that
    cannot be read the reader's exception leaves the handler and the
    store is untouched. Both deployments run the same code. *)
Theorem actualizar_changes_one_grade (p0 student_id materia nueva_cal : pystr)
  (records : Store) :
  let out := ConHilos.handle_actualizar
               [p0; student_id; materia; nueva_cal] records in
  SinHilos.handle_actualizar [p0; student_id; materia; nueva_cal] records = out
  /\ (readable records = true ->
      ((forall r, In r records -> key_of r <> (student_id, materia))
       /\ out = (Return (resp_not_found msg_no_nota), records))
      \/ exists l1 r l2,
           records = l1 ++ r :: l2
           /\ (forall r', In r' l1 -> key_of r' <> (student_id, materia))
           /\ key_of r = (student_id, materia)
           /\ out = (Return (updated student_id materia nueva_cal),
                     l1 ++ mkRow student_id materia nueva_cal :: l2))
  /\ (readable records = false ->
      out = (Raise csv_field_error, records)
      /\ reply out.1 = resp_error msg_read_failed).
Proof.
  cbv zeta. split; [reflexivity |].
  unfold ConHilos.handle_actualizar.
  split; intros Hr; [| by rewrite with_records_unreadable by done].
  rewrite with_records_readable by done.
  destruct (existsb (same_key student_id materia) records) eqn:E.
  - right.
    destruct (actualizar_loop_first student_id materia nueva_cal records E)
      as (l1 & r & l2 & Hrec & Hl1 & Hr' & Hloop).
    exists l1, r, l2. rewrite Hloop. simpl.
    split_and!; try done. by apply existsb_same_key_none.
  - left. split; [by apply existsb_same_key_none |].
    pose proof (actualizar_loop_updated student_id materia nueva_cal records)
      as Hu.
    destruct (actualizar_loop _ _ _ records) as [records' u].
    simpl in Hu. rewrite Hu, E. done.
Qed.

Lemma actualizar_changes_one_grade_witness :
  readable [mkRow (py "1") (py "MAT101") (py "9")] = true
  /\ ConHilos.handle_actualizar
       [py "ACTUALIZAR"; py "2"; py "MAT101"; py "10"]
       [mkRow (py "1") (py "MAT101") (py "9")]
     = (Return (resp_not_found msg_no_nota),
        [mkRow (py "1") (py "MAT101") (py "9")]).
Proof.
  split; [reflexivity |].
  destruct (proj1 (proj2 (actualizar_changes_one_grade
                            (py "ACTUALIZAR") (py "2") (py "MAT101") (py "10")
                            [mkRow (py "1") (py "MAT101") (py "9")]))
              eq_refl) as [[_ Hout] | (l1 & r & l2 & Hrec & _ & Hk & _)].
  - exact Hout.
  - exfalso. destruct l1 as [|a l1].
    + injection Hrec as <- _. vm_compute in Hk. discriminate.
    + injection Hrec as _ Hrec. by destruct l1.
Defined.

Lemma filter_out_absent (student_id materia : pystr) (records : Store) :
  existsb (same_key student_id materia) records = false ->
  List.filter (fun r => negb (same_key student_id materia r)) records
  = records.
Proof.
  induction records as [|r rest IH]; simpl; [done |].
  destruct (same_key student_id materia r); simpl; [done |].
  intros Hex. by rewrite IH.
Qed.

Lemma filter_out_present (student_id materia : pystr) (records : Store) :
  existsb (same_key student_id materia) records = true ->
  (length (List.filter (fun r => negb (same_key student_id materia r))
                       records)
   =? length records)%nat = false.
Proof.
  intros Hex. apply Nat.eqb_neq.
  pose proof (filter_out_shorter (same_key student_id materia) records Hex).
  lia.
Qed.

(** X7. ELIMINAR with a subject code removes the pair and nothing else.
    With a non-empty Materia field, on a grade file that can be read:
    when no record has the pair the answer is not_found and the store is
    untouched; otherwise the answer is ok and echoes the pair, no record
    of the pair is left (all of them go, should the file hold several),
    and every other record stays, in its order. With an empty Materia
    field the command is the one-argument form. On a grade file that
    cannot be read the reader's exception leaves the handler and the
    store is untouched. Both deployments run the same code. *)
Theorem eliminar_removes_pair (p0 student_id materia : pystr)
  (records : Store) :
  let out := ConHilos.handle_eliminar [p0; student_id; materia] records in
  SinHilos.handle_eliminar [p0; student_id; materia] records = out
  /\ (materia = [] ->
      out = ConHilos.handle_eliminar [p0; student_id] records)
  /\ (materia <> [] ->
      readable records = true ->
      (((forall r, In r records -> key_of r <> (student_id, materia))
        /\ out = (Return (resp_not_found msg_no_nota), records))
       \/ ((student_id, materia) ∈ map key_of records
           /\ out.1 = Return (removed student_id materia)
           /\ out.2 = List.filter
                        (fun r => negb (same_key student_id materia r)) records
           /\ ((student_id, materia) ∉ map key_of (out.2))
           /\ (forall r, In r (out.2) <->
                         In r records /\ key_of r <> (student_id, materia)))))
  /\ (readable records = false ->
      out = (Raise csv_field_error, records)
      /\ reply out.1 = resp_error msg_read_failed).
Proof.
  cbv zeta. split; [reflexivity |]. split; [by intros -> |].
  unfold ConHilos.handle_eliminar, ConHilos.eliminar.
  split; [| by intros Hr; rewrite with_records_unreadable by done].
  intros Hne Hr. destruct materia as [|c m]; [done |].
  rewrite with_records_readable by done.
  destruct (existsb (same_key student_id (c :: m)) records) eqn:E.
  - right. rewrite (filter_out_present _ _ _ E). cbn [fst snd].
    split_and!; try done.
    + by apply existsb_same_key.
    + apply existsb_same_key_false, existsb_same_key_none.
      intros r [_ Hk]%filter_In Hr'. apply same_key_true in Hr'.
      by rewrite Hr' in Hk.
    + intros r. rewrite filter_In, negb_true_iff.
      split; intros [Hin Hk]; (split; [done |]).
      * intros Hr'. apply same_key_true in Hr'. congruence.
      * destruct (same_key student_id (c :: m) r) eqn:Er; [| done].
        by apply same_key_true in Er.
  - left. rewrite (filter_out_absent _ _ _ E), Nat.eqb_refl.
    split; [by apply existsb_same_key_none | done].
Qed.

Lemma eliminar_removes_pair_witness :
  py "MAT101" <> []
  /\ readable [mkRow (py "1") (py "MAT101") (py "9");
               mkRow (py "1") (py "PRO201") (py "8")] = true
  /\ (let out := ConHilos.handle_eliminar [py "ELIMINAR"; py "1"; py "MAT101"]
                   [mkRow (py "1") (py "MAT101") (py "9");
                    mkRow (py "1") (py "PRO201") (py "8")] in
      out.2 = [mkRow (py "1") (py "PRO201") (py "8")]).
Proof.
  assert (Hne : py "MAT101" <> []) by discriminate.
  split; [exact Hne |]. split; [reflexivity |].
  destruct (proj1 (proj2 (proj2 (eliminar_removes_pair (py "ELIMINAR")
                                   (py "1") (py "MAT101")
                                   [mkRow (py "1") (py "MAT101") (py "9");
                                    mkRow (py "1") (py "PRO201") (py "8")])))
              Hne eq_refl)
    as [[_ Hout] | (_ & _ & Hout & _)].
  - vm_compute in Hout. discriminate.
  - exact (eq_trans Hout eq_refl).
Defined.

(** * When AGREGAR stores a record, and undoing it *)

Lemma get_estudiante_nombre_en_roster (student_id : pystr)
  (rows : list Estudiante) :
  is_Some (get_estudiante_nombre rows student_id)
  <-> en_roster student_id rows.
Proof.
  unfold en_roster. induction rows as [|row rest IH]; simpl.
  - split; [by intros [? ?] | by intros (? & [] & _)].
  - destruct (str_eqb (est_id row) student_id) eqn:E.
    + apply str_eqb_eq in E. split; [| by eauto].
      intros _. exists row. by split; [left |].
    + apply str_eqb_neq in E. rewrite IH. split.
      * intros (r & Hin & Hid). exists r. by split; [right |].
      * intros (r & [-> | Hin] & Hid); [done |]. by exists r.
Qed.

Lemma truthy_nonempty (s : pystr) : truthy s = true <-> s <> [].
Proof. by destruct s. Qed.

Section AgregarOk.
Context `{PyRuntime}.
Variable env : Env.

Lemma sin_agregar_ok (p0 student_id materia calificacion : pystr)
  (records : Store) :
  status_of (reply (SinHilos.handle_agregar env
                      [p0; student_id; materia; calificacion] records).1)
  = Some (py "ok")
  <-> truthy student_id = true
      /\ is_Some (get_estudiante_nombre (estudiantes env) student_id)
      /\ readable records = true
      /\ existsb (same_key student_id materia) records = false.
Proof.
  simpl. destruct (truthy student_id); simpl.
  2: { split; [discriminate | by intros [? _]]. }
  destruct (get_estudiante_nombre _ _) as [nombre|]; simpl.
  2: { split; [discriminate | by intros (_ & [? ?] & _)]. }
  open_records; simpl.
  2: { split; [discriminate | by intros (_ & _ & ? & _)]. }
  destruct (existsb _ records); simpl.
  - split; [discriminate | by intros (_ & _ & _ & ?)].
  - split; [by eauto | done].
Qed.

Lemma con_agregar_ok (p0 student_id nombre materia calificacion : pystr)
  (records : Store) :
  status_of (reply (ConHilos.handle_agregar env
                      [p0; student_id; nombre; materia; calificacion]
                      records).1)
  = Some (py "ok")
  <-> lookup_passes (nrc_resp env materia) = true
      /\ is_Some (get_estudiante_nombre (estudiantes env) student_id)
      /\ readable records = true
      /\ existsb (same_key student_id materia) records = false.
Proof.
  simpl. unfold lookup_passes, nrc_passes.
  destruct (nrc_resp env materia) as [answer|e];
    [| split; [discriminate | by intros [? _]]].
  destruct answer;
    try (split; [discriminate | by intros [? _]]).
  destruct (get_is _ (py "error")); simpl;
    [split; [discriminate | by intros [? _]] |].
  destruct (get_is _ (py "not_found")); simpl;
    [split; [discriminate | by intros [? _]] |].
  destruct (get_estudiante_nombre _ _) as [nombre_canonico|]; simpl.
  2: { split; [discriminate | by intros (_ & [? ?] & _)]. }
  open_records; simpl.
  2: { split; [discriminate | by intros (_ & _ & ? & _)]. }
  destruct (existsb _ records); simpl.
  - split; [discriminate | by intros (_ & _ & _ & ?)].
  - split; [by eauto | done].
Qed.

Lemma sin_agregar_stores (p0 student_id materia calificacion : pystr)
  (records : Store) :
  status_of (reply (SinHilos.handle_agregar env
                      [p0; student_id; materia; calificacion] records).1)
  = Some (py "ok") ->
  (SinHilos.handle_agregar env
     [p0; student_id; materia; calificacion] records).2
  = records ++ [mkRow student_id materia calificacion].
Proof.
  intros Hok.
  destruct (sin_agregar_proceeds env p0 student_id materia calificacion
              records) as [_ Hp].
  destruct (Hp Hok) as (nombre & _ & Hout). cbv zeta in Hout. by rewrite Hout.
Qed.

Lemma con_agregar_stores (p0 student_id nombre materia calificacion : pystr)
  (records : Store) :
  status_of (reply (ConHilos.handle_agregar env
                      [p0; student_id; nombre; materia; calificacion]
                      records).1)
  = Some (py "ok") ->
  (ConHilos.handle_agregar env
     [p0; student_id; nombre; materia; calificacion] records).2
  = records ++ [mkRow student_id materia calificacion].
Proof.
  intros Hok.
  destruct (con_agregar_proceeds env p0 student_id nombre materia calificacion
              records) as [_ Hp].
  destruct (Hp Hok) as (nombre_canonico & _ & Hout). cbv zeta in Hout.
  by rewrite Hout.
Qed.
End AgregarOk.

(** X8. AGREGAR is answered ok exactly when its gates are passed. In
    the sequential server: four fields, a non-empty ID, a roster row for
    the ID, a grade file that can be read, and no stored record of the
    pair (ID, Materia). In the threaded server: five fields, a catalog
    lookup that returns an answer that is neither error nor not_found, a
    roster row for the ID, a grade file that can be read, and no stored
    record of the pair; an empty ID is not refused there. In every other
    case the answer is not ok. And when the answer is ok the store
    afterwards is the store before with the new record at its end. *)
Theorem agregar_ok_exactly `{PyRuntime} (env : Env) (parts : list pystr)
  (records : Store) :
  let sin := SinHilos.handle_agregar env parts records in
  let con := ConHilos.handle_agregar env parts records in
  (status_of (reply sin.1) = Some (py "ok") <->
   exists p0 student_id materia calificacion,
     parts = [p0; student_id; materia; calificacion]
     /\ student_id <> []
     /\ en_roster student_id (estudiantes env)
     /\ readable records = true
     /\ ((student_id, materia) ∉ map key_of records))
  /\ (status_of (reply con.1) = Some (py "ok") <->
      exists p0 student_id nombre materia calificacion,
        parts = [p0; student_id; nombre; materia; calificacion]
        /\ lookup_passes (nrc_resp env materia) = true
        /\ en_roster student_id (estudiantes env)
        /\ readable records = true
        /\ ((student_id, materia) ∉ map key_of records))
  /\ (forall p0 student_id materia calificacion,
         parts = [p0; student_id; materia; calificacion] ->
         status_of (reply sin.1) = Some (py "ok") ->
         sin.2 = records ++ [mkRow student_id materia calificacion])
  /\ (forall p0 student_id nombre materia calificacion,
         parts = [p0; student_id; nombre; materia; calificacion] ->
         status_of (reply con.1) = Some (py "ok") ->
         con.2 = records ++ [mkRow student_id materia calificacion]).
Proof.
  cbv zeta. split_and!.
  - split.
    + intros Hok.
      destruct parts as [|p0 [|sid [|mat [|cal [|? ?]]]]]; try discriminate.
      exists p0, sid, mat, cal.
      apply sin_agregar_ok in Hok as (Hid & Hro & Hread & Hex).
      split_and!; try done.
      * by apply truthy_nonempty.
      * by apply get_estudiante_nombre_en_roster.
      * by apply existsb_same_key_false.
    + intros (p0 & sid & mat & cal & -> & Hid & Hro & Hread & Hex).
      apply sin_agregar_ok. split_and!; [| | done |].
      * by apply truthy_nonempty.
      * by apply get_estudiante_nombre_en_roster.
      * by apply existsb_same_key_false.
  - split.
    + intros Hok.
      destruct parts as [|p0 [|sid [|nom [|mat [|cal [|? ?]]]]]];
        try discriminate.
      exists p0, sid, nom, mat, cal.
      apply con_agregar_ok in Hok as (Hnrc & Hro & Hread & Hex).
      split_and!; try done.
      * by apply get_estudiante_nombre_en_roster.
      * by apply existsb_same_key_false.
    + intros (p0 & sid & nom & mat & cal & -> & Hnrc & Hro & Hread & Hex).
      apply con_agregar_ok. split_and!; [done | | done |].
      * by apply get_estudiante_nombre_en_roster.
      * by apply existsb_same_key_false.
  - intros p0 sid mat cal -> Hok. by apply sin_agregar_stores.
  - intros p0 sid nom mat cal -> Hok. by apply con_agregar_stores.
Qed.

Lemma agregar_ok_exactly_witness :
  (SinHilos.handle_agregar example_env
     [py "AGREGAR"; py "1"; py "PRO201"; py "8"]
     [mkRow (py "1") (py "MAT101") (py "9")]).2
  = [mkRow (py "1") (py "MAT101") (py "9");
     mkRow (py "1") (py "PRO201") (py "8")].
Proof.
  apply (proj1 (proj2 (proj2 (agregar_ok_exactly (H := example_runtime)
                                example_env
                                [py "AGREGAR"; py "1"; py "PRO201"; py "8"]
                                [mkRow (py "1") (py "MAT101") (py "9")])))
           (py "AGREGAR") (py "1") (py "PRO201") (py "8") eq_refl).
  vm_compute. reflexivity.
Defined.

Lemma eliminar_last (student_id materia calificacion : pystr)
  (records : Store) :
  materia <> [] ->
  readable (records ++ [mkRow student_id materia calificacion]) = true ->
  existsb (same_key student_id materia) records = false ->
  ConHilos.eliminar student_id (Some materia)
    (records ++ [mkRow student_id materia calificacion])
  = (Return (removed student_id materia), records).
Proof.
  intros Hne Hread Hex. destruct materia as [|c m]; [done |].
  unfold ConHilos.eliminar. rewrite with_records_readable by done.
  rewrite List.filter_app, (filter_out_absent _ _ _ Hex). simpl List.filter.
  assert (Hk : same_key student_id (c :: m)
                 (mkRow student_id (c :: m) calificacion) = true).
  { unfold same_key. simpl ID_Estudiante. simpl Materia.
    by rewrite !str_eqb_refl. }
  rewrite Hk. simpl negb. cbv iota. rewrite app_nil_r.
  assert (Hlen : (length records
                  =? length (records ++ [mkRow student_id (c :: m)
                                           calificacion]))%nat = false).
  { apply Nat.eqb_neq. rewrite length_app. simpl. lia. }
  by rewrite Hlen.
Qed.

(** X9. ELIMINAR undoes AGREGAR. When an AGREGAR with a non-empty
    Materia, whose three stored fields are no longer than the field
    limit of the reader, has been answered ok, an ELIMINAR of the same
    ID and Materia sent next is answered ok and leaves the store exactly
    as it was before the AGREGAR, in either deployment. *)
Theorem agregar_eliminar_round_trip `{PyRuntime} (env : Env)
  (p0 q0 student_id nombre materia calificacion : pystr) (records : Store) :
  materia <> [] ->
  readable_row (mkRow student_id materia calificacion) = true ->
  (let out := SinHilos.handle_agregar env
                [p0; student_id; materia; calificacion] records in
   status_of (reply out.1) = Some (py "ok") ->
   SinHilos.handle_eliminar [q0; student_id; materia] out.2
   = (Return (removed student_id materia), records))
  /\ (let out := ConHilos.handle_agregar env
                   [p0; student_id; nombre; materia; calificacion] records in
      status_of (reply out.1) = Some (py "ok") ->
      ConHilos.handle_eliminar [q0; student_id; materia] out.2
      = (Return (removed student_id materia), records)).
Proof.
  intros Hne Hrow. cbv zeta. split; intros Hok.
  - rewrite (sin_agregar_stores env _ _ _ _ _ Hok).
    apply sin_agregar_ok in Hok as (_ & _ & Hread & Hex).
    apply eliminar_last; [done | by apply readable_snoc | done].
  - rewrite (con_agregar_stores env _ _ _ _ _ _ Hok).
    apply con_agregar_ok in Hok as (_ & _ & Hread & Hex).
    apply eliminar_last; [done | by apply readable_snoc | done].
Qed.

Lemma agregar_eliminar_round_trip_witness :
  SinHilos.handle_eliminar [py "ELIMINAR"; py "1"; py "PRO201"]
    (SinHilos.handle_agregar example_env
       [py "AGREGAR"; py "1"; py "PRO201"; py "8"]
       [mkRow (py "1") (py "MAT101") (py "9")]).2
  = (Return (removed (py "1") (py "PRO201")),
     [mkRow (py "1") (py "MAT101") (py "9")]).
Proof.
  assert (Hne : py "PRO201" <> []) by discriminate.
  apply (proj1 (agregar_eliminar_round_trip (H := example_runtime) example_env
                  (py "AGREGAR") (py "ELIMINAR") (py "1") (py "x")
                  (py "PRO201") (py "8")
                  [mkRow (py "1") (py "MAT101") (py "9")] Hne eq_refl)).
  vm_compute. reflexivity.
Defined.

(** * The two ways the servers read the roster *)

Lemma load_estudiantes_map_fold (rows : list Estudiante) :
  load_estudiantes_map rows = foldl roster_step ∅ rows.
Proof. reflexivity. Qed.

Lemma get_estudiante_nombre_app (l1 l2 : list Estudiante)
  (student_id : pystr) :
  get_estudiante_nombre (l1 ++ l2) student_id
  = match get_estudiante_nombre l1 student_id with
    | Some nombre => Some nombre
    | None => get_estudiante_nombre l2 student_id
    end.
Proof.
  induction l1 as [|row l1 IH]; simpl; [done |].
  by destruct (str_eqb (est_id row) student_id).
Qed.

Lemma roster_step_lookup (out : gmap pystr pystr) (row : Estudiante)
  (student_id : pystr) :
  student_id <> [] ->
  roster_step out row !! student_id
  = if str_eqb (est_id row) student_id
    then Some (or_empty (est_nombre row))
    else out !! student_id.
Proof.
  intros Hne. unfold roster_step.
  destruct (str_eqb (est_id row) student_id) eqn:E.
  - apply str_eqb_eq in E. rewrite E.
    destruct student_id; [done |]. simpl. by rewrite lookup_insert_eq.
  - apply str_eqb_neq in E.
    destruct (truthy (est_id row)); [| done]. by rewrite lookup_insert_ne.
Qed.

Lemma roster_fold_lookup (rows : list Estudiante) (out : gmap pystr pystr)
  (student_id : pystr) :
  student_id <> [] ->
  foldl roster_step out rows !! student_id
  = match get_estudiante_nombre (rev rows) student_id with
    | Some nombre => Some nombre
    | None => out !! student_id
    end.
Proof.
  intros Hne. revert out.
  induction rows as [|row rest IH]; intros out; simpl; [done |].
  rewrite IH, get_estudiante_nombre_app.
  destruct (get_estudiante_nombre (rev rest) student_id); [done |].
  simpl. rewrite roster_step_lookup by done.
  by destruct (str_eqb (est_id row) student_id).
Qed.

Lemma roster_fold_empty_id (rows : list Estudiante) (out : gmap pystr pystr) :
  out !! [] = None -> foldl roster_step out rows !! [] = None.
Proof.
  revert out. induction rows as [|row rest IH]; intros out Hout; simpl;
    [done |].
  apply IH. unfold roster_step.
  destruct (est_id row) as [|c s] eqn:E; simpl; [done |].
  by rewrite lookup_insert_ne.
Qed.

Lemma get_estudiante_nombre_in (rows : list Estudiante)
  (student_id nombre : pystr) :
  get_estudiante_nombre rows student_id = Some nombre ->
  exists row, In row rows /\ est_id row = student_id
              /\ or_empty (est_nombre row) = nombre.
Proof.
  induction rows as [|row rest IH]; simpl; [done |].
  destruct (str_eqb (est_id row) student_id) eqn:E.
  - intros [= <-]. apply str_eqb_eq in E. exists row. by split; [left |].
  - intros Hget. destruct (IH Hget) as (r & Hin & Hr). exists r.
    by split; [right |].
Qed.

Lemma get_estudiante_nombre_unique (rows : list Estudiante) (row : Estudiante) :
  NoDup (map est_id rows) ->
  In row rows ->
  get_estudiante_nombre rows (est_id row) = Some (or_empty (est_nombre row)).
Proof.
  induction rows as [|a rest IH]; simpl; [done |].
  rewrite NoDup_cons. intros [Hnot Hnd] [-> | Hin].
  - by rewrite str_eqb_refl.
  - destruct (str_eqb (est_id a) (est_id row)) eqn:E; [| by apply IH].
    apply str_eqb_eq in E. destruct Hnot. rewrite E.
    apply list_elem_of_fmap. exists row. split; [done |].
    by apply list_elem_of_In.
Qed.

Lemma get_estudiante_nombre_rev (rows : list Estudiante) (student_id : pystr) :
  NoDup (map est_id rows) ->
  get_estudiante_nombre (rev rows) student_id
  = get_estudiante_nombre rows student_id.
Proof.
  intros Hnd.
  destruct (get_estudiante_nombre (rev rows) student_id) as [nombre|] eqn:E.
  - apply get_estudiante_nombre_in in E as (row & Hin & <- & <-).
    symmetry. apply get_estudiante_nombre_unique; [done |].
    by apply in_rev.
  - destruct (get_estudiante_nombre rows student_id) as [nombre|] eqn:E';
      [| done].
    apply get_estudiante_nombre_in in E' as (row & Hin & Hid & _).
    assert (Hsome : is_Some (get_estudiante_nombre (rev rows) student_id)).
    { apply get_estudiante_nombre_en_roster. exists row.
      split; [by apply in_rev in Hin | done]. }
    rewrite E in Hsome. by destruct Hsome.
Qed.

(** X10. The roster is read in two ways, and they agree on a roster
    with unique IDs. [get_estudiante_nombre] (AGREGAR) answers with the
    first row of the ID; the map of [load_estudiantes_map] (BUSCAR,
    LISTAR) holds for every non-empty ID its last row, which is what
    [get_estudiante_nombre] finds reading the file backwards, and holds
    nothing for the empty ID. When no two rows share an ID the two give
    the same name for every non-empty ID, and both give none for an ID
    that has no row. *)
Theorem roster_lookups (rows : list Estudiante) (student_id : pystr) :
  load_estudiantes_map rows !! [] = None
  /\ (student_id <> [] ->
      load_estudiantes_map rows !! student_id
      = get_estudiante_nombre (rev rows) student_id)
  /\ (student_id <> [] ->
      NoDup (map est_id rows) ->
      load_estudiantes_map rows !! student_id
      = get_estudiante_nombre rows student_id)
  /\ (~ en_roster student_id rows ->
      load_estudiantes_map rows !! student_id = None
      /\ get_estudiante_nombre rows student_id = None).
Proof.
  rewrite load_estudiantes_map_fold. split_and!.
  - by apply roster_fold_empty_id.
  - intros Hne. rewrite roster_fold_lookup by done.
    by destruct (get_estudiante_nombre (rev rows) student_id).
  - intros Hne Hnd. rewrite roster_fold_lookup by done.
    rewrite get_estudiante_nombre_rev by done.
    by destruct (get_estudiante_nombre rows student_id).
  - intros Hno.
    assert (Hget : get_estudiante_nombre rows student_id = None).
    { destruct (get_estudiante_nombre rows student_id) eqn:E; [| done].
      destruct Hno. apply get_estudiante_nombre_en_roster. by rewrite E. }
    split; [| done].
    destruct student_id as [|c s]; [by apply roster_fold_empty_id |].
    rewrite roster_fold_lookup by done.
    destruct (get_estudiante_nombre (rev rows) (c :: s)) eqn:E; [| done].
    apply get_estudiante_nombre_in in E as (row & Hin & Hid & _).
    destruct Hno. exists row. split; [by apply in_rev in Hin | done].
Qed.

Lemma roster_lookups_witness :
  load_estudiantes_map [mkEstudiante (py "1") (Some (py "Ana"));
                        mkEstudiante (py "2") None;
                        mkEstudiante (py "1") (Some (py "Eva"))] !! py "1"
  = Some (py "Eva")
  /\ load_estudiantes_map [mkEstudiante (py "1") (Some (py "Ana"));
                           mkEstudiante (py "2") None] !! py "1"
     = Some (py "Ana")
  /\ load_estudiantes_map [mkEstudiante (py "1") (Some (py "Ana"))] !! py "7"
     = None.
Proof.
  assert (Hne : py "1" <> []) by discriminate.
  assert (Hnd : NoDup (map est_id [mkEstudiante (py "1") (Some (py "Ana"));
                                   mkEstudiante (py "2") None])).
  { simpl. apply NoDup_cons. split.
    - intros Hin. apply list_elem_of_singleton in Hin. discriminate.
    - apply NoDup_singleton. }
  assert (Hno : ~ en_roster (py "7") [mkEstudiante (py "1") (Some (py "Ana"))]).
  { intros (row & [<- | []] & Hid). discriminate. }
  split_and!.
  - exact (eq_trans
             (proj1 (proj2 (roster_lookups
                              [mkEstudiante (py "1") (Some (py "Ana"));
                               mkEstudiante (py "2") None;
                               mkEstudiante (py "1") (Some (py "Eva"))]
                              (py "1"))) Hne)
             eq_refl).
  - exact (eq_trans
             (proj1 (proj2 (proj2 (roster_lookups
                                     [mkEstudiante (py "1") (Some (py "Ana"));
                                      mkEstudiante (py "2") None]
                                     (py "1")))) Hne Hnd)
             eq_refl).
  - exact (proj1 (proj2 (proj2 (proj2 (roster_lookups
                                         [mkEstudiante (py "1")
                                            (Some (py "Ana"))]
                                         (py "7")))) Hno)).
Defined.

(** * The catalog service *)

Lemma load_nrc_map_fold (nrcs : list NrcsServer.NrcRow) :
  NrcsServer.load_nrc_map nrcs = foldl nrc_step ∅ nrcs.
Proof. reflexivity. Qed.

Lemma find_app_first {A} (p : A -> bool) (l1 l2 : list A) :
  List.find p (l1 ++ l2)
  = match List.find p l1 with
    | Some a => Some a
    | None => List.find p l2
    end.
Proof.
  induction l1 as [|a l1 IH]; simpl; [done |]. by destruct (p a).
Qed.

Lemma nrc_fold_lookup (nrcs : list NrcsServer.NrcRow) (out : gmap pystr Dict)
  (code : pystr) :
  code <> [] ->
  foldl nrc_step out nrcs !! code
  = match catalog_row nrcs code with
    | Some row => Some (NrcsServer.nrc_dict row)
    | None => out !! code
    end.
Proof.
  intros Hne. unfold catalog_row. revert out.
  induction nrcs as [|row rest IH]; intros out; simpl; [done |].
  rewrite IH, find_app_first.
  destruct (List.find _ (rev rest)); [done |]. simpl.
  unfold nrc_step. destruct (str_eqb (NrcsServer.NRC row) code) eqn:E.
  - apply str_eqb_eq in E. rewrite E. destruct code; [done |]. simpl.
    by rewrite lookup_insert_eq.
  - apply str_eqb_neq in E.
    destruct (truthy (NrcsServer.NRC row)); [| done].
    by rewrite lookup_insert_ne.
Qed.

Lemma nrc_fold_empty_code (nrcs : list NrcsServer.NrcRow)
  (out : gmap pystr Dict) :
  out !! [] = None -> foldl nrc_step out nrcs !! [] = None.
Proof.
  revert out. induction nrcs as [|row rest IH]; intros out Hout; simpl;
    [done |].
  apply IH. unfold nrc_step.
  destruct (NrcsServer.NRC row) as [|c s] eqn:E; simpl; [done |].
  by rewrite lookup_insert_ne.
Qed.

Lemma load_nrc_map_lookup (nrcs : list NrcsServer.NrcRow) (code : pystr) :
  NrcsServer.load_nrc_map nrcs !! code
  = if truthy code
    then NrcsServer.nrc_dict <$> catalog_row nrcs code
    else None.
Proof.
  rewrite load_nrc_map_fold. destruct code as [|c s]; simpl.
  - by apply nrc_fold_empty_code.
  - rewrite nrc_fold_lookup by done.
    by destruct (catalog_row nrcs (c :: s)).
Qed.

Lemma catalog_row_in (nrcs : list NrcsServer.NrcRow) (code : pystr) :
  is_Some (catalog_row nrcs code)
  <-> exists row, In row nrcs /\ NrcsServer.NRC row = code.
Proof.
  unfold catalog_row. split.
  - intros [row Hf]. apply find_some in Hf as [Hin Hc].
    exists row. split; [by apply in_rev in Hin | by apply str_eqb_eq].
  - intros (row & Hin & Hc).
    destruct (List.find _ (rev nrcs)) as [r|] eqn:E; [by eexists |].
    apply in_rev in Hin. apply (find_none _ _ E row) in Hin.
    by apply str_eqb_neq in Hin.
Qed.

Section CatalogProcess.
Context `{PyRuntime}.
Variable nrcs : list NrcsServer.NrcRow.

Lemma process_lookup (line p0 code : pystr) :
  parts_of line = [p0; code] ->
  upper p0 = py "BUSCAR_NRC" ->
  NrcsServer.process nrcs line = nrc_answer nrcs code.
Proof.
  unfold NrcsServer.process, parts_of, nrc_answer. intros -> ->. simpl.
  rewrite load_nrc_map_lookup.
  destruct (truthy code); [| done].
  by destruct (catalog_row nrcs code).
Qed.

Lemma process_error (line : pystr) :
  (forall p0 code, parts_of line = [p0; code] ->
                   upper p0 <> py "BUSCAR_NRC") ->
  NrcsServer.process nrcs line = resp_error (py "Comando vacío")
  \/ NrcsServer.process nrcs line = resp_error msg_nrc_formato.
Proof.
  unfold NrcsServer.process, parts_of. intros Hno.
  destruct (if truthy (strip line) then _ else _) as [|p0 rest]; [by left |].
  right. destruct (str_eqb (upper p0) (py "BUSCAR_NRC")) eqn:E; [| done].
  apply str_eqb_eq in E.
  destruct rest as [|code [|? ?]]; try done.
  by destruct (Hno p0 code eq_refl).
Qed.

Lemma status_nrc_answer (code : pystr) :
  (status_of (nrc_answer nrcs code) = Some (py "ok")
   /\ exists row, code <> [] /\ catalog_row nrcs code = Some row
                  /\ nrc_answer nrcs code
                     = resp_ok (JObj (NrcsServer.nrc_dict row)))
  \/ (status_of (nrc_answer nrcs code) = Some (py "not_found")
      /\ (code = [] \/ catalog_row nrcs code = None)
      /\ nrc_answer nrcs code = nrc_not_found).
Proof.
  unfold nrc_answer. destruct code as [|c s]; simpl; [right; by eauto |].
  destruct (catalog_row nrcs (c :: s)) as [row|].
  - left. split; [done |]. by exists row.
  - right. by eauto.
Qed.
End CatalogProcess.

(** X11. What the catalog service answers. A line gets ok exactly when
    it has two fields, the first a spelling of BUSCAR_NRC in any case,
    the second a non-empty code that some row of the catalog file has;
    the data is then the last row of that code. A well-formed lookup of
    any other code, the empty one included, gets the bare not_found.
    Every other line gets an error. The answer lets an AGREGAR of the
    threaded server through its catalog gate exactly when it is ok. *)
Theorem catalog_answers `{PyRuntime} (nrcs : list NrcsServer.NrcRow)
  (line : pystr) :
  let resp := NrcsServer.process nrcs line in
  (status_of resp = Some (py "ok") <->
   exists p0 code,
     parts_of line = [p0; code] /\ upper p0 = py "BUSCAR_NRC"
     /\ code <> []
     /\ exists row, In row nrcs /\ NrcsServer.NRC row = code)
  /\ (forall p0 code row,
        parts_of line = [p0; code] -> upper p0 = py "BUSCAR_NRC" ->
        code <> [] -> catalog_row nrcs code = Some row ->
        resp = resp_ok (JObj (NrcsServer.nrc_dict row)))
  /\ (forall p0 code,
        parts_of line = [p0; code] -> upper p0 = py "BUSCAR_NRC" ->
        code = [] \/ (forall row, In row nrcs -> NrcsServer.NRC row <> code) ->
        resp = nrc_not_found)
  /\ ((forall p0 code, parts_of line = [p0; code] ->
                       upper p0 <> py "BUSCAR_NRC") ->
      status_of resp = Some (py "error"))
  /\ (nrc_passes resp = true <-> status_of resp = Some (py "ok")).
Proof.
  cbv zeta.
  assert (Hcases :
    (exists p0 code, parts_of line = [p0; code]
                     /\ upper p0 = py "BUSCAR_NRC")
    \/ (forall p0 code, parts_of line = [p0; code] ->
                        upper p0 <> py "BUSCAR_NRC")).
  { destruct (parts_of line) as [|p0 [|code [|? ?]]];
      try (right; intros ? ? ?; discriminate).
    destruct (str_eqb (upper p0) (py "BUSCAR_NRC")) eqn:E.
    - apply str_eqb_eq in E. left. by exists p0, code.
    - apply str_eqb_neq in E. right. by intros ? ? [= <- <-]. }
  split_and!.
  - split.
    + intros Hok. destruct Hcases as [(p0 & code & Hp & Hu) | Hno].
      * exists p0, code. rewrite (process_lookup nrcs line p0 code Hp Hu) in Hok.
        destruct (status_nrc_answer nrcs code)
          as [(_ & row & Hne & Hrow & _) | (Hnf & _)]; [| congruence].
        split_and!; try done. apply catalog_row_in. by rewrite Hrow.
      * destruct (process_error nrcs line Hno) as [E | E];
          rewrite E in Hok; discriminate.
    + intros (p0 & code & Hp & Hu & Hne & Hrow).
      rewrite (process_lookup nrcs line p0 code Hp Hu).
      apply catalog_row_in in Hrow as [row Hrow].
      unfold nrc_answer. destruct code; [done |]. simpl. by rewrite Hrow.
  - intros p0 code row Hp Hu Hne Hrow.
    rewrite (process_lookup nrcs line p0 code Hp Hu).
    unfold nrc_answer. destruct code; [done |]. simpl. by rewrite Hrow.
  - intros p0 code Hp Hu Hcode.
    rewrite (process_lookup nrcs line p0 code Hp Hu).
    unfold nrc_answer. destruct Hcode as [-> | Hno]; [done |].
    destruct (truthy code); [| done].
    destruct (catalog_row nrcs code) as [row|] eqn:E; [| done].
    assert (Hin : is_Some (catalog_row nrcs code)) by (by rewrite E).
    apply catalog_row_in in Hin as (r & Hin & Hr). by destruct (Hno r Hin).
  - intros Hno.
    by destruct (process_error nrcs line Hno) as [-> | ->].
  - destruct Hcases as [(p0 & code & Hp & Hu) | Hno].
    + rewrite (process_lookup nrcs line p0 code Hp Hu).
      destruct (status_nrc_answer nrcs code)
        as [(Hok & row & _ & _ & ->) | (Hnf & _ & ->)]; [done |].
      split; discriminate.
    + destruct (process_error nrcs line Hno) as [-> | ->];
        split; discriminate.
Qed.

Lemma catalog_answers_witness :
  NrcsServer.process (H := example_runtime)
    [NrcsServer.mkNrcRow (py "MAT101") (Some (py "Algebra"))]
    (py "buscar_nrc|MAT101 ")
  = resp_ok (JObj [(py "NRC", JStr (py "MAT101"));
                   (py "Materia", JStr (py "Algebra"))]).
Proof.
  apply (proj1 (proj2 (catalog_answers (H := example_runtime)
                         [NrcsServer.mkNrcRow (py "MAT101")
                            (Some (py "Algebra"))]
                         (py "buscar_nrc|MAT101 ")))
           (py "buscar_nrc") (py "MAT101")
           (NrcsServer.mkNrcRow (py "MAT101") (Some (py "Algebra"))));
    [vm_compute; reflexivity | vm_compute; reflexivity | discriminate
    | vm_compute; reflexivity].
Defined.

(** * The code the catalog is asked for *)

Lemma forallb_lstrip (p : N -> bool) (s : pystr) :
  forallb p s = true -> forallb p (lstrip s) = true.
Proof.
  induction s as [|c s IH]; simpl; [done |].
  intros [Hc Hs]%andb_true_iff.
  destruct (is_space c); [by apply IH |]. simpl. by rewrite Hc, Hs.
Qed.

Lemma forallb_rstrip (p : N -> bool) (s : pystr) :
  forallb p s = true -> forallb p (rstrip s) = true.
Proof.
  intros Hs. unfold rstrip. rewrite forallb_rev.
  apply forallb_lstrip. by rewrite forallb_rev.
Qed.

Lemma space_not_pipe (ws : pystr) :
  forallb is_space ws = true -> pipe_free ws = true.
Proof.
  unfold pipe_free. induction ws as [|c ws IH]; simpl; [done |].
  intros [Hc Hws]%andb_true_iff. rewrite (IH Hws), andb_true_r.
  destruct (c =? PIPE) eqn:E; [| done].
  apply N.eqb_eq in E. subst c. discriminate.
Qed.

Lemma parts_of_nrc_request (materia : pystr) :
  pipe_free materia = true ->
  parts_of (nrc_request materia) = [py "BUSCAR_NRC"; rstrip materia].
Proof.
  intros Hpf.
  assert (Hparts : parts_of ([] ++ py "BUSCAR_NRC" ++ (PIPE :: materia) ++ [])
                   = py "BUSCAR_NRC" :: tail_fields (PIPE :: materia))
    by (by apply parts_of_command).
  rewrite app_nil_r in Hparts.
  transitivity (py "BUSCAR_NRC" :: tail_fields (PIPE :: materia));
    [exact Hparts |].
  simpl tail_fields. f_equal. apply split_plain.
  by apply forallb_rstrip.
Qed.

Lemma nrc_request_answer `{PyRuntime} (nrcs : list NrcsServer.NrcRow)
  (materia : pystr) :
  pipe_free materia = true ->
  NrcsServer.process nrcs (nrc_request materia)
  = nrc_answer nrcs (rstrip materia).
Proof.
  intros Hpf.
  apply (process_lookup nrcs _ (py "BUSCAR_NRC"));
    [by apply parts_of_nrc_request | reflexivity].
Qed.

Lemma catalog_env_carried `{PyRuntime} `{PyWire}
  (nrcs : list NrcsServer.NrcRow) (roster : list Estudiante)
  (materia : pystr) :
  carries (nrc_request materia) ->
  nrc_resp (catalog_env nrcs roster) materia
  = Return (NrcsServer.process nrcs (nrc_request materia)).
Proof.
  intros [_ Hcar]. simpl. unfold line_received. by rewrite Hcar.
Qed.

(** X12. The catalog is asked for the code without its trailing
    whitespace, the store keeps the code as written. For a Materia field
    (no separator in it) followed by whitespace, with a codec that
    carries the two request lines, the catalog service answers the
    request of [consultar_nrc] as it answers the request for the field
    alone; so, served by a catalog that knows the code, the threaded
    AGREGAR of a student of the roster with the padded field, on a grade
    file that can be read, is answered ok and stores the padded field as
    the Materia of the record, even when the same pair with the code
    alone is stored already. *)
Theorem catalog_gate_strips_code `{PyRuntime} `{PyWire}
  (nrcs : list NrcsServer.NrcRow) (roster : list Estudiante)
  (p0 student_id nombre materia ws calificacion : pystr) (records : Store) :
  pipe_free materia = true ->
  forallb is_space ws = true ->
  carries (nrc_request materia) ->
  carries (nrc_request (materia ++ ws)) ->
  let env := catalog_env nrcs roster in
  nrc_resp env (materia ++ ws) = nrc_resp env materia
  /\ nrc_resp env materia = Return (nrc_answer nrcs (rstrip materia))
  /\ (is_Some (catalog_row nrcs (rstrip materia)) ->
      rstrip materia <> [] ->
      en_roster student_id roster ->
      readable records = true ->
      (student_id, materia ++ ws) ∉ map key_of records ->
      let out := ConHilos.handle_agregar env
                   [p0; student_id; nombre; materia ++ ws; calificacion]
                   records in
      status_of (reply out.1) = Some (py "ok")
      /\ out.2 = records ++ [mkRow student_id (materia ++ ws) calificacion]).
Proof.
  intros Hpf Hws Hcar Hcar'. cbv zeta.
  assert (Hpf' : pipe_free (materia ++ ws) = true).
  { unfold pipe_free in *. rewrite forallb_app, Hpf. by apply space_not_pipe. }
  assert (Hone : nrc_resp (catalog_env nrcs roster) materia
                 = Return (nrc_answer nrcs (rstrip materia))).
  { rewrite catalog_env_carried by done. by rewrite nrc_request_answer. }
  assert (Hsame : nrc_resp (catalog_env nrcs roster) (materia ++ ws)
                  = nrc_resp (catalog_env nrcs roster) materia).
  { rewrite Hone, catalog_env_carried by done.
    rewrite nrc_request_answer by done. by rewrite rstrip_spaces. }
  split_and!; [done | done |].
  intros [row Hrow] Hne Hro Hread Hnew.
  assert (Hok : status_of (reply (ConHilos.handle_agregar
                                    (catalog_env nrcs roster)
                                    [p0; student_id; nombre; materia ++ ws;
                                     calificacion] records).1)
                = Some (py "ok")).
  { apply con_agregar_ok. split_and!.
    - rewrite Hsame, Hone. simpl.
      unfold nrc_answer. destruct (rstrip materia); [done |]. simpl.
      by rewrite Hrow.
    - by apply get_estudiante_nombre_en_roster.
    - done.
    - by apply existsb_same_key_false. }
  split; [done |]. by apply con_agregar_stores.
Qed.

Lemma catalog_gate_strips_code_witness :
  let nrcs := [NrcsServer.mkNrcRow (py "MAT101") (Some (py "Algebra"))] in
  let roster := [mkEstudiante (py "1") (Some (py "Ana"))] in
  (ConHilos.handle_agregar (H := example_runtime)
     (catalog_env (H := example_runtime) (H0 := table_wire []) nrcs roster)
     [py "AGREGAR"; py "1"; py "x"; py "MAT101 "; py "7"]
     [mkRow (py "1") (py "MAT101") (py "9")]).2
  = [mkRow (py "1") (py "MAT101") (py "9");
     mkRow (py "1") (py "MAT101 ") (py "7")].
Proof.
  cbv zeta.
  assert (Hpf : pipe_free (py "MAT101") = true) by reflexivity.
  assert (Hws : forallb is_space (py " ") = true) by reflexivity.
  assert (Hcar : carries (H := example_runtime) (H0 := table_wire [])
                   (nrc_request (py "MAT101")))
    by (split; [discriminate | reflexivity]).
  assert (Hcar' : carries (H := example_runtime) (H0 := table_wire [])
                    (nrc_request (py "MAT101" ++ py " ")))
    by (split; [discriminate | reflexivity]).
  assert (Hrow : is_Some (catalog_row
                            [NrcsServer.mkNrcRow (py "MAT101")
                               (Some (py "Algebra"))]
                            (rstrip (py "MAT101")))).
  { vm_compute. by eexists. }
  assert (Hne : rstrip (py "MAT101") <> []) by (vm_compute; discriminate).
  assert (Hro : en_roster (py "1") [mkEstudiante (py "1") (Some (py "Ana"))]).
  { eexists. split; [by left | reflexivity]. }
  assert (Hread : readable [mkRow (py "1") (py "MAT101") (py "9")] = true)
    by reflexivity.
  assert (Hnew : (py "1", py "MAT101" ++ py " ")
                 ∉ map key_of [mkRow (py "1") (py "MAT101") (py "9")]).
  { simpl. intros Hin. apply list_elem_of_singleton in Hin. discriminate. }
  exact (proj2 (proj2 (proj2 (catalog_gate_strips_code (H := example_runtime)
                                (H0 := table_wire [])
                                [NrcsServer.mkNrcRow (py "MAT101")
                                   (Some (py "Algebra"))]
                                [mkEstudiante (py "1") (Some (py "Ana"))]
                                (py "AGREGAR") (py "1") (py "x") (py "MAT101")
                                (py " ") (py "7")
                                [mkRow (py "1") (py "MAT101") (py "9")]
                                Hpf Hws Hcar Hcar'))
                 Hrow Hne Hro Hread Hnew)).
Defined.

(** * Reading a line from a connection *)

Lemma first_line_app_break (a b : list N) :
  existsb (N.eqb NEWLINE) a = true ->
  ConHilos.first_line (a ++ b) = ConHilos.first_line a.
Proof.
  induction a as [|x a IH]; [done |].
  cbn [app ConHilos.first_line existsb]. rewrite (N.eqb_sym NEWLINE x).
  destruct (x =? NEWLINE); [done |]. cbn [orb]. intros Ha. by rewrite IH.
Qed.

Lemma first_line_app_plain (a b : list N) :
  existsb (N.eqb NEWLINE) a = false ->
  ConHilos.first_line (a ++ b) = a ++ ConHilos.first_line b.
Proof.
  induction a as [|x a IH]; [done |].
  cbn [app ConHilos.first_line existsb]. rewrite (N.eqb_sym NEWLINE x).
  destruct (x =? NEWLINE); [done |]. cbn [orb]. intros Ha. by rewrite IH.
Qed.

Lemma first_line_received (chunks : list (list N)) :
  ConHilos.first_line (received chunks)
  = ConHilos.first_line (concat chunks).
Proof.
  induction chunks as [|c rest IH]; simpl; [done |].
  destruct (existsb (N.eqb NEWLINE) c) eqn:E.
  - by rewrite first_line_app_break.
  - by rewrite !first_line_app_plain, IH.
Qed.

Lemma received_nil (chunks : list (list N)) :
  Forall (fun chunk => chunk <> []) chunks ->
  received chunks = [] <-> concat chunks = [].
Proof.
  intros Hne. destruct Hne as [|c rest Hc _]; simpl; [done |].
  destruct c as [|x c]; [done |].
  by destruct (existsb (N.eqb NEWLINE) (x :: c)).
Qed.

Lemma recv_loop_chunks (recv : nat -> ConHilos.RecvResult)
  (rest : list (list N)) (fuel k : nat) (data : list N) :
  (forall j, recv (k + j)%nat = ConHilos.Chunk (nth j rest [])) ->
  Forall (fun chunk => chunk <> []) rest ->
  (length rest < fuel)%nat ->
  ConHilos.recv_loop fuel recv k data = Some (Return (data ++ received rest)).
Proof.
  revert fuel k data.
  induction rest as [|c rest IH]; intros fuel k data Hrecv Hne Hfuel.
  - destruct fuel as [|fuel]; [simpl in Hfuel; lia |].
    rewrite recv_loop_step. specialize (Hrecv 0%nat).
    rewrite Nat.add_0_r in Hrecv. rewrite Hrecv. simpl.
    by rewrite app_nil_r.
  - destruct fuel as [|fuel]; [simpl in Hfuel; lia |].
    rewrite recv_loop_step. pose proof (Hrecv 0%nat) as H0.
    rewrite Nat.add_0_r in H0. rewrite H0. simpl nth.
    apply Forall_cons in Hne as [Hc Hne].
    destruct c as [|x c]; [done |]. cbn [received].
    destruct (existsb (N.eqb NEWLINE) (x :: c)); [done |].
    rewrite (IH fuel (S k) (data ++ x :: c)).
    + by rewrite <- app_assoc.
    + intros j. specialize (Hrecv (S j)).
      by rewrite Nat.add_succ_r in Hrecv.
    + done.
    + simpl in Hfuel. lia.
Qed.

Lemma recv_loop_stream (chunks : list (list N)) (fuel : nat) :
  Forall (fun chunk => chunk <> []) chunks ->
  (length chunks < fuel)%nat ->
  ConHilos.recv_loop fuel (stream_of chunks) 0 []
  = Some (Return (received chunks)).
Proof.
  intros Hne Hfuel.
  by rewrite (recv_loop_chunks (stream_of chunks) chunks fuel 0 []).
Qed.

Lemma recv_line_stream `{PyRuntime} (chunks : list (list N))
  (bytes : list N) (fuel : nat) :
  chunking chunks bytes ->
  (length chunks < fuel)%nat ->
  recv_line fuel (stream_of chunks) = Some (Return (line_of bytes)).
Proof.
  intros [Hcat Hne] Hfuel. unfold recv_line, line_of.
  rewrite recv_loop_stream by done.
  pose proof (received_nil chunks Hne) as Hnil.
  pose proof (first_line_received chunks) as Hfl. rewrite Hcat in *.
  destruct (received chunks) as [|x r].
  - by rewrite (proj1 Hnil eq_refl).
  - destruct bytes as [|b bytes]; [by pose proof (proj2 Hnil eq_refl) |].
    by rewrite Hfl.
Qed.

Lemma recv_loop_nonempty (recv : nat -> ConHilos.RecvResult) (fuel k : nat)
  (data out : list N) :
  data <> [] ->
  ConHilos.recv_loop fuel recv k data = Some (Return out) ->
  out <> [].
Proof.
  revert k data. induction fuel as [|fuel IH]; intros k data Hne; [done |].
  rewrite recv_loop_step.
  destruct (recv k) as [[|x c]|e]; [by intros [= <-] | | done].
  destruct (existsb (N.eqb NEWLINE) (x :: c)).
  - intros [= <-]. by destruct data.
  - apply IH. by destruct data.
Qed.

(** X13. [recv_line] hands over the first line of what the peer sends,
    however the bytes are cut into chunks: for bytes that arrive in any
    number of non-empty chunks before the peer closes, and a read that
    is allowed one [recv] more than there are chunks, the result is the
    decoded bytes before the first line break (all of them when there is
    no line break), and it is [None] exactly when the peer sent nothing.
    Whatever follows the first line break is dropped. The result is the
    same for every way of cutting the same bytes. A [None] result of a
    read comes only from a peer that closes before it sends a byte. *)
Theorem recv_line_first_line `{PyRuntime} (chunks : list (list N))
  (bytes : list N) (fuel : nat) :
  chunking chunks bytes ->
  (length chunks < fuel)%nat ->
  recv_line fuel (stream_of chunks) = Some (Return (line_of bytes))
  /\ (line_of bytes = None <-> bytes = [])
  /\ (forall line rest,
        bytes = line ++ NEWLINE :: rest ->
        existsb (N.eqb NEWLINE) line = false ->
        recv_line fuel (stream_of chunks)
        = Some (Return (Some (decode_utf8 line))))
  /\ (forall chunks',
        chunking chunks' bytes -> (length chunks' < fuel)%nat ->
        recv_line fuel (stream_of chunks')
        = recv_line fuel (stream_of chunks))
  /\ (forall recv n,
        recv_line n recv = Some (Return None) ->
        recv 0%nat = ConHilos.Chunk []).
Proof.
  intros Hch Hfuel. split_and!.
  - by apply recv_line_stream.
  - unfold line_of. by destruct bytes.
  - intros line rest -> Hline.
    rewrite (recv_line_stream chunks _ fuel Hch Hfuel). unfold line_of.
    rewrite first_line_app_plain by done. simpl. rewrite app_nil_r.
    by destruct line.
  - intros chunks' Hch' Hfuel'.
    by rewrite !(recv_line_stream _ bytes fuel).
  - intros recv n. unfold recv_line. destruct n as [|n]; [done |].
    rewrite recv_loop_step.
    destruct (recv 0%nat) as [[|x c]|e]; [done | | done].
    destruct (existsb (N.eqb NEWLINE) (x :: c)); [done |].
    destruct (ConHilos.recv_loop n recv 1 ([] ++ x :: c)) as [[out|e]|] eqn:E;
      [| done | done].
    apply recv_loop_nonempty in E; [| done]. by destruct out.
Qed.

Lemma recv_line_first_line_witness :
  recv_line (H := example_runtime) 3
    (stream_of [py "LIS"; py "TAR" ++ [NEWLINE] ++ py "ELIMINAR|1"])
  = Some (Return (Some (py "LISTAR"))).
Proof.
  assert (Hch : chunking [py "LIS"; py "TAR" ++ [NEWLINE] ++ py "ELIMINAR|1"]
                  (py "LISTAR" ++ NEWLINE :: py "ELIMINAR|1")).
  { split; [reflexivity |]. repeat constructor; discriminate. }
  assert (Hfuel : (length [py "LIS"; py "TAR" ++ [NEWLINE] ++ py "ELIMINAR|1"]
                   < 3)%nat) by (simpl; lia).
  exact (proj1 (proj2 (proj2 (recv_line_first_line (H := example_runtime)
                                _ _ 3%nat Hch Hfuel)))
           (py "LISTAR") (py "ELIMINAR|1") eq_refl eq_refl).
Defined.

(** * Serving connections *)

Section ServeFacts.
Context `{PyRuntime} `{PyWire}.
Context {S : Type}.
Variable dispatch : pystr -> S -> JSON * S.

Lemma serve_line_stream (chunks : list (list N)) (fuel : nat) (st : S) :
  Forall (fun chunk => chunk <> []) chunks ->
  (length chunks < fuel)%nat ->
  serve_line dispatch fuel (conn_of chunks) st
  = Some (mkServed (answer_to dispatch st (concat chunks)) None
                   (after_bytes dispatch st (concat chunks))).
Proof.
  intros Hne Hfuel. unfold serve_line, answer_to, after_bytes. simpl conn_recv.
  rewrite (recv_line_stream chunks (concat chunks) fuel) by done.
  destruct (line_of (concat chunks)) as [line|]; [| done].
  by destruct (dispatch line st).
Qed.

Lemma serve_line_state (fuel : nat) (conn : Conn) (st : S)
  (served : Served S) :
  serve_line dispatch fuel conn st = Some served ->
  state_after served = st
  \/ exists line, state_after served = (dispatch line st).2.
Proof.
  unfold serve_line.
  destruct (recv_line fuel (conn_recv conn)) as [[[line|]|e]|];
    try (intros [= <-]; by left).
  destruct (dispatch line st) as [resp st'] eqn:E. intros [= <-].
  right. exists line. by rewrite E.
Qed.

Lemma serve_line_drip (fuel : nat) (st : S) :
  serve_line dispatch fuel drip_conn st = None.
Proof.
  unfold serve_line, recv_line. simpl conn_recv.
  by rewrite recv_loop_drip.
Qed.

Lemma serve_loop_drip (fuel : nat) (conns : list Conn) (st : S) :
  In drip_conn conns -> serve_loop dispatch fuel conns st = None.
Proof.
  revert st. induction conns as [|conn rest IH]; intros st; [done |].
  intros [-> | Hin]; simpl.
  - by rewrite serve_line_drip.
  - destruct (serve_line dispatch fuel conn st) as [served|]; [| done].
    by rewrite IH.
Qed.

Lemma serve_loop_streams (css : list (list (list N))) (fuel : nat) (st : S) :
  Forall (fun chunks => Forall (fun chunk => chunk <> []) chunks
                        /\ (length chunks < fuel)%nat) css ->
  exists served,
    serve_loop dispatch fuel (map conn_of css) st
    = Some (served, foldl (after_bytes dispatch) st (map (@concat N) css))
    /\ length served = length css.
Proof.
  revert st. induction css as [|chunks css IH]; intros st Hall.
  - by exists [].
  - apply Forall_cons in Hall as [[Hne Hfuel] Hall]. simpl.
    rewrite serve_line_stream by done. simpl state_after.
    destruct (IH (after_bytes dispatch st (concat chunks)) Hall)
      as (served & -> & Hlen).
    eexists. split; [reflexivity |]. simpl. by rewrite Hlen.
Qed.

Lemma serve_loop_invariant (P : S -> Prop) (fuel : nat) (conns : list Conn)
  (st final : S) (served : list (Served S)) :
  (forall line st', P st' -> P (dispatch line st').2) ->
  P st ->
  serve_loop dispatch fuel conns st = Some (served, final) ->
  P final /\ Forall (fun s => P (state_after s)) served
  /\ length served = length conns.
Proof.
  intros Hstep. revert st served.
  induction conns as [|conn rest IH]; intros st served HP; simpl.
  - intros [= <- <-]. by split_and!.
  - destruct (serve_line dispatch fuel conn st) as [s|] eqn:E; [| done].
    destruct (serve_loop dispatch fuel rest (state_after s))
      as [[more fin]|] eqn:E'; [| done].
    intros [= <- <-].
    assert (HPs : P (state_after s)).
    { destruct (serve_line_state fuel conn st s E) as [-> | [line ->]];
        [done | by apply Hstep]. }
    destruct (IH (state_after s) more HPs E') as (Hfin & Hall & Hlen).
    split_and!; [done | by constructor | simpl; by rewrite Hlen].
Qed.

Lemma serve_loop_answers (fuel : nat) (conns : list Conn) (st final : S)
  (served : list (Served S)) :
  (forall line st', well_formed_response (dispatch line st').1) ->
  serve_loop dispatch fuel conns st = Some (served, final) ->
  Forall answered_well served.
Proof.
  intros Hwf. revert st served.
  induction conns as [|conn rest IH]; intros st served; simpl.
  - intros [= <- <-]. constructor.
  - destruct (serve_line dispatch fuel conn st) as [s|] eqn:E; [| done].
    destruct (serve_loop dispatch fuel rest (state_after s))
      as [[more fin]|] eqn:E'; [| done].
    intros [= <- <-]. constructor; [| by apply (IH (state_after s))].
    unfold serve_line in E. unfold answered_well.
    destruct (recv_line fuel (conn_recv conn)) as [[[line|]|e]|];
      [| | | done].
    + specialize (Hwf line st). destruct (dispatch line st) as [resp st'].
      injection E as <-. simpl. by exists resp.
    + by injection E as <-.
    + injection E as <-. simpl. eexists. split; [| reflexivity].
      right; right. by eexists.
Qed.
End ServeFacts.

(** X14. The accept loop of the sequential server, over any connections.
    Whenever the loop has got through the connections it accepted, it
    has dealt with each of them once; every answer it sent is a response
    of one of the three shapes; and when no two records of the grade
    file shared a pair (ID, Materia) at the start, none do after any of
    the connections, whatever the clients sent and however their
    connections failed. When every client sends its bytes in non-empty
    chunks and closes, and a read is allowed one [recv] more than the
    chunks of a connection, the loop does get through, and the grade
    file at the end is the file after dispatching the first line of each
    connection in turn (a connection without bytes counting for
    nothing). *)
Theorem sin_serve_forever_runs `{PyRuntime} `{PyWire} (env : Env) (fuel : nat)
  (records : Store) :
  (forall conns served final,
     SinHilosLoop.serve_forever env fuel conns records = Some (served, final) ->
     length served = length conns
     /\ Forall answered_well served
     /\ (unique_keys records ->
         unique_keys final
         /\ Forall (fun s => unique_keys (state_after s)) served))
  /\ (forall css,
        Forall (fun chunks => Forall (fun chunk => chunk <> []) chunks
                              /\ (length chunks < fuel)%nat) css ->
        exists served,
          SinHilosLoop.serve_forever env fuel (map conn_of css) records
          = Some (served,
                  foldl (after_bytes (SinHilos.respond env)) records
                        (map (@concat N) css))).
Proof.
  unfold SinHilosLoop.serve_forever. split.
  - intros conns served final Hrun.
    assert (Hwf : forall line st',
               well_formed_response (SinHilos.respond env line st').1).
    { intros line st'. apply sin_respond_well_formed. }
    split_and!.
    + by destruct (serve_loop_invariant (SinHilos.respond env)
                     (fun _ => True) fuel conns records final served)
        as (_ & _ & ?).
    + by apply (serve_loop_answers (SinHilos.respond env) fuel conns
                  records final served).
    + intros Hu.
      destruct (serve_loop_invariant (SinHilos.respond env) unique_keys
                  fuel conns records final served) as (? & ? & _);
        try done.
      intros line st' Hst'. unfold SinHilos.respond.
      pose proof (sin_process_unique env line st' Hst') as Hp.
      by destruct (SinHilos.process_command env line st').
  - intros css Hall.
    destruct (serve_loop_streams (SinHilos.respond env) css fuel records Hall)
      as (served & Hrun & _).
    by exists served.
Qed.

Lemma sin_serve_forever_runs_witness :
  exists served,
    SinHilosLoop.serve_forever (H := example_runtime)
      (H0 := table_wire (py "{}")) example_env 4
      (map conn_of [[py "AGREGAR|1|"; py "PRO201|8" ++ [NEWLINE]];
                    [];
                    [py "eliminar|1|MAT101"]])
      [mkRow (py "1") (py "MAT101") (py "9")]
    = Some (served, [mkRow (py "1") (py "PRO201") (py "8")]).
Proof.
  assert (Hall : Forall (fun chunks => Forall (fun chunk => chunk <> []) chunks
                                       /\ (length chunks < 4)%nat)
                   [[py "AGREGAR|1|"; py "PRO201|8" ++ [NEWLINE]];
                    [];
                    [py "eliminar|1|MAT101"]]).
  { repeat constructor; simpl; try lia; discriminate. }
  destruct (proj2 (sin_serve_forever_runs (H := example_runtime)
                     (H0 := table_wire (py "{}")) example_env 4
                     [mkRow (py "1") (py "MAT101") (py "9")]) _ Hall)
    as [served Hrun].
  exists served. exact (eq_trans Hrun eq_refl).
Defined.

(** X15. One connection can stop the sequential servers for good. The
    accept loops of the sequential grade server and of the catalog
    service read a connection to the end of its line before they accept
    the next one, and put no limit on that read: when one of the
    connections is to a peer that keeps sending bytes without a line
    break and never closes, the loop never gets through its connections,
    however many calls of [recv] it is given, so the connections behind
    that one are never served. *)
Theorem sequential_servers_blocked_by_drip `{PyRuntime} `{PyWire} (env : Env)
  (nrcs : list NrcsServer.NrcRow) (fuel : nat) (conns : list Conn)
  (records : Store) :
  In drip_conn conns ->
  SinHilosLoop.serve_forever env fuel conns records = None
  /\ NrcsLoop.serve_forever nrcs fuel conns = None.
Proof.
  intros Hin. split; by apply serve_loop_drip.
Qed.

Lemma sequential_servers_blocked_by_drip_witness :
  SinHilosLoop.serve_forever (H := example_runtime)
    (H0 := table_wire (py "{}")) example_env 1000
    [conn_of [py "LISTAR" ++ [NEWLINE]]; drip_conn;
     conn_of [py "LISTAR" ++ [NEWLINE]]] []
  = None.
Proof.
  assert (Hin : In drip_conn
                  [conn_of [py "LISTAR" ++ [NEWLINE]]; drip_conn;
                   conn_of [py "LISTAR" ++ [NEWLINE]]])
    by (simpl; auto).
  exact (proj1 (sequential_servers_blocked_by_drip (H := example_runtime)
                  (H0 := table_wire (py "{}")) example_env [] 1000%nat _ []
                  Hin)).
Defined.

(** * From one end of a connection to the other *)

Lemma exchange_stream (chunks : list (list N)) (fuel : nat) :
  Forall (fun chunk => chunk <> []) chunks ->
  (length chunks < fuel)%nat ->
  ConHilos.exchange fuel (ConHilos.mkPeer None None (stream_of chunks))
  = Some (Return (received chunks)).
Proof.
  intros Hne Hfuel. unfold ConHilos.exchange. simpl.
  by apply recv_loop_stream.
Qed.

Section EndToEnd.
Context `{PyRuntime} `{PyWire}.

Lemma received_line (chunks : list (list N)) (text : pystr) :
  chunking chunks (line_bytes text) ->
  carries text ->
  received chunks <> []
  /\ decode_utf8 (ConHilos.first_line (received chunks)) = text.
Proof.
  intros [Hcat Hne] [Hbytes Hdec]. split.
  - intros Hnil. apply (received_nil chunks Hne) in Hnil. congruence.
  - by rewrite first_line_received, Hcat.
Qed.

Lemma line_of_carried (text : pystr) :
  carries text -> line_of (line_bytes text) = Some text.
Proof.
  intros [Hbytes Hdec]. unfold line_of.
  destruct (line_bytes text); [done |]. by rewrite Hdec.
Qed.

Lemma consultar_nrc_stream (chunks : list (list N)) (text : pystr)
  (value : JSON) (fuel : nat) :
  chunking chunks (line_bytes text) ->
  carries text ->
  json_loads text = Loaded value ->
  (length chunks < fuel)%nat ->
  ConHilos.consultar_nrc fuel (ConHilos.mkPeer None None (stream_of chunks))
  = Some (Return value).
Proof.
  intros Hch Hcar Hjson Hfuel. unfold ConHilos.consultar_nrc.
  rewrite exchange_stream by (done || apply Hch).
  destruct (received_line chunks text Hch Hcar) as [Hne Hdec].
  destruct (received chunks) as [|b data]; [done |].
  by rewrite Hdec, Hjson.
Qed.

Lemma send_command_stream (chunks : list (list N)) (text : pystr)
  (fuel : nat) :
  chunking chunks (line_bytes text) ->
  carries text ->
  (length chunks < fuel)%nat ->
  Client.send_command fuel (ConHilos.mkPeer None None (stream_of chunks))
  = match json_loads text with
    | Loaded value => Some (Return (Some value))
    | DecodeError => Some (Return None)
    | LoadsRaises e => Some (Raise e)
    end.
Proof.
  intros Hch Hcar Hfuel. unfold Client.send_command.
  rewrite exchange_stream by (done || apply Hch).
  destruct (received_line chunks text Hch Hcar) as [Hne Hdec].
  destruct (received chunks) as [|b data]; [done |].
  by rewrite Hdec.
Qed.

Lemma serve_line_carried {S : Type} (dispatch : pystr -> S -> JSON * S)
  (chunks : list (list N)) (text : pystr) (fuel : nat) (st : S) :
  chunking chunks (line_bytes text) ->
  carries text ->
  (length chunks < fuel)%nat ->
  serve_line dispatch fuel (conn_of chunks) st
  = Some (mkServed (Some (payload (dispatch text st).1)) None
                   (dispatch text st).2).
Proof.
  intros [Hcat Hne] Hcar Hfuel.
  rewrite serve_line_stream by done.
  unfold answer_to, after_bytes. by rewrite Hcat, line_of_carried.
Qed.
End EndToEnd.

(** X16. A catalog lookup, from the grade server to the catalog service
    and back. With a codec that carries the request line and the answer
    line, and a JSON decoder that reads back what the encoder wrote for
    the answer: however the request of [consultar_nrc] for a code is cut
    into chunks on its way, the catalog service answers it with the
    payload of what [process] says of the request line; and however
    that payload is cut into chunks on its way back, [consultar_nrc]
    returns that very value. So the value the threaded AGREGAR tests is
    the answer of [process]. *)
Theorem catalog_lookup_end_to_end `{PyRuntime} `{PyWire}
  (nrcs : list NrcsServer.NrcRow) (materia : pystr)
  (chunks_in chunks_out : list (list N)) (fuel : nat) :
  let request := nrc_request materia in
  let answer := NrcsServer.process nrcs request in
  carries request ->
  carries (json_dumps answer) ->
  json_loads (json_dumps answer) = Loaded answer ->
  chunking chunks_in (line_bytes request) ->
  (length chunks_in < fuel)%nat ->
  chunking chunks_out (payload answer) ->
  (length chunks_out < fuel)%nat ->
  NrcsLoop.serve_forever nrcs fuel [conn_of chunks_in]
  = Some ([mkServed (Some (payload answer)) None tt], tt)
  /\ ConHilos.consultar_nrc fuel
       (ConHilos.mkPeer None None (stream_of chunks_out))
     = Some (Return answer)
  /\ forall roster,
      nrc_resp (catalog_env nrcs roster) materia = Return answer.
Proof.
  cbv zeta. intros Hreq Hans Hjson Hin Hfin Hout Hfout. split_and!.
  - unfold NrcsLoop.serve_forever. simpl.
    by rewrite (serve_line_carried _ chunks_in (nrc_request materia)).
  - by apply (consultar_nrc_stream chunks_out
                (json_dumps (NrcsServer.process nrcs (nrc_request materia)))).
  - intros roster. by apply catalog_env_carried.
Qed.

Lemma catalog_lookup_end_to_end_witness :
  ConHilos.consultar_nrc (H := table_runtime not_found_line nrc_not_found) 3
    (ConHilos.mkPeer None None (stream_of [not_found_line; [NEWLINE]]))
  = Some (Return nrc_not_found).
Proof.
  pose (rt := table_runtime not_found_line nrc_not_found).
  pose (wire := table_wire not_found_line).
  pose (nrcs := [NrcsServer.mkNrcRow (py "MAT101") (Some (py "Algebra"))]).
  assert (Hreq : carries (H := rt) (H0 := wire) (nrc_request (py "XYZ")))
    by (split; [discriminate | reflexivity]).
  assert (Hans : carries (H := rt) (H0 := wire)
                   (json_dumps (NrcsServer.process (H := rt) nrcs
                                  (nrc_request (py "XYZ")))))
    by (split; [discriminate | reflexivity]).
  assert (Hjson : json_loads (json_dumps (NrcsServer.process (H := rt) nrcs
                                            (nrc_request (py "XYZ"))))
                  = Loaded (NrcsServer.process (H := rt) nrcs
                              (nrc_request (py "XYZ"))))
    by reflexivity.
  assert (Hin : chunking [py "BUSCAR_NRC|X"; py "YZ" ++ [NEWLINE]]
                  (line_bytes (H := wire) (nrc_request (py "XYZ")))).
  { split; [reflexivity |]. repeat constructor; discriminate. }
  assert (Hout : chunking [not_found_line; [NEWLINE]]
                   (payload (H0 := wire)
                      (NrcsServer.process (H := rt) nrcs
                         (nrc_request (py "XYZ"))))).
  { split; [reflexivity |]. repeat constructor; discriminate. }
  exact (proj1 (proj2 (catalog_lookup_end_to_end (H := rt) (H0 := wire) nrcs
                         (py "XYZ") _ _ 3%nat Hreq Hans Hjson Hin
                         ltac:(simpl; lia) Hout ltac:(simpl; lia)))).
Defined.

(** X17. A command of the console client, from the client to the
    sequential server and back. With a codec that carries the command
    line and the answer line, and a JSON decoder that reads back what
    the encoder wrote for the answer: however the command is cut into
    chunks on its way, the server dispatches exactly the command the
    client sent, answers with the payload of its response and leaves
    the grade file as the dispatch left it; and however the payload is
    cut into chunks on its way back, [send_command] returns the
    response. When the connection is refused, when sending or
    receiving fails, and when the server closes without a byte,
    [send_command] returns [None]. *)
Theorem client_server_end_to_end `{PyRuntime} `{PyWire} (env : Env)
  (cmd : pystr) (records : Store) (chunks_in chunks_out : list (list N))
  (fuel : nat) :
  let out := SinHilos.respond env cmd records in
  carries cmd ->
  carries (json_dumps out.1) ->
  json_loads (json_dumps out.1) = Loaded out.1 ->
  chunking chunks_in (line_bytes cmd) ->
  (length chunks_in < fuel)%nat ->
  chunking chunks_out (payload out.1) ->
  (length chunks_out < fuel)%nat ->
  SinHilosLoop.serve_forever env fuel [conn_of chunks_in] records
  = Some ([mkServed (Some (payload out.1)) None out.2], out.2)
  /\ Client.send_command fuel
       (ConHilos.mkPeer None None (stream_of chunks_out))
     = Some (Return (Some out.1))
  /\ (forall p e,
        ConHilos.exchange fuel p = Some (Raise e)
        \/ ConHilos.exchange fuel p = Some (Return []) ->
        Client.send_command fuel p = Some (Return None)).
Proof.
  cbv zeta. intros Hcmd Hans Hjson Hin Hfin Hout Hfout. split_and!.
  - unfold SinHilosLoop.serve_forever. simpl.
    by rewrite (serve_line_carried _ chunks_in cmd).
  - rewrite (send_command_stream chunks_out
               (json_dumps (SinHilos.respond env cmd records).1)) by done.
    by rewrite Hjson.
  - intros p e [E | E]; unfold Client.send_command; by rewrite E.
Qed.

Lemma client_server_end_to_end_witness :
  Client.send_command
    (H := table_runtime (py "{ok: []}") (resp_ok (JArr []))) 3
    (ConHilos.mkPeer None None (stream_of [py "{ok: "; py "[]}" ++ [NEWLINE]]))
  = Some (Return (Some (resp_ok (JArr [])))).
Proof.
  pose (rt := table_runtime (py "{ok: []}") (resp_ok (JArr []))).
  pose (wire := table_wire (py "{ok: []}")).
  assert (Hcmd : carries (H := rt) (H0 := wire) (py "listar"))
    by (split; [discriminate | reflexivity]).
  assert (Hans : carries (H := rt) (H0 := wire)
                   (json_dumps (SinHilos.respond (H := rt) example_env
                                  (py "listar") []).1))
    by (split; [discriminate | reflexivity]).
  assert (Hjson : json_loads (json_dumps (SinHilos.respond (H := rt)
                                            example_env (py "listar") []).1)
                  = Loaded (SinHilos.respond (H := rt) example_env
                              (py "listar") []).1)
    by reflexivity.
  assert (Hin : chunking [py "lis"; py "tar" ++ [NEWLINE]]
                  (line_bytes (H := wire) (py "listar"))).
  { split; [reflexivity |]. repeat constructor; discriminate. }
  assert (Hout : chunking [py "{ok: "; py "[]}" ++ [NEWLINE]]
                   (payload (H0 := wire)
                      (SinHilos.respond (H := rt) example_env
                         (py "listar") []).1)).
  { split; [reflexivity |]. repeat constructor; discriminate. }
  exact (proj1 (proj2 (client_server_end_to_end (H := rt) (H0 := wire)
                         example_env (py "listar") [] _ _ 3%nat
                         Hcmd Hans Hjson Hin ltac:(simpl; lia)
                         Hout ltac:(simpl; lia)))).
Defined.

(** * Any two AGREGAR requests in the threaded server *)

Section ThreadSteps.
Context `{PyRuntime}.

(** The four kinds of step a thread makes. *)
Lemma step_kinds (req : Threads.Request) (me : bool) (p p' : Threads.Pc)
  (rows rows' : Store) (holder holder' : option bool) :
  Threads.step_thread req me p rows holder = Some (p', rows', holder') ->
  finish req p' rows' = finish req p rows
  /\ ((Threads.holds p = false /\ Threads.holds p' = false
       /\ rows' = rows /\ holder' = holder
       /\ (forall rows2, finish req p' rows2 = finish req p rows2))
      \/ (Threads.holds p = false /\ Threads.holds p' = true
          /\ rows' = rows /\ holder = None /\ holder' = Some me)
      \/ (Threads.holds p = true /\ Threads.holds p' = true
          /\ holder' = holder)
      \/ (Threads.holds p = true /\ rows' = rows /\ holder' = None
          /\ exists out, p' = Threads.Done out)).
Proof.
  unfold Threads.step_thread. destruct p as [|s m c|l|l|l recs|l recs|out|out].
  - unfold finish, alone, ConHilos.handle_agregar.
    destruct (Threads.req_parts req) as [|p0 [|a [|b [|mt [|g [|? ?]]]]]];
      try (intros [= <- <- <-]; split; [done | left; by split_and!]).
    destruct (nrc_resp (Threads.req_env req) mt) as [answer|e];
      [| intros [= <- <- <-]; split; [done | left; by split_and!]].
    destruct answer;
      try (intros [= <- <- <-]; split; [done | left; by split_and!]).
    destruct (get_is _ (py "error"));
      [intros [= <- <- <-]; split; [done | left; by split_and!] |].
    destruct (get_is _ (py "not_found"));
      [intros [= <- <- <-]; split; [done | left; by split_and!] |].
    intros [= <- <- <-]. split; [done | left; by split_and!].
  - unfold finish.
    destruct (get_estudiante_nombre _ s);
      intros [= <- <- <-]; (split; [done | left; by split_and!]).
  - destruct holder; [done |]. intros [= <- <- <-].
    split; [done |]. right. left. by split_and!.
  - unfold finish, from_lock, with_records.
    destruct (load_records rows) as [records|e] eqn:El; intros [= <- <- <-].
    + destruct (load_records_return _ _ El) as [-> _].
      split; [done |]. right. right. left. by split_and!.
    + split; [done |]. right. right. left. by split_and!.
  - unfold finish, in_lock.
    destruct (existsb _ recs); intros [= <- <- <-];
      (split; [done |]); right; right; left; by split_and!.
  - intros [= <- <- <-]. split; [done |]. right. right. left. by split_and!.
  - intros [= <- <- <-]. split; [done |]. right. right. right.
    split_and!; try done. by exists out.
  - done.
Qed.

Lemma step_done (req : Threads.Request) (me : bool) (out : Outcome JSON)
  (rows : Store) (holder : option bool) :
  Threads.step_thread req me (Threads.Done out) rows holder = None.
Proof. reflexivity. Qed.

Lemma holds_done (out : Outcome JSON) : Threads.holds (Threads.Done out) = false.
Proof. reflexivity. Qed.

(** A thread that cannot move has returned, or waits for a lock that is
    held. *)
Lemma step_stuck (req : Threads.Request) (me : bool) (p : Threads.Pc)
  (rows : Store) (holder : option bool) :
  Threads.step_thread req me p rows holder = None ->
  (exists out, p = Threads.Done out)
  \/ (exists l k, p = Threads.AtLock l /\ holder = Some k).
Proof.
  unfold Threads.step_thread. destruct p as [|s m c|l|l|l recs|l recs|out|out];
    try done.
  - destruct (Threads.req_parts req) as [|p0 [|a [|b [|mt [|g [|? ?]]]]]];
      try done.
    destruct (nrc_resp (Threads.req_env req) mt) as [answer|e]; [| done].
    destruct answer; try done.
    destruct (get_is _ (py "error")); [done |].
    by destruct (get_is _ (py "not_found")).
  - by destruct (get_estudiante_nombre _ s).
  - destruct holder as [k|]; [| done]. intros _. right. by exists l, k.
  - by destruct (load_records rows).
  - by destruct (existsb _ recs).
  - intros _. left. by exists out.
Qed.
End ThreadSteps.

Section LockDiscipline.
Context `{PyRuntime}.
Variable reqs : bool -> Threads.Request.

Lemma lock_step_from (i : bool) (p q p' : Threads.Pc) (rows rows' : Store)
  (holder holder' : option bool) :
  (holder = Some i <-> Threads.holds p = true) ->
  (holder = Some (negb i) <-> Threads.holds q = true) ->
  Threads.step_thread (reqs i) i p rows holder = Some (p', rows', holder') ->
  (holder' = Some i <-> Threads.holds p' = true)
  /\ (holder' = Some (negb i) <-> Threads.holds q = true).
Proof.
  intros Hp Hq Hstep.
  destruct (step_kinds _ _ _ _ _ _ _ _ Hstep)
    as [_ [(Ep & Ep' & _ & -> & _) | [(Ep & Ep' & _ & -> & ->)
       | [(Ep & Ep' & ->) | (Ep & _ & -> & out & ->)]]]].
  - rewrite Ep'. by rewrite Ep in Hp.
  - rewrite Ep'. split; [done |].
    destruct (Threads.holds q); [| by destruct i].
    destruct Hq as [_ Hq]. by specialize (Hq eq_refl).
  - rewrite Ep'. by rewrite Ep in Hp.
  - pose proof (other_not_holding i p q holder Hp Hq Ep) as Eq.
    rewrite Eq. simpl. by split.
Qed.

Lemma lock_inv_seen_from (c : Threads.Config) (i : bool) :
  lock_inv c
  <-> (Threads.lock c = Some i <-> Threads.holds (Threads.pc c i) = true)
      /\ (Threads.lock c = Some (negb i)
          <-> Threads.holds (Threads.pc c (negb i)) = true).
Proof. unfold lock_inv. by rewrite (forall_bool _ i). Qed.

Lemma lock_inv_init (rows : Store) : lock_inv (Threads.init rows).
Proof. intros i. simpl. by split. Qed.

Lemma lock_inv_step (i : bool) (c c' : Threads.Config) :
  lock_inv c -> Threads.step reqs i c = Some c' -> lock_inv c'.
Proof.
  intros Hinv Hstep. unfold Threads.step in Hstep.
  destruct (Threads.step_thread _ _ _ _ _) as [[[p' rows'] holder']|] eqn:E;
    [| discriminate].
  injection Hstep as <-.
  apply (lock_inv_seen_from _ i). simpl. rewrite set_pc_same, set_pc_other.
  apply (lock_inv_seen_from _ i) in Hinv as [Hp Hq].
  by apply (lock_step_from i (Threads.pc c i) _ _ (Threads.csv c) rows'
              (Threads.lock c)).
Qed.

Lemma lock_inv_reach (c c' : Threads.Config) :
  Threads.reach reqs c c' -> lock_inv c -> lock_inv c'.
Proof.
  induction 1 as [c | c i c1 c2 Hstep _ IH]; [done |].
  intros Hinv. apply IH. by apply (lock_inv_step i c).
Qed.

Lemma lock_inv_run (schedule : list bool) (c : Threads.Config) :
  lock_inv c -> lock_inv (Threads.run reqs schedule c).
Proof. apply lock_inv_reach, run_reach. Qed.


Lemma stuck_not_holding (i : bool) (c : Threads.Config) :
  Threads.step reqs i c = None ->
  Threads.holds (Threads.pc c i) = false.
Proof.
  unfold Threads.step.
  destruct (Threads.step_thread _ _ _ _ _) as [[[p' rows'] holder']|] eqn:E;
    [discriminate |].
  intros _. by destruct (step_stuck _ _ _ _ _ E) as [[out ->] | (l & k & -> & _)].
Qed.

Lemma stuck_done (i : bool) (c : Threads.Config) :
  lock_inv c ->
  Threads.step reqs i c = None ->
  Threads.step reqs (negb i) c = None ->
  exists out, Threads.pc c i = Threads.Done out.
Proof.
  intros Hinv Hi Hn.
  pose proof (stuck_not_holding _ _ Hi) as Hhi.
  pose proof (stuck_not_holding _ _ Hn) as Hhn.
  unfold Threads.step in Hi.
  destruct (Threads.step_thread _ _ _ _ _) as [[[p' rows'] holder']|] eqn:E;
    [discriminate |].
  destruct (step_stuck _ _ _ _ _ E) as [Hd | (l & k & _ & Hk)]; [done |].
  apply Hinv in Hk. destruct i, k; simpl in *; congruence.
Qed.

Lemma no_deadlock (c : Threads.Config) :
  lock_inv c ->
  finished c \/ exists i c', Threads.step reqs i c = Some c'.
Proof.
  intros Hinv.
  destruct (Threads.step reqs true c) as [c1|] eqn:Et; [right; by eauto |].
  destruct (Threads.step reqs false c) as [c1|] eqn:Ef; [right; by eauto |].
  left. intros [|].
  - by apply (stuck_done true).
  - by apply (stuck_done false).
Qed.

Lemma finished_stays (schedule : list bool) (c : Threads.Config) :
  finished c -> Threads.run reqs schedule c = c.
Proof.
  intros Hfin. induction schedule as [|i rest IH]; simpl; [done |].
  unfold Threads.step. destruct (Hfin i) as [out ->]. by rewrite step_done.
Qed.


Lemma rank_zero (p : Threads.Pc) :
  Threads.rank p = 0%nat -> exists out, p = Threads.Done out.
Proof. destruct p; try done. by eauto. Qed.

Lemma round_robin_finishes (n : nat) (c : Threads.Config) :
  lock_inv c ->
  (Threads.steps_left c <= n)%nat ->
  finished (Threads.run reqs (round_robin n) c).
Proof.
  revert c. induction n as [|n IH]; intros c Hinv Hleft.
  - simpl. unfold Threads.steps_left in Hleft.
    intros [|]; apply rank_zero; lia.
  - destruct (no_deadlock c Hinv) as [Hfin | Hmove];
      [by rewrite finished_stays |].
    cbn [round_robin Threads.run].
    destruct (Threads.step reqs true c) as [c1|] eqn:Et.
    + pose proof (step_fewer_left reqs true c c1 Et) as Hlt.
      pose proof (lock_inv_step true c c1 Hinv Et) as Hinv1.
      destruct (Threads.step reqs false c1) as [c2|] eqn:Ef.
      * apply IH; [by apply (lock_inv_step false c1) |].
        pose proof (step_fewer_left reqs false c1 c2 Ef). lia.
      * apply IH; [done | lia].
    + destruct (Threads.step reqs false c) as [c2|] eqn:Ef.
      * apply IH; [by apply (lock_inv_step false c) |].
        pose proof (step_fewer_left reqs false c c2 Ef). lia.
      * destruct Hmove as ([|] & c' & Hc'); congruence.
Qed.
End LockDiscipline.



Section Serializable.
Context `{PyRuntime}.
Variable reqs : bool -> Threads.Request.
Variable rows0 : Store.

Lemma early_step (req : Threads.Request) (p p' : Threads.Pc) :
  early_at req p ->
  Threads.holds p' = false ->
  (forall rows2, finish req p' rows2 = finish req p rows2) ->
  early_at req p'.
Proof.
  intros [_ Hp] Hh Hall. split; [done |].
  intros rows. by rewrite Hall.
Qed.

Lemma lin_enter (req : Threads.Request) (p p' : Threads.Pc) (rows : Store) :
  early_at req p ->
  Threads.holds p' = true ->
  finish req p' rows = finish req p rows ->
  lin_at req rows p' rows.
Proof.
  intros [_ Hp] Hh Hfin. left. split; [done |]. by rewrite Hfin.
Qed.

Lemma lin_inside (req : Threads.Request) (base : Store) (p p' : Threads.Pc)
  (rows rows' : Store) :
  lin_at req base p rows ->
  Threads.holds p = true ->
  Threads.holds p' = true ->
  finish req p' rows' = finish req p rows ->
  lin_at req base p' rows'.
Proof.
  intros [[_ Hp] | (out & -> & _)] Hh Hh' Hfin; [| done].
  left. split; [done |]. by rewrite Hfin.
Qed.

Lemma lin_leave (req : Threads.Request) (base : Store) (p : Threads.Pc)
  (out : Outcome JSON) (rows : Store) :
  lin_at req base p rows ->
  Threads.holds p = true ->
  finish req (Threads.Done out) rows = finish req p rows ->
  lin_at req base (Threads.Done out) rows.
Proof.
  intros [[_ Hp] | (o & -> & _)] Hh Hfin; [| done].
  right. exists out. split; [done |]. by rewrite <- Hp, <- Hfin.
Qed.

Lemma lin_not_early (req : Threads.Request) (base : Store) (p p' : Threads.Pc)
  (me : bool) (rows rows' : Store) (holder holder' : option bool) :
  lin_at req base p rows ->
  Threads.holds p = false ->
  Threads.step_thread req me p rows holder = Some (p', rows', holder') ->
  False.
Proof.
  intros [[Hh _] | (out & -> & _)] Hno Hstep; [congruence |].
  by rewrite step_done in Hstep.
Qed.

Lemma first_no_step (req : Threads.Request) (base after : Store)
  (p p' : Threads.Pc) (me : bool) (rows rows' : Store)
  (holder holder' : option bool) :
  first_at req base p after ->
  Threads.step_thread req me p rows holder = Some (p', rows', holder') ->
  False.
Proof.
  intros (out & -> & _) Hstep. by rewrite step_done in Hstep.
Qed.

Lemma ser_step_from (i : bool) (p q p' : Threads.Pc) (rows rows' : Store)
  (holder holder' : option bool) :
  ser_from reqs rows0 i p q rows holder ->
  Threads.step_thread (reqs i) i p rows holder = Some (p', rows', holder') ->
  ser_from reqs rows0 i p' q rows' holder'.
Proof.
  intros (Hp & Hq & Hst) Hstep.
  destruct (lock_step_from reqs i p q p' rows rows' holder holder' Hp Hq Hstep)
    as [Hp' Hq'].
  split; [done |]. split; [done |].
  destruct (step_kinds _ _ _ _ _ _ _ _ Hstep)
    as [Hfin [(Ep & Ep' & -> & -> & Hall) | [(Ep & Ep' & -> & -> & ->)
       | [(Ep & Ep' & ->) | (Ep & -> & -> & out & ->)]]]].
  - (* a step outside the block *)
    destruct Hst as [(Hep & Heq & ->) | [(Hlp & Heq) | [(Hlq & Hep)
      | [(r1 & Hfp & Hlq) | (r1 & Hfq & Hlp)]]]].
    + left. split_and!; [by apply (early_step _ p) | done | done].
    + by destruct (lin_not_early _ _ _ _ _ _ _ _ _ Hlp Ep Hstep).
    + right. right. left. split; [done | by apply (early_step _ p)].
    + by destruct (first_no_step _ _ _ _ _ _ _ _ _ _ Hfp Hstep).
    + by destruct (lin_not_early _ _ _ _ _ _ _ _ _ Hlp Ep Hstep).
  - (* entering the block *)
    destruct Hst as [(Hep & Heq & ->) | [(Hlp & Heq) | [(Hlq & Hep)
      | [(r1 & Hfp & Hlq) | (r1 & Hfq & Hlp)]]]].
    + right. left. split; [by apply (lin_enter _ p) | done].
    + by destruct (lin_not_early _ _ _ _ _ _ _ _ _ Hlp Ep Hstep).
    + destruct Hlq as [[Hhq _] | (out & -> & Hq0)].
      { apply Hq in Hhq. discriminate. }
      right. right. right. right. exists rows. split.
      * by exists out.
      * by apply (lin_enter _ p).
    + by destruct (first_no_step _ _ _ _ _ _ _ _ _ _ Hfp Hstep).
    + by destruct (lin_not_early _ _ _ _ _ _ _ _ _ Hlp Ep Hstep).
  - (* a step inside the block *)
    destruct Hst as [(Hep & Heq & ->) | [(Hlp & Heq) | [(Hlq & Hep)
      | [(r1 & Hfp & Hlq) | (r1 & Hfq & Hlp)]]]].
    + destruct Hep as [Hno _]. congruence.
    + right. left. split; [by apply (lin_inside _ _ p _ rows) | done].
    + destruct Hep as [Hno _]. congruence.
    + by destruct (first_no_step _ _ _ _ _ _ _ _ _ _ Hfp Hstep).
    + right. right. right. right. exists r1.
      split; [done | by apply (lin_inside _ _ p _ rows)].
  - (* leaving the block *)
    destruct Hst as [(Hep & Heq & ->) | [(Hlp & Heq) | [(Hlq & Hep)
      | [(r1 & Hfp & Hlq) | (r1 & Hfq & Hlp)]]]].
    + destruct Hep as [Hno _]. congruence.
    + right. left. split; [by apply (lin_leave _ _ p) | done].
    + destruct Hep as [Hno _]. congruence.
    + by destruct (first_no_step _ _ _ _ _ _ _ _ _ _ Hfp Hstep).
    + right. right. right. right. exists r1.
      split; [done | by apply (lin_leave _ _ p)].
Qed.

Lemma ser_from_swap (i : bool) (p q : Threads.Pc) (rows : Store)
  (holder : option bool) :
  ser_from reqs rows0 i p q rows holder
  -> ser_from reqs rows0 (negb i) q p rows holder.
Proof.
  unfold ser_from. rewrite negb_involutive.
  intros (Hp & Hq & Hst). split; [done |]. split; [done |].
  destruct Hst as [(Hep & Heq & ->) | [(Hlp & Heq) | [(Hlq & Hep)
    | [(r1 & Hfp & Hlq) | (r1 & Hfq & Hlp)]]]].
  - by left.
  - right. right. left. by split.
  - right. left. by split.
  - right. right. right. right. by exists r1.
  - right. right. right. left. by exists r1.
Qed.

Lemma serial_inv_seen_from (c : Threads.Config) (i : bool) :
  serial_inv reqs rows0 c
  <-> ser_from reqs rows0 i (Threads.pc c i) (Threads.pc c (negb i))
        (Threads.csv c) (Threads.lock c).
Proof.
  unfold serial_inv. destruct i; simpl; [done |]. split.
  - apply (ser_from_swap true (Threads.pc c true) (Threads.pc c false)).
  - apply (ser_from_swap false (Threads.pc c false) (Threads.pc c true)).
Qed.

Lemma serial_inv_init : serial_inv reqs rows0 (Threads.init rows0).
Proof.
  unfold serial_inv, ser_from, Threads.init. simpl.
  split; [done |]. split; [done |]. left. by split_and!.
Qed.

Lemma serial_inv_step (i : bool) (c c' : Threads.Config) :
  serial_inv reqs rows0 c ->
  Threads.step reqs i c = Some c' ->
  serial_inv reqs rows0 c'.
Proof.
  intros Hinv Hstep. unfold Threads.step in Hstep.
  destruct (Threads.step_thread _ _ _ _ _) as [[[p' rows'] holder']|] eqn:E;
    [| discriminate].
  injection Hstep as <-.
  apply (serial_inv_seen_from _ i). simpl.
  rewrite set_pc_same, set_pc_other.
  apply (ser_step_from i (Threads.pc c i) _ _ (Threads.csv c) _
           (Threads.lock c)); [| done].
  by apply serial_inv_seen_from.
Qed.

Lemma serial_inv_reach (c c' : Threads.Config) :
  Threads.reach reqs c c' ->
  serial_inv reqs rows0 c ->
  serial_inv reqs rows0 c'.
Proof.
  induction 1 as [c | c i c1 c2 Hstep _ IH]; [done |].
  intros Hinv. apply IH. by apply (serial_inv_step i c).
Qed.

Lemma early_done (req : Threads.Request) (out : Outcome JSON) (rows : Store) :
  early_at req (Threads.Done out) -> alone req rows = (out, rows).
Proof. intros [_ Hall]. by rewrite <- Hall. Qed.

Lemma lin_done (req : Threads.Request) (base : Store) (out : Outcome JSON)
  (rows : Store) :
  lin_at req base (Threads.Done out) rows -> alone req base = (out, rows).
Proof. by intros [[Hh _] | (o & [= <-] & Ho)]. Qed.

Lemma first_done (req : Threads.Request) (base after : Store)
  (out : Outcome JSON) :
  first_at req base (Threads.Done out) after -> alone req base = (out, after).
Proof. by intros (o & [= <-] & Ho). Qed.

Lemma serial_inv_finished (c : Threads.Config) (outs : bool -> Outcome JSON) :
  serial_inv reqs rows0 c ->
  (forall i, Threads.pc c i = Threads.Done (outs i)) ->
  exists i, serial_order reqs rows0 i outs (Threads.csv c).
Proof.
  unfold serial_inv, ser_from, serial_order.
  intros (_ & _ & Hst) Hdone.
  rewrite (Hdone true), (Hdone false) in Hst. simpl in Hst.
  destruct Hst as [(Hep & Heq & ->) | [(Hlp & Heq) | [(Hlq & Hep)
    | [(r1 & Hfp & Hlq) | (r1 & Hfq & Hlp)]]]].
  - exists true, rows0. simpl. split; by apply early_done.
  - exists true, (Threads.csv c). simpl.
    split; [by apply lin_done | by apply early_done].
  - exists false, (Threads.csv c). simpl.
    split; [by apply lin_done | by apply early_done].
  - exists true, r1. simpl. split; [by apply first_done | by apply lin_done].
  - exists false, r1. simpl. split; [by apply first_done | by apply lin_done].
Qed.
End Serializable.

(** X19. Two AGREGAR requests served by two threads are served as if
    one after the other. For any two requests (any fields, any roster
    and catalog answers) and any interleaving of the steps of the two
    threads from the start: when both threads have returned, there is
    an order of the two requests such that the outcome of each thread
    and the rows of the grade file are exactly those of running
    [handle_agregar] of the first request on the file as it was at the
    start and then [handle_agregar] of the second on the file the first
    left. Giving the threads their turns one after the other fourteen
    times does make both return. *)
Theorem agregar_threads_serializable `{PyRuntime}
  (reqs : bool -> Threads.Request) (rows0 : Store) (c : Threads.Config)
  (outs : bool -> Outcome JSON) :
  Threads.reach reqs (Threads.init rows0) c ->
  (forall i, Threads.pc c i = Threads.Done (outs i)) ->
  (exists i, serial_order reqs rows0 i outs (Threads.csv c))
  /\ finished (Threads.run reqs (round_robin 14) (Threads.init rows0)).
Proof.
  intros Hreach Hdone. split.
  - apply serial_inv_finished; [| done].
    apply (serial_inv_reach reqs rows0 _ _ Hreach), serial_inv_init.
  - apply round_robin_finishes; [apply lock_inv_init |].
    by apply Nat.leb_le.
Qed.

Lemma agregar_threads_serializable_witness :
  exists i,
    serial_order (H := example_runtime) two_requests [] i
      (fun j => Return (inserted (mkRow (if j then py "1" else py "2")
                                        (py "MAT101") (py "9"))
                                 (if j then py "Ana" else py "Luis")))
      [mkRow (py "2") (py "MAT101") (py "9");
       mkRow (py "1") (py "MAT101") (py "9")].
Proof.
  pose (schedule := [true; false; false; true; false; true; false; false;
                     false; false; true; true; true; true; true]).
  assert (Hdone : forall i,
             Threads.pc (Threads.run (H := example_runtime) two_requests
                           schedule (Threads.init [])) i
             = Threads.Done
                 (Return (inserted (mkRow (if i then py "1" else py "2")
                                          (py "MAT101") (py "9"))
                                   (if i then py "Ana" else py "Luis"))))
    by (intros [|]; vm_compute; reflexivity).
  exact (proj1 (agregar_threads_serializable (H := example_runtime)
                  two_requests [] _ _
                  (run_reach (H := example_runtime) two_requests schedule
                     (Threads.init []))
                  Hdone)).
Defined.

(** * The first record of a student *)

Lemma find_filter_head {A} (p : A -> bool) (l : list A) :
  List.find p l = head (List.filter p l).
Proof.
  induction l as [|a l IH]; simpl; [done |]. by destruct (p a).
Qed.

(** X20. [find_by_id] of the sequential server, on a grade file that
    can be read, returns the first stored record of the student, which
    is the record the first item of a BUSCAR answer shows; on a grade
    file that cannot be read it raises the exception of the reader. It
    returns [None] exactly when BUSCAR answers not_found, which on a
    readable file is exactly when the student has no record. A record
    it returns is in the store and has the ID asked for. *)
Theorem find_by_id_first `{PyRuntime} (env : Env) (p0 student_id : pystr)
  (records : Store) :
  (readable records = true ->
   find_by_id student_id records
   = Return (head (notas_de student_id records)))
  /\ (readable records = false ->
      find_by_id student_id records = Raise csv_field_error)
  /\ (find_by_id student_id records = Return None
      <-> (SinHilos.handle_buscar env [p0; student_id] records).1
          = Return (resp_not_found msg_no_id))
  /\ (forall r, find_by_id student_id records = Return (Some r) ->
                In r records /\ ID_Estudiante r = student_id
                /\ exists l1 l2,
                     records = l1 ++ r :: l2
                     /\ notas_de student_id l1 = []).
Proof.
  unfold find_by_id, SinHilos.handle_buscar, with_records, load_records.
  split_and!.
  - intros ->. by rewrite find_filter_head.
  - by intros ->.
  - destruct (readable records); [| by split].
    rewrite find_filter_head. fold (notas_de student_id records).
    destruct (notas_de student_id records) as [|r rows]; simpl.
    + by split.
    + split; discriminate.
  - intros r. destruct (readable records); [| discriminate].
    intros [= Hfind]. pose proof (find_some _ _ Hfind) as [Hin Hid].
    split; [done |]. split; [by apply has_id_true |].
    clear Hin Hid. induction records as [|a rest IH]; simpl in *; [done |].
    destruct (has_id student_id a) eqn:Ea.
    + injection Hfind as ->. by exists [], rest.
    + destruct (IH Hfind) as (l1 & l2 & -> & Hl1).
      exists (a :: l1), l2. split; [done |].
      unfold notas_de in *. simpl. by rewrite Ea.
Qed.

Lemma find_by_id_first_witness :
  readable [mkRow (py "2") (py "MAT101") (py "7");
            mkRow (py "1") (py "MAT101") (py "9");
            mkRow (py "1") (py "PRO201") (py "8")] = true
  /\ find_by_id (py "1")
       [mkRow (py "2") (py "MAT101") (py "7");
        mkRow (py "1") (py "MAT101") (py "9");
        mkRow (py "1") (py "PRO201") (py "8")]
     = Return (Some (mkRow (py "1") (py "MAT101") (py "9"))).
Proof.
  split; [reflexivity |].
  exact (proj1 (find_by_id_first (H := example_runtime) example_env
                  (py "BUSCAR") (py "1")
                  [mkRow (py "2") (py "MAT101") (py "7");
                   mkRow (py "1") (py "MAT101") (py "9");
                   mkRow (py "1") (py "PRO201") (py "8")]) eq_refl).
Defined.

(** * Stripped fields and joined lines *)

Lemma lstrip_idem (s : pystr) : lstrip (lstrip s) = lstrip s.
Proof.
  induction s as [|c r IH]; simpl; [done |].
  destruct (is_space c) eqn:E; [done |]. simpl. by rewrite E.
Qed.

Lemma rstrip_idem (s : pystr) : rstrip (rstrip s) = rstrip s.
Proof. unfold rstrip. by rewrite rev_involutive, lstrip_idem. Qed.

Lemma rstrip_space_cons (c : N) (r : pystr) :
  is_space c = true ->
  rstrip (c :: r) = match rstrip r with
                    | [] => []
                    | _ => c :: rstrip r
                    end.
Proof.
  intros Hc. unfold rstrip. simpl rev.
  destruct (lstrip (rev r)) as [|d t] eqn:E.
  - rewrite lstrip_app_empty by done. simpl. by rewrite Hc.
  - rewrite lstrip_app_nonempty by (by rewrite E). rewrite E.
    rewrite rev_app_distr. change (rev [c]) with [c]. cbn [app].
    destruct (rev (d :: t)) eqn:Er; [| done].
    apply (f_equal (@length N)) in Er. rewrite length_rev in Er. done.
Qed.

Lemma rstrip_lstrip (s : pystr) : rstrip (lstrip s) = lstrip (rstrip s).
Proof.
  induction s as [|c r IH]; [done |]. simpl lstrip at 1.
  destruct (is_space c) eqn:E.
  - rewrite rstrip_space_cons by done. rewrite IH.
    destruct (rstrip r) as [|d t]; [done |]. simpl. by rewrite E.
  - rewrite rstrip_cons by done. simpl. by rewrite E.
Qed.

Lemma strip_lstrip (s : pystr) : lstrip (strip s) = strip s.
Proof. apply lstrip_idem. Qed.

Lemma strip_rstrip (s : pystr) : rstrip (strip s) = strip s.
Proof.
  unfold strip. by rewrite <- rstrip_lstrip, rstrip_idem.
Qed.

Lemma strip_idem (s : pystr) : strip (strip s) = strip s.
Proof.
  unfold strip at 1. by rewrite strip_rstrip, strip_lstrip.
Qed.

Lemma pipe_free_strip (s : pystr) :
  pipe_free s = true -> pipe_free (strip s) = true.
Proof.
  intros Hs. unfold strip, pipe_free. by apply forallb_lstrip, forallb_rstrip.
Qed.

Lemma split_join (fields : list pystr) :
  fields <> [] ->
  Forall (fun f => pipe_free f = true) fields ->
  split PIPE (join fields) = fields.
Proof.
  induction fields as [|f rest IH]; [done |]. intros _ Hall.
  apply Forall_cons in Hall as [Hf Hrest].
  destruct rest as [|g rest]; [by apply split_plain |].
  change (join (f :: g :: rest)) with (f ++ PIPE :: join (g :: rest)).
  rewrite split_app_sep by done. by rewrite IH.
Qed.

Lemma rstrip_join (fields : list pystr) :
  Forall (fun f => rstrip f = f) fields ->
  rstrip (join fields) = join fields.
Proof.
  induction fields as [|f rest IH]; [done |]. intros Hall.
  apply Forall_cons in Hall as [Hf Hrest].
  destruct rest as [|g rest]; [done |].
  change (join (f :: g :: rest)) with (f ++ PIPE :: join (g :: rest)).
  specialize (IH Hrest).
  assert (Hsep : rstrip (PIPE :: join (g :: rest)) = PIPE :: join (g :: rest))
    by (by rewrite rstrip_cons, IH).
  rewrite rstrip_app_keep; by rewrite Hsep.
Qed.

Lemma parts_of_line (name : pystr) (fields : list pystr) :
  name <> [] ->
  forallb (fun c => negb (is_space c)) name = true ->
  pipe_free name = true ->
  Forall (fun f => pipe_free f = true) fields ->
  Forall (fun f => rstrip f = f) fields ->
  parts_of (line_of_fields name fields) = name :: fields.
Proof.
  intros Hne Hsp Hpf Hfields Hstripped. unfold line_of_fields.
  destruct fields as [|f rest].
  - pose proof (parts_of_command [] name [] [] Hne Hsp Hpf eq_refl eq_refl
                  eq_refl) as Hparts.
    simpl in Hparts. by rewrite app_nil_r in *.
  - pose proof (parts_of_command [] name (PIPE :: join (f :: rest)) [] Hne Hsp
                  Hpf eq_refl eq_refl eq_refl) as Hparts.
    rewrite app_nil_r in Hparts. cbn [app] in Hparts. rewrite Hparts.
    cbn [tail_fields]. by rewrite rstrip_join, split_join.
Qed.

Section ClientCommands.
Context `{PyRuntime}.

Lemma menu_line (file : option (list pystr)) (choice : ClientMenu.Choice)
  (cmd : pystr) :
  ClientMenu.menu file choice = Some cmd ->
  cmd = line_of_fields (ClientMenu.fields_of choice).1
                       (ClientMenu.fields_of choice).2.
Proof.
  destruct choice as [sid mat cal|sid|sid mat nueva| |sid mat]; simpl.
  - destruct (ClientMenu.load_estudiantes_map file !! strip sid)
      as [[|c n]|]; try done.
    by intros [= <-].
  - by intros [= <-].
  - destruct (truthy (strip mat)); by intros [= <-].
  - by intros [= <-].
  - destruct (truthy (strip mat)); by intros [= <-].
Qed.

Lemma fields_of_stripped (choice : ClientMenu.Choice) :
  Forall (fun s => pipe_free s = true) (ClientMenu.inputs choice) ->
  Forall (fun f => pipe_free f = true) (ClientMenu.fields_of choice).2
  /\ Forall (fun f => rstrip f = f) (ClientMenu.fields_of choice).2.
Proof.
  destruct choice as [sid mat cal|sid|sid mat nueva| |sid mat]; simpl;
    intros Hall; repeat (apply Forall_cons in Hall as [? Hall]);
    try destruct (truthy (strip mat));
    split; repeat constructor;
    try (by apply pipe_free_strip); apply strip_rstrip.
Qed.

Lemma menu_parts (file : option (list pystr)) (choice : ClientMenu.Choice)
  (cmd : pystr) :
  Forall (fun s => pipe_free s = true) (ClientMenu.inputs choice) ->
  ClientMenu.menu file choice = Some cmd ->
  parts_of cmd = (ClientMenu.fields_of choice).1
                 :: (ClientMenu.fields_of choice).2.
Proof.
  intros Hpf Hmenu. rewrite (menu_line file choice cmd Hmenu).
  destruct (fields_of_stripped choice Hpf) as [Hf Hs].
  apply parts_of_line; try done; by destruct choice.
Qed.
End ClientCommands.

(** X21. The sequential server reads back what the console client
    wrote. For texts typed at the prompts without the separator in them:
    the command a turn of the menu sends is split by the dispatcher into
    the command name and exactly the fields the client put on the line
    (the typed texts, stripped), so the sequential server never takes it
    for malformed; the client sends an AGREGAR only for a student with a
    non-empty name in its own copy of the roster, and the sequential
    server then runs its insert on the ID, code and grade typed. The
    threaded server answers every AGREGAR of this client with its format
    error and stores nothing. *)
Theorem client_commands_parse_back `{PyRuntime} (file : option (list pystr))
  (choice : ClientMenu.Choice) (cmd : pystr) (env : Env) (records : Store) :
  Forall (fun s => pipe_free s = true) (ClientMenu.inputs choice) ->
  ClientMenu.menu file choice = Some cmd ->
  parts_of cmd = (ClientMenu.fields_of choice).1
                 :: (ClientMenu.fields_of choice).2
  /\ malformed sin_arg_counts cmd = false
  /\ (forall student_id materia calificacion,
        choice = ClientMenu.OpAgregar student_id materia calificacion ->
        shown (ClientMenu.load_estudiantes_map file) (strip student_id)
        <> None
        /\ SinHilos.process_command env cmd records
           = SinHilos.handle_agregar env
               [py "AGREGAR"; strip student_id; strip materia;
                strip calificacion] records
        /\ ConHilos.process_command env cmd records
           = (Return (resp_error con_msg_agregar), records)).
Proof.
  intros Hpf Hmenu. pose proof (menu_parts file choice cmd Hpf Hmenu) as Hparts.
  split_and!; [done | |].
  - unfold malformed. rewrite Hparts.
    destruct choice as [sid mat cal|sid|sid mat nueva| |sid mat]; simpl;
      try destruct (truthy (strip mat)); reflexivity.
  - intros sid mat cal ->. simpl in Hparts. split_and!.
    + unfold shown. simpl in Hmenu.
      by destruct (ClientMenu.load_estudiantes_map file !! strip sid)
        as [[|c n]|].
    + by apply sin_dispatch_agregar.
    + rewrite (con_dispatch_agregar env cmd records _ _ Hparts) by done.
      by apply con_agregar_arity.
Qed.

Lemma client_commands_parse_back_witness :
  parts_of (py "ACTUALIZAR|1|8")
  = [py "ACTUALIZAR"; py "1"; py "8"].
Proof.
  assert (Hpf : Forall (fun s => pipe_free s = true)
                  (ClientMenu.inputs
                     (ClientMenu.OpActualizar (py " 1") (py "  ") (py "8 "))))
    by (repeat constructor).
  assert (Hmenu : ClientMenu.menu None
                    (ClientMenu.OpActualizar (py " 1") (py "  ") (py "8 "))
                  = Some (py "ACTUALIZAR|1|8"))
    by (vm_compute; reflexivity).
  exact (proj1 (client_commands_parse_back (H := example_runtime) None
                  (ClientMenu.OpActualizar (py " 1") (py "  ") (py "8 "))
                  (py "ACTUALIZAR|1|8") example_env [] Hpf Hmenu)).
Defined.

(** * The client's copy of the roster *)

Lemma plain_field_facts (s : pystr) :
  plain_field s = true ->
  forallb (fun c => negb (c =? COMMA)) s = true
  /\ lstrip s = s /\ rstrip s = s /\ strip s = s.
Proof.
  unfold plain_field. intros [Hall Hs]%andb_true_iff.
  apply str_eqb_eq in Hs. split_and!.
  - clear Hs. induction s as [|c s IH]; simpl in *; [done |].
    apply andb_true_iff in Hall as [Hc Hall].
    rewrite (IH Hall), andb_true_r.
    by destruct (c =? COMMA).
  - rewrite <- Hs. apply strip_lstrip.
  - rewrite <- Hs. apply strip_rstrip.
  - done.
Qed.

Lemma split_once_app (a b : pystr) :
  forallb (fun c => negb (c =? COMMA)) a = true ->
  split_once COMMA (a ++ COMMA :: b) = Some (a, b).
Proof.
  induction a as [|c a IH]; simpl; [done |].
  intros [Hc Ha]%andb_true_iff. apply negb_true_iff in Hc.
  by rewrite Hc, (IH Ha).
Qed.

Lemma split_once_none (a : pystr) :
  forallb (fun c => negb (c =? COMMA)) a = true ->
  split_once COMMA a = None.
Proof.
  induction a as [|c a IH]; simpl; [done |].
  intros [Hc Ha]%andb_true_iff. apply negb_true_iff in Hc.
  by rewrite Hc, (IH Ha).
Qed.

Lemma strip_two_columns (a b : pystr) :
  lstrip a = a -> rstrip b = b ->
  strip (a ++ [COMMA] ++ b ++ [NEWLINE]) = a ++ COMMA :: b.
Proof.
  intros Ha Hb. unfold strip.
  replace (a ++ [COMMA] ++ b ++ [NEWLINE]) with ((a ++ COMMA :: b) ++ [NEWLINE])
    by (by rewrite <- app_assoc).
  rewrite rstrip_spaces by done.
  assert (Hsep : rstrip (COMMA :: b) = COMMA :: b)
    by (by rewrite rstrip_cons, Hb).
  rewrite rstrip_app_keep by (by rewrite Hsep). rewrite Hsep.
  destruct a as [|c a]; [done |].
  rewrite lstrip_app_nonempty; by rewrite Ha.
Qed.

Lemma strip_one_column (a : pystr) :
  strip a = a -> strip (a ++ [NEWLINE]) = a.
Proof.
  intros Ha. unfold strip. rewrite rstrip_spaces by done. exact Ha.
Qed.

Lemma mapping_step_plain (mapping : gmap pystr pystr) (row : Estudiante) :
  plain_row row = true ->
  ClientMenu.mapping_step mapping (plain_line row) = roster_step mapping row.
Proof.
  unfold plain_row, plain_line, roster_step, ClientMenu.mapping_step.
  intros [[Hid Hhead]%andb_true_iff Hnom]%andb_true_iff.
  destruct (est_nombre row) as [nombre|]; [| done].
  destruct (plain_field_facts _ Hid) as (Hcid & Hlid & Hrid & Hsid).
  destruct (plain_field_facts _ Hnom) as (_ & _ & Hrn & Hsn).
  rewrite strip_two_columns by done.
  assert (Hne : truthy (est_id row ++ COMMA :: nombre) = true)
    by (by destruct (est_id row)).
  rewrite Hne. cbn [negb]. rewrite split_once_app by done.
  rewrite Hsid, Hsn, Hhead. by rewrite andb_true_r.
Qed.

Lemma mapping_step_one_column (mapping : gmap pystr pystr) (row : Estudiante) :
  plain_field (est_id row) = true ->
  est_nombre row = None ->
  ClientMenu.mapping_step mapping (plain_line row) = mapping.
Proof.
  unfold plain_line, ClientMenu.mapping_step. intros Hid ->.
  destruct (plain_field_facts _ Hid) as (Hcid & _ & _ & Hsid).
  rewrite strip_one_column by done.
  destruct (truthy (est_id row)); [| done]. cbn [negb].
  by rewrite split_once_none.
Qed.

Lemma mapping_fold_keys (lines : list pystr) (mapping : gmap pystr pystr) :
  mapping !! [] = None ->
  mapping !! py "ID_Estudiante" = None ->
  foldl ClientMenu.mapping_step mapping lines !! [] = None
  /\ foldl ClientMenu.mapping_step mapping lines !! py "ID_Estudiante" = None.
Proof.
  revert mapping. induction lines as [|line rest IH]; intros mapping He Hh;
    [done |].
  simpl. apply IH; unfold ClientMenu.mapping_step;
    destruct (negb (truthy (strip line))); try done;
    destruct (split_once COMMA (strip line)) as [[a b]|]; try done;
    destruct (truthy (strip a)) eqn:Et; try done;
    destruct (str_eqb (strip a) (py "ID_Estudiante")) eqn:Es; try done;
    simpl; rewrite lookup_insert_ne; try done.
  - intros E. by rewrite E in Et.
  - intros E. rewrite E in Es. by rewrite str_eqb_refl in Es.
Qed.

(** X22. The client's copy of the roster. Read from a file of plain
    lines (an ID that is not the header's, a comma, a name, neither with
    commas, quotes or line breaks inside or whitespace around), the map
    of the client's [load_estudiantes_map] is the map the servers build
    from the rows of those lines, whatever the header line is; so the
    client lets through to AGREGAR exactly the students for whom the
    servers show a name. A line with an ID and no comma is skipped by
    the client, while the servers bind the ID of such a row to the empty
    name. Whatever the file holds, the client's map has no entry for
    the empty ID and none for the ID that is the header's; a missing or
    empty file gives the empty map. *)
Theorem client_roster_agrees (header : pystr) (rows : list Estudiante) :
  Forall (fun row => plain_row row = true) rows ->
  ClientMenu.load_estudiantes_map (Some (header :: map plain_line rows))
  = load_estudiantes_map rows
  /\ (forall student_id,
        shown (ClientMenu.load_estudiantes_map
                 (Some (header :: map plain_line rows))) student_id
        = shown (load_estudiantes_map rows) student_id)
  /\ (forall mapping row,
        plain_field (est_id row) = true -> est_nombre row = None ->
        est_id row <> [] ->
        ClientMenu.mapping_step mapping (plain_line row) = mapping
        /\ roster_step mapping row = <[est_id row := []]> mapping)
  /\ (forall file,
        ClientMenu.load_estudiantes_map file !! [] = None
        /\ ClientMenu.load_estudiantes_map file !! py "ID_Estudiante" = None)
  /\ ClientMenu.load_estudiantes_map None = ∅
  /\ ClientMenu.load_estudiantes_map (Some []) = ∅.
Proof.
  intros Hplain.
  assert (Hsame : ClientMenu.load_estudiantes_map
                    (Some (header :: map plain_line rows))
                  = load_estudiantes_map rows).
  { rewrite load_estudiantes_map_fold. simpl. generalize (∅ : gmap pystr pystr).
    induction Hplain as [|row rest Hrow _ IH]; intros mapping; [done |].
    simpl. rewrite mapping_step_plain by done. apply IH. }
  split_and!; try done.
  - intros student_id. by rewrite Hsame.
  - intros mapping row Hid Hnone Hne.
    split; [by apply mapping_step_one_column |].
    unfold roster_step. rewrite Hnone. by destruct (est_id row).
  - intros [[|hd lines]|]; simpl; try done.
    by apply mapping_fold_keys.
Qed.

Lemma client_roster_agrees_witness :
  ClientMenu.load_estudiantes_map
    (Some [py "ID_Estudiante,Nombre" ++ [NEWLINE];
           py "1,Ana" ++ [NEWLINE]; py "2," ++ [NEWLINE]])
  = load_estudiantes_map [mkEstudiante (py "1") (Some (py "Ana"));
                          mkEstudiante (py "2") (Some [])].
Proof.
  assert (Hplain : Forall (fun row => plain_row row = true)
                     [mkEstudiante (py "1") (Some (py "Ana"));
                      mkEstudiante (py "2") (Some [])])
    by (repeat constructor).
  exact (proj1 (client_roster_agrees (py "ID_Estudiante,Nombre" ++ [NEWLINE])
                  _ Hplain)).
Defined.

(** * One connection of the threaded server *)

Section HandleClient.
Context `{PyRuntime} `{PyWire}.
Variable env : Env.




End HandleClient.



(** * What a command can do to the grade file *)

Lemma actualizar_loop_shape (student_id materia nueva_cal : pystr)
  (records : Store) :
  same_store records
    (actualizar_loop student_id materia nueva_cal records).1
  \/ one_regraded records
       (actualizar_loop student_id materia nueva_cal records).1.
Proof.
  unfold same_store, one_regraded.
  induction records as [|r rest IH]; simpl; [by left |].
  destruct (same_key student_id materia r).
  - right. by exists [], r, rest, nueva_cal.
  - destruct (actualizar_loop _ _ _ rest) as [rest' u]. simpl in *.
    destruct IH as [-> | (l1 & a & l2 & cal & -> & ->)]; [by left |].
    right. by exists (r :: l1), a, l2, cal.
Qed.

Lemma eliminar_shape (student_id materia : pystr) (records : Store) :
  existsb (same_key student_id materia) records = true ->
  pair_removed records
    (List.filter (fun r => negb (same_key student_id materia r)) records).
Proof.
  intros Hex. exists student_id, materia. split; [done |].
  by apply filter_out_shorter.
Qed.

Section StoreChanges.
Context `{PyRuntime}.
Variable env : Env.

Lemma con_agregar_change (parts : list pystr) (records : Store) :
  same_store records (ConHilos.handle_agregar env parts records).2
  \/ one_added records (ConHilos.handle_agregar env parts records).2.
Proof.
  unfold ConHilos.handle_agregar, same_store, one_added.
  destruct parts as [|p0 [|sid [|nom [|mat [|cal [|? ?]]]]]]; try by left.
  destruct (nrc_resp env mat) as [answer|e]; [| by left].
  destruct answer; try by left.
  destruct (get_is _ (py "error")); [by left |].
  destruct (get_is _ (py "not_found")); [by left |].
  destruct (get_estudiante_nombre _ _); [| by left].
  open_records; [| by left].
  destruct (existsb _ records) eqn:E; [by left |].
  right. eexists. split; [reflexivity |]. by apply existsb_same_key_false.
Qed.

Lemma sin_agregar_change (parts : list pystr) (records : Store) :
  same_store records (SinHilos.handle_agregar env parts records).2
  \/ one_added records (SinHilos.handle_agregar env parts records).2.
Proof.
  unfold SinHilos.handle_agregar, same_store, one_added.
  destruct parts as [|p0 [|sid [|mat [|cal [|? ?]]]]]; try by left.
  destruct (negb (truthy sid)); [by left |].
  destruct (get_estudiante_nombre _ _); [| by left].
  open_records; [| by left].
  destruct (existsb _ records) eqn:E; [by left |].
  right. eexists. split; [reflexivity |]. by apply existsb_same_key_false.
Qed.

Lemma actualizar_change (parts : list pystr) (records : Store) :
  same_store records (ConHilos.handle_actualizar parts records).2
  \/ one_regraded records (ConHilos.handle_actualizar parts records).2.
Proof.
  unfold ConHilos.handle_actualizar.
  destruct parts as [|p0 [|sid [|a [|b [|? ?]]]]]; try by left.
  - open_records; [| by left].
    destruct (List.filter (has_id sid) records) as [|nota [|? ?]];
      try by left.
    pose proof (actualizar_loop_shape sid (Materia nota) a records) as Hs.
    by destruct (actualizar_loop sid (Materia nota) a records).
  - open_records; [| by left].
    pose proof (actualizar_loop_shape sid a b records) as Hs.
    destruct (actualizar_loop sid a b records) as [records' u].
    destruct (negb u); [by left | done].
Qed.

Lemma eliminar_change (parts : list pystr) (records : Store) :
  same_store records (ConHilos.handle_eliminar parts records).2
  \/ pair_removed records (ConHilos.handle_eliminar parts records).2.
Proof.
  unfold ConHilos.handle_eliminar, ConHilos.eliminar.
  assert (Hone : forall sid,
    same_store records
      (match List.filter (has_id sid) records with
       | [] => (Return (resp_not_found (py "No existe el ID")), records)
       | [nota] =>
           (Return (resp_ok (JObj [(py "ID_Estudiante", JStr sid);
                                   (py "Materia", JStr (Materia nota))])),
            List.filter (fun r => negb (same_key sid (Materia nota) r))
                        records)
       | _ :: _ :: _ =>
           (Return (resp_error
              (py "El ID tiene varias notas; especifique Materia (ELIMINAR|ID|Materia)")),
            records)
       end : Outcome JSON * Store).2
    \/ pair_removed records
         (match List.filter (has_id sid) records with
          | [] => (Return (resp_not_found (py "No existe el ID")), records)
          | [nota] =>
              (Return (resp_ok (JObj [(py "ID_Estudiante", JStr sid);
                                      (py "Materia", JStr (Materia nota))])),
               List.filter (fun r => negb (same_key sid (Materia nota) r))
                           records)
          | _ :: _ :: _ =>
              (Return (resp_error
                 (py "El ID tiene varias notas; especifique Materia (ELIMINAR|ID|Materia)")),
               records)
          end : Outcome JSON * Store).2).
  { intros sid.
    destruct (List.filter (has_id sid) records) as [|nota [|? ?]] eqn:E;
      try by left.
    right. by apply eliminar_shape, sole_nota_stored. }
  destruct parts as [|p0 [|sid [|mat [|? ?]]]]; try by left.
  - open_records; [| by left]. apply Hone.
  - open_records; [| by left].
    destruct mat as [|c m]; [apply Hone |].
    destruct (existsb (same_key sid (c :: m)) records) eqn:E.
    + rewrite (filter_out_present _ _ _ E). right. by apply eliminar_shape.
    + rewrite (filter_out_absent _ _ _ E), Nat.eqb_refl. by left.
Qed.
End StoreChanges.

(** X24. What one command can do to the grade file, in either
    deployment. Whatever the line, the rows afterwards are the rows
    before, or differ from them in one of three ways, each tied to one
    command: AGREGAR may add one row at the end, for a pair that was not
    stored; ACTUALIZAR may replace the grade of one row, which keeps its
    place, its ID and its Materia; ELIMINAR may take out the rows of
    one pair and then leaves fewer rows. No command moves a row, no
    command but AGREGAR adds one and no command but ELIMINAR drops
    one. *)
Theorem commands_touch_store `{PyRuntime} (env : Env) (line : pystr)
  (records : Store) :
  forall new,
    new = (ConHilos.process_command env line records).2
    \/ new = (SinHilos.process_command env line records).2 ->
    same_store records new
    \/ (command_of line = Some (py "AGREGAR") /\ one_added records new)
    \/ (command_of line = Some (py "ACTUALIZAR") /\ one_regraded records new)
    \/ (command_of line = Some (py "ELIMINAR") /\ pair_removed records new).
Proof.
  intros new Hnew.
  unfold ConHilos.process_command, SinHilos.process_command in Hnew.
  unfold command_of, parts_of.
  destruct (if truthy (strip line) then _ else _) as [|p0 rest];
    [left; by destruct Hnew |].
  destruct (str_eqb (upper p0) (py "AGREGAR")) eqn:Ea.
  { apply str_eqb_eq in Ea. rewrite Ea.
    destruct Hnew as [-> | ->];
      [destruct (con_agregar_change env (p0 :: rest) records)
      | destruct (sin_agregar_change env (p0 :: rest) records)]; auto. }
  destruct (str_eqb (upper p0) (py "BUSCAR")) eqn:Eb.
  { left. destruct Hnew as [-> | ->];
      [apply con_buscar_store | apply sin_buscar_store]. }
  destruct (str_eqb (upper p0) (py "ACTUALIZAR")) eqn:Eu.
  { apply str_eqb_eq in Eu. rewrite Eu.
    assert (Hn : new = (ConHilos.handle_actualizar (p0 :: rest) records).2)
      by (by destruct Hnew).
    rewrite Hn. destruct (actualizar_change (p0 :: rest) records); auto. }
  destruct (str_eqb (upper p0) (py "LISTAR")) eqn:El.
  { left. destruct Hnew as [-> | ->];
      [apply con_listar_store | apply sin_listar_store]. }
  destruct (str_eqb (upper p0) (py "ELIMINAR")) eqn:Ee.
  { apply str_eqb_eq in Ee. rewrite Ee.
    assert (Hn : new = (ConHilos.handle_eliminar (p0 :: rest) records).2)
      by (by destruct Hnew).
    rewrite Hn. destruct (eliminar_change (p0 :: rest) records); auto 6. }
  left. by destruct Hnew.
Qed.

Lemma commands_touch_store_witness :
  same_store [mkRow (py "1") (py "MAT101") (py "9")]
    [mkRow (py "1") (py "MAT101") (py "7")]
  \/ (command_of (H := example_runtime) (py "actualizar|1|7")
      = Some (py "AGREGAR")
      /\ one_added [mkRow (py "1") (py "MAT101") (py "9")]
           [mkRow (py "1") (py "MAT101") (py "7")])
  \/ (command_of (H := example_runtime) (py "actualizar|1|7")
      = Some (py "ACTUALIZAR")
      /\ one_regraded [mkRow (py "1") (py "MAT101") (py "9")]
           [mkRow (py "1") (py "MAT101") (py "7")])
  \/ (command_of (H := example_runtime) (py "actualizar|1|7")
      = Some (py "ELIMINAR")
      /\ pair_removed [mkRow (py "1") (py "MAT101") (py "9")]
           [mkRow (py "1") (py "MAT101") (py "7")]).
Proof.
  apply (commands_touch_store (H := example_runtime) example_env
           (py "actualizar|1|7") [mkRow (py "1") (py "MAT101") (py "9")]).
  left. vm_compute. reflexivity.
Defined.
